(** * ReGBA in-application menu (source/opendingux/gui.c)

    A shallow embedding of the menu module of ReGBA's OpenDingux port:
    the menu data model, the default entry operations, the decimal
    formatters, the settings codec (choice lists, button mappings and
    hotkeys), the button-capture loops, the navigation loop and the
    settings file reader, followed by the properties established for them.

    Conventions.
    - [uint32_t] values are [Z] with the wrap-around written out ([u32]).
    - [char] is [ascii]; a [char*] that is only read is a [list ascii]
      without its terminating NUL; a [char] array that is written is a
      [list ascii] holding every byte of the array, NUL included.
    - A pointer to a settings variable is a [Var]; a pointer to a menu is a
      [MenuId]; a function pointer is a constructor naming the function.
    - Code that can dereference NULL, read past an array or spin forever
      returns an [outcome]. *)

From Stdlib Require Import ZArith Lia Ascii String.
From Equations Require Import Equations.
From stdpp Require Import base list.

Open Scope Z_scope.

(* ================================================================== *)
(** * Part I: the program *)
(* ================================================================== *)

(** ** Machine integers and characters *)

Definition u32 (z : Z) : Z := z mod 2 ^ 32.
Definition u64 (z : Z) : Z := z mod 2 ^ 64.

Definition INT64_MIN : Z := - 2 ^ 63.
Definition INT64_MAX : Z := 2 ^ 63 - 1.
Definition UINT64_MAX : Z := 2 ^ 64 - 1.

Definition NUL : ascii := "000"%char.

(** A string literal of the source, as the bytes before its NUL. *)
Definition str (s : string) : list ascii := list_ascii_of_string s.

Definition char_code (c : ascii) : Z := Z.of_N (N_of_ascii c).
Definition char_of (z : Z) : ascii := ascii_of_N (Z.to_N (z mod 256)).

Definition ceqb (a b : ascii) : bool := Ascii.eqb a b.

(** [tolower] in the C locale. *)
Definition tolower (c : ascii) : ascii :=
  if (char_code "A" <=? char_code c) && (char_code c <=? char_code "Z")
  then char_of (char_code c + 32) else c.

(** [strcasecmp(a, b) == 0]. *)
Fixpoint strcasecmp_eq (a b : list ascii) : bool :=
  match a, b with
  | [], [] => true
  | x :: a', y :: b' => ceqb (tolower x) (tolower y) && strcasecmp_eq a' b'
  | _, _ => false
  end.

(** The C string that starts at index [i] of the array [buf]. *)
Fixpoint until_nul (l : list ascii) : list ascii :=
  match l with
  | [] => []
  | c :: l' => if ceqb c NUL then [] else c :: until_nul l'
  end.

Definition cstring (buf : list ascii) (i : Z) : list ascii :=
  until_nul (drop (Z.to_nat i) buf).

(** [buf[i]] and [buf[i] = c]. *)
Definition peek (buf : list ascii) (i : Z) : ascii := nth (Z.to_nat i) buf NUL.
Definition poke (buf : list ascii) (i : Z) (c : ascii) : list ascii :=
  <[Z.to_nat i := c]> buf.

(** [strcpy(buf + i, s)] and [strcat(buf + i, s)]. *)
Fixpoint poke_all (buf : list ascii) (i : Z) (s : list ascii) : list ascii :=
  match s with
  | [] => buf
  | c :: s' => poke_all (poke buf i c) (i + 1) s'
  end.

Definition strcpy (buf : list ascii) (i : Z) (s : list ascii) : list ascii :=
  poke_all buf i (s ++ [NUL]).

(** [snprintf(Value, n, ...)] keeps at most [n - 1] bytes of the text. *)
Definition snprintf (n : nat) (text : list ascii) : list ascii :=
  take (n - 1) text.

(** ** Outcomes of code that may fault *)

Inductive trap : Type :=
  | NullDereference   (* a NULL pointer is dereferenced *)
  | ReadPastEnd       (* an array is read beyond its last element *)
  | OutOfFuel         (* the loop was still running when the fuel ran out *)
  | InputExhausted.   (* the loop was still polling when the frames ran out *)

Inductive outcome (A : Type) : Type :=
  | Done (a : A)
  | Trap (t : trap).
Arguments Done {A} a.
Arguments Trap {A} t.

#[global] Instance outcome_ret : MRet outcome := fun A a => Done a.
#[global] Instance outcome_bind : MBind outcome := fun A B k m =>
  match m with
  | Done a => k a
  | Trap t => Trap t
  end.

(** What [ReGBA_Trace] has been given so far, oldest first. A computation
    that traces takes the log and returns it extended, whether or not it
    then faults. *)
Definition Log : Type := list (list ascii).

Definition traced (A : Type) : Type := Log -> Log * outcome A.

#[global] Instance traced_ret : MRet traced := fun A a log => (log, Done a).
#[global] Instance traced_bind : MBind traced := fun A B k m log =>
  match m log with
  | (log', Done a) => k a log'
  | (log', Trap t) => (log', Trap t)
  end.

Definition ReGBA_Trace (message : list ascii) : traced unit :=
  fun log => (log ++ [message], Done ()).

Definition lift {A} (m : outcome A) : traced A := fun log => (log, m).

(** ** The data model *)

Inductive MenuEntryKind : Type :=
  KIND_OPTION | KIND_SUBMENU | KIND_DISPLAY | KIND_CUSTOM.

Inductive MenuDataType : Type :=
  TYPE_STRING | TYPE_INT32 | TYPE_UINT32 | TYPE_INT64 | TYPE_UINT64.

(** The statically allocated [struct Menu] objects. *)
Inductive MenuId : Type :=
  | MainMenu | DebugMenu | NativeCodeMenu | MetadataMenu | ExecutionMenu
  | ReuseMenu | ROMInfoMenu | DisplayMenu | ButtonMappingMenu | HotkeyMenu.

(** The [uint32_t] settings that option entries point to. *)
Inductive Var : Type :=
  | P_BootFromBIOS | P_ShowFPS | P_ScaleMode | P_UserFrameskip
  | P_FastForwardTarget | P_AnalogSensitivity
  | P_KeypadRemapping (i : nat)
  | P_Hotkeys (i : nat).

(** [void* Target]. *)
Inductive TargetPtr : Type :=
  | T_NULL
  | T_Var (v : Var)            (* KIND_OPTION: uint32_t* *)
  | T_Menu (m : MenuId)        (* KIND_SUBMENU: struct Menu* *)
  | T_Data (what : string).    (* KIND_DISPLAY: statistics and ROM strings *)

(** The functions of this file that a function-pointer member can hold,
    by the type of the member. *)
Inductive MenuModifyFunction : Type :=
  | F_DefaultUpFunction | F_DefaultDownFunction
  | F_DefaultEnterFunction | F_DefaultLeaveFunction
  | F_ActionExit | F_ActionReturn | F_ActionReset
  | F_ActionSetMapping | F_ActionSetOrClearMapping | F_ActionSetOrClearHotkey.

Inductive MenuEntryFunction : Type :=
  | F_DefaultRightFunction | F_DefaultLeftFunction | F_DefaultDisplayDataFunction
  | F_NullLeftFunction | F_NullRightFunction.

Inductive MenuEntryDisplayFunction : Type :=
  | F_DefaultDisplayNameFunction | F_DefaultDisplayValueFunction
  | F_DisplayButtonMappingValue | F_DisplayHotkeyValue.

Inductive MenuFunction : Type :=
  F_DefaultDisplayBackgroundFunction | F_DefaultDisplayTitleFunction.

(** [MenuPersistenceFunction]: the functions that load, for
    [LoadFunction], and those that save, for [SaveFunction]. *)
Inductive MenuLoadFunction : Type :=
  F_DefaultLoadFunction | F_LoadMappingFunction | F_LoadHotkeyFunction.
Inductive MenuSaveFunction : Type :=
  F_DefaultSaveFunction | F_SaveMappingFunction | F_SaveHotkeyFunction.

Record Choice : Type := mkChoice { Pretty : list ascii; Persistent : list ascii }.

Record MenuEntry : Type := mkMenuEntry {
  Kind : MenuEntryKind;
  Name : list ascii;
  PersistentName : option (list ascii);
  DisplayType : MenuDataType;
  Position : Z;
  Target : TargetPtr;
  ChoiceCount : Z;
  ButtonEnterFunction : option MenuModifyFunction;
  ButtonLeftFunction : option MenuEntryFunction;
  ButtonRightFunction : option MenuEntryFunction;
  DisplayNameFunction : option MenuEntryDisplayFunction;
  DisplayValueFunction : option MenuEntryDisplayFunction;
  LoadFunction : option MenuLoadFunction;
  SaveFunction : option MenuSaveFunction;
  Choices : list Choice
}.

(** [Entries] holds the initialisers as written, [None] being a NULL
    pointer; a read at an index beyond them is a read past the object.
    [ActiveEntryIndex], the one member that is written, is kept with the
    state of the navigation loop. [UserData], of both structures, is
    neither read nor written in this file and is left out. *)
Record Menu : Type := mkMenu {
  Parent : option MenuId;
  Title : list ascii;
  DisplayBackgroundFunction : option MenuFunction;
  DisplayTitleFunction : option MenuFunction;
  DisplayDataFunction : option MenuEntryFunction;
  ButtonUpFunction : option MenuModifyFunction;
  ButtonDownFunction : option MenuModifyFunction;
  ButtonLeaveFunction : option MenuModifyFunction;
  InitFunction : option MenuFunction;
  EndFunction : option MenuFunction;
  Entries : list (option MenuEntry)
}.

(** The settings variables that option entries point to. *)
Record Memory : Type := mkMemory {
  BootFromBIOS : Z;
  ShowFPS : Z;
  ScaleMode : Z;
  UserFrameskip : Z;
  FastForwardTarget : Z;
  AnalogSensitivity : Z;
  KeypadRemapping : list Z;
  Hotkeys : list Z
}.

Definition load32 (m : Memory) (v : Var) : Z :=
  match v with
  | P_BootFromBIOS => BootFromBIOS m
  | P_ShowFPS => ShowFPS m
  | P_ScaleMode => ScaleMode m
  | P_UserFrameskip => UserFrameskip m
  | P_FastForwardTarget => FastForwardTarget m
  | P_AnalogSensitivity => AnalogSensitivity m
  | P_KeypadRemapping i => nth i (KeypadRemapping m) 0
  | P_Hotkeys i => nth i (Hotkeys m) 0
  end.

Definition store32 (v : Var) (x : Z) (m : Memory) : Memory :=
  match v with
  | P_BootFromBIOS =>
      mkMemory x (ShowFPS m) (ScaleMode m) (UserFrameskip m)
        (FastForwardTarget m) (AnalogSensitivity m) (KeypadRemapping m) (Hotkeys m)
  | P_ShowFPS =>
      mkMemory (BootFromBIOS m) x (ScaleMode m) (UserFrameskip m)
        (FastForwardTarget m) (AnalogSensitivity m) (KeypadRemapping m) (Hotkeys m)
  | P_ScaleMode =>
      mkMemory (BootFromBIOS m) (ShowFPS m) x (UserFrameskip m)
        (FastForwardTarget m) (AnalogSensitivity m) (KeypadRemapping m) (Hotkeys m)
  | P_UserFrameskip =>
      mkMemory (BootFromBIOS m) (ShowFPS m) (ScaleMode m) x
        (FastForwardTarget m) (AnalogSensitivity m) (KeypadRemapping m) (Hotkeys m)
  | P_FastForwardTarget =>
      mkMemory (BootFromBIOS m) (ShowFPS m) (ScaleMode m) (UserFrameskip m)
        x (AnalogSensitivity m) (KeypadRemapping m) (Hotkeys m)
  | P_AnalogSensitivity =>
      mkMemory (BootFromBIOS m) (ShowFPS m) (ScaleMode m) (UserFrameskip m)
        (FastForwardTarget m) x (KeypadRemapping m) (Hotkeys m)
  | P_KeypadRemapping i =>
      mkMemory (BootFromBIOS m) (ShowFPS m) (ScaleMode m) (UserFrameskip m)
        (FastForwardTarget m) (AnalogSensitivity m)
        (<[i := x]> (KeypadRemapping m)) (Hotkeys m)
  | P_Hotkeys i =>
      mkMemory (BootFromBIOS m) (ShowFPS m) (ScaleMode m) (UserFrameskip m)
        (FastForwardTarget m) (AnalogSensitivity m)
        (KeypadRemapping m) (<[i := x]> (Hotkeys m))
  end.

(** The variable is inside the memory: an array element is below the
    array's length. *)
Definition allocated (m : Memory) (v : Var) : Prop :=
  match v with
  | P_KeypadRemapping i => (i < length (KeypadRemapping m))%nat
  | P_Hotkeys i => (i < length (Hotkeys m))%nat
  | _ => True
  end.

(** A memory for the examples: frame skipping at its fourth choice, 13
    mapping slots of which the second is unbound and the first holds two
    buttons, one hotkey. *)
Definition sample_memory : Memory :=
  mkMemory 0 0 0 3 0 0 [3; 0; 128; 64; 32; 16; 8; 4; 2; 1; 0; 0; 2048] [0].

(** [*(uint32_t* ) Target] and [*(uint32_t* ) Target = x]. An option entry
    "must point to uint32_t"; for any other pointer the read gives 0 and
    the write changes nothing here. *)
Definition read_target (e : MenuEntry) (m : Memory) : Z :=
  match Target e with
  | T_Var v => load32 m v
  | _ => 0
  end.

Definition write_target (e : MenuEntry) (x : Z) (m : Memory) : Memory :=
  match Target e with
  | T_Var v => store32 v x m
  | _ => m
  end.

(** [Entries[i]]. *)
Definition entry_at (menu : Menu) (i : Z) : outcome (option MenuEntry) :=
  match Entries menu !! Z.to_nat i with
  | Some p => Done p
  | None => Trap ReadPastEnd
  end.

(** [Entries[i]->...]: the entry pointer is dereferenced. *)
Definition deref {A} (p : option A) : outcome A :=
  match p with
  | Some x => Done x
  | None => Trap NullDereference
  end.

(** ** Default entry and menu operations *)

(** The [while] of [DefaultUpFunction]: advance the index to the NULL that
    ends [Entries]. [rest] is the part of the array from the index on. *)
Fixpoint seek_null (rest : list (option MenuEntry)) (i : Z) : outcome Z :=
  match rest with
  | [] => Trap ReadPastEnd
  | None :: _ => Done i
  | Some _ :: rest' => seek_null rest' (u32 (i + 1))
  end.

(** The [MenuModifyFunction]s take [&ActiveMenu] and
    [&ActiveMenu->ActiveEntryIndex]; here they take the active menu and its
    index, and return the new active menu and the new value of that index.
    [menus] gives the [struct Menu] that a menu pointer points to. *)
Definition DefaultUpFunction (menus : MenuId -> Menu) (ActiveMenu : MenuId)
    (ActiveMenuEntryIndex : Z) : outcome (option MenuId * Z) :=
  i ← (if ActiveMenuEntryIndex =? 0
       then seek_null (Entries (menus ActiveMenu)) 0
       else Done ActiveMenuEntryIndex);
  Done (Some ActiveMenu, u32 (i - 1)).

Definition DefaultDownFunction (menus : MenuId -> Menu) (ActiveMenu : MenuId)
    (ActiveMenuEntryIndex : Z) : outcome (option MenuId * Z) :=
  let i := u32 (ActiveMenuEntryIndex + 1) in
  p ← entry_at (menus ActiveMenu) i;
  match p with
  | None => Done (Some ActiveMenu, 0)
  | Some _ => Done (Some ActiveMenu, i)
  end.

Definition DefaultRightFunction (ActiveMenuEntry : MenuEntry) (m : Memory) : Memory :=
  match Kind ActiveMenuEntry with
  | KIND_OPTION =>
      let t := u32 (read_target ActiveMenuEntry m + 1) in
      if ChoiceCount ActiveMenuEntry <=? t
      then write_target ActiveMenuEntry 0 m
      else write_target ActiveMenuEntry t m
  | _ => m
  end.

Definition DefaultLeftFunction (ActiveMenuEntry : MenuEntry) (m : Memory) : Memory :=
  match Kind ActiveMenuEntry with
  | KIND_OPTION =>
      let t := if read_target ActiveMenuEntry m =? 0
               then ChoiceCount ActiveMenuEntry
               else read_target ActiveMenuEntry m in
      write_target ActiveMenuEntry (u32 (t - 1)) m
  | _ => m
  end.

Definition DefaultEnterFunction (menus : MenuId -> Menu) (ActiveMenu : MenuId)
    (ActiveMenuEntryIndex : Z) : outcome (option MenuId * Z) :=
  p ← entry_at (menus ActiveMenu) ActiveMenuEntryIndex;
  e ← deref p;
  match Kind e with
  | KIND_SUBMENU =>
      match Target e with
      | T_Menu sub => Done (Some sub, ActiveMenuEntryIndex)
      | _ => Done (None, ActiveMenuEntryIndex)   (* a NULL [Target] *)
      end
  | _ => Done (Some ActiveMenu, ActiveMenuEntryIndex)
  end.

Definition DefaultLeaveFunction (menus : MenuId -> Menu) (ActiveMenu : MenuId)
    (ActiveMenuEntryIndex : Z) : outcome (option MenuId * Z) :=
  Done (Parent (menus ActiveMenu), ActiveMenuEntryIndex).

(** ** Decimal formatters *)

(** A bound on the iterations of the loops that divide by ten; it only
    serves to show that they end. *)
Definition bit_size (v : Z) : nat := Z.to_nat (Z.log2 (2 * v)).

Lemma bit_size_div10 v : 0 < v -> (bit_size (v / 10) < bit_size v)%nat.
Proof.
  intros Hv. unfold bit_size.
  assert (0 <= v / 10) by (apply Z.div_pos; lia).
  assert (2 * (v / 10) <= v) by (pose proof (Z.mul_div_le v 10); lia).
  assert (Z.log2 (2 * (v / 10)) <= Z.log2 v) by (apply Z.log2_le_mono; lia).
  assert (Z.log2 (2 * v) = Z.succ (Z.log2 v)) by (apply Z.log2_double; lia).
  pose proof (Z.log2_nonneg (2 * (v / 10))). lia.
Qed.

(** [while (Temp > 0) { Temp /= 10; Length++; }] *)
Equations? count_digits (Temp : Z) (Length : Z) : Z by wf (bit_size Temp) lt :=
  count_digits Temp Length :=
    if decide (0 < Temp) then count_digits (Temp / 10) (Length + 1) else Length.
Proof. by apply bit_size_div10. Qed.

(** [while (Value > 0) { Length--; Result[Length] = '0' + (Value % 10);
    Value /= 10; }], [Result] being the array from index [base] on. *)
Equations? write_digits (buf : list ascii) (base : Z) (Value : Z) (Length : Z)
    : list ascii by wf (bit_size Value) lt :=
  write_digits buf base Value Length :=
    if decide (0 < Value)
    then write_digits
           (poke buf (base + (Length - 1)) (char_of (char_code "0" + Value mod 10)))
           base (Value / 10) (Length - 1)
    else buf.
Proof. by apply bit_size_div10. Qed.

Definition print_u64 (buf : list ascii) (base : Z) (Value : Z) : list ascii :=
  if Value =? 0 then strcpy buf base (str "0")
  else
    let Length := count_digits Value 0 in
    write_digits (poke buf (base + Length) NUL) base Value Length.

Definition print_i64 (buf : list ascii) (Value : Z) : list ascii :=
  if Value <? -9223372036854775807 then strcpy buf 0 (str "-9223372036854775808")
  else if Value <? 0 then print_u64 (poke buf 0 "-"%char) 1 (u64 (- Value))
  else print_u64 buf 0 (u64 Value).

(** ** The default settings codec *)

Definition choice_at (e : MenuEntry) (i : Z) : outcome Choice :=
  match Choices e !! Z.to_nat i with
  | Some c => Done c
  | None => Trap ReadPastEnd
  end.

(** The [for] of [DefaultLoadFunction], with [remaining] indices to go from
    [i] on: [Some] memory when a choice matched and the function returned,
    [None] when the loop ran to its end. *)
Fixpoint DefaultLoad_scan (e : MenuEntry) (Value : list ascii) (m : Memory)
    (remaining : nat) (i : Z) : outcome (option Memory) :=
  match remaining with
  | O => Done None
  | S remaining' =>
      c ← choice_at e i;
      if strcasecmp_eq (Persistent c) Value
      then Done (Some (write_target e i m))
      else DefaultLoad_scan e Value m remaining' (i + 1)
  end.

Definition DefaultLoadFunction (ActiveMenuEntry : MenuEntry) (Value : list ascii)
    (m : Memory) : traced Memory :=
  r ← lift (DefaultLoad_scan ActiveMenuEntry Value m
              (Z.to_nat (ChoiceCount ActiveMenuEntry)) 0);
  match r with
  | Some m' => mret m'
  | None =>
      name ← lift (deref (PersistentName ActiveMenuEntry));
      _ ← ReGBA_Trace (str "W: Value '" ++ Value ++ str "' for option '"
                        ++ name ++ str "' not valid; ignored");
      mret m
  end.

Definition LF : ascii := "010"%char.
Definition CR : ascii := "013"%char.
Definition TAB : ascii := "009"%char.

Definition DefaultSaveFunction (ActiveMenuEntry : MenuEntry) (m : Memory)
    : outcome (list ascii) :=
  name ← deref (PersistentName ActiveMenuEntry);
  c ← choice_at ActiveMenuEntry (read_target ActiveMenuEntry m);
  Done (snprintf 256
          (name ++ str " = " ++ Persistent c ++ str " #" ++ Pretty c ++ [LF])).

(** ** Buttons *)

Definition OPENDINGUX_BUTTON_COUNT : nat := 16.

(** [for (i = start; i < start + remaining; i++) if (p i) { ...; break; }]:
    the index at which the loop breaks, if it does. *)
Fixpoint first_index (p : Z -> bool) (remaining : nat) (i : Z) : option Z :=
  match remaining with
  | O => None
  | S remaining' => if p i then Some i else first_index p remaining' (i + 1)
  end.

(** [for (...) if ((ButtonTotal & (1 << i)) != 0) BitCount++;] *)
Fixpoint count_buttons (ButtonTotal : Z) (remaining : nat) (i : Z) (BitCount : Z) : Z :=
  match remaining with
  | O => BitCount
  | S remaining' =>
      count_buttons ButtonTotal remaining' (i + 1)
        (if negb (Z.land ButtonTotal (Z.shiftl 1 i) =? 0) then BitCount + 1 else BitCount)
  end.

Definition OpenDinguxButtonSave : list ascii :=
  [ "L"; "R"; "v"; "^"; "<"; ">"; "S"; "s"; "B"; "A"; "Y"; "X"; "d"; "u"; "l"; "r" ]%char.

Definition ButtonSave (i : Z) : ascii := peek OpenDinguxButtonSave i.

Section Port.

(** Constants of [port.h] and of the input module, which are not part of
    this file: the names of two face buttons, the button that cancels a
    hotkey, and the built-in key map. *)
Variable LEFT_FACE_BUTTON_NAME TOP_FACE_BUTTON_NAME : list ascii.
Variable OPENDINGUX_BUTTON_FACE_DOWN : Z.
Variable DefaultKeypadRemapping : list Z.

Definition OpenDinguxButtonText : list (list ascii) :=
  [ str "L"; str "R"; str "D-pad Down"; str "D-pad Up"; str "D-pad Left";
    str "D-pad Right"; str "Start"; str "Select"; str "B"; str "A";
    LEFT_FACE_BUTTON_NAME; TOP_FACE_BUTTON_NAME;
    str "Analog Down"; str "Analog Up"; str "Analog Left"; str "Analog Right" ].

Definition ButtonText (i : Z) : list ascii := nth (Z.to_nat i) OpenDinguxButtonText [].

(** Returns the text and [*Valid]. *)
Definition GetButtonText (Button : Z) : list ascii * bool :=
  if Button =? 0 then (str "None", true)
  else
    match first_index (fun i => Button =? Z.shiftl 1 i) OPENDINGUX_BUTTON_COUNT 0 with
    | Some i => (ButtonText i, true)
    | None => (str "Invalid", false)
    end.

(** The [for] of [GetButtonsText]; [Result] is the text so far. *)
Fixpoint GetButtonsText_loop (Buttons : Z) (remaining : nat) (i : Z)
    (AfterFirst : bool) (Result : list ascii) : list ascii :=
  match remaining with
  | O => Result
  | S remaining' =>
      if negb (Z.land Buttons (Z.shiftl 1 i) =? 0)
      then GetButtonsText_loop Buttons remaining' (i + 1) true
             ((if AfterFirst then Result ++ str "+" else Result) ++ ButtonText i)
      else GetButtonsText_loop Buttons remaining' (i + 1) AfterFirst Result
  end.

Definition GetButtonsText (Buttons : Z) : list ascii :=
  if Buttons =? 0 then str "None"
  else GetButtonsText_loop Buttons OPENDINGUX_BUTTON_COUNT 0 false [].

(** ** The button codecs *)

Definition LoadMappingFunction (ActiveMenuEntry : MenuEntry) (Value : list ascii)
    (m : Memory) : Memory :=
  let Value0 := hd NUL Value in
  let Mapping :=
    if negb (ceqb Value0 "x")
    then match first_index (fun i => ceqb Value0 (ButtonSave i))
                 OPENDINGUX_BUTTON_COUNT 0 with
         | Some i => Z.shiftl 1 i
         | None => 0
         end
    else 0 in
  write_target ActiveMenuEntry Mapping m.

(** [Temp] at the end of [SaveMappingFunction], up to its NUL. *)
Definition SaveMapping_Temp (target : Z) : list ascii :=
  let Temp :=
    match first_index (fun i => target =? Z.shiftl 1 i) OPENDINGUX_BUTTON_COUNT 0 with
    | Some i => ButtonSave i :: str " #" ++ ButtonText i
    | None => []
    end in
  if ceqb (hd NUL Temp) NUL then str "x #None" else Temp.

Definition SaveMappingFunction (ActiveMenuEntry : MenuEntry) (m : Memory)
    : outcome (list ascii) :=
  name ← deref (PersistentName ActiveMenuEntry);
  Done (snprintf 256
          (name ++ str " = " ++ SaveMapping_Temp (read_target ActiveMenuEntry m) ++ [LF])).

(** The [while ( *Ptr)] of [LoadHotkeyFunction]. *)
Fixpoint LoadHotkey_loop (Ptr : list ascii) (Hotkey : Z) : Z :=
  match Ptr with
  | [] => Hotkey
  | c :: Ptr' =>
      LoadHotkey_loop Ptr'
        match first_index (fun i => ceqb c (ButtonSave i)) OPENDINGUX_BUTTON_COUNT 0 with
        | Some i => Z.lor Hotkey (Z.shiftl 1 i)
        | None => Hotkey
        end
  end.

Definition LoadHotkeyFunction (ActiveMenuEntry : MenuEntry) (Value : list ascii)
    (m : Memory) : Memory :=
  let Hotkey :=
    if negb (ceqb (hd NUL Value) "x") then LoadHotkey_loop Value 0 else 0 in
  write_target ActiveMenuEntry Hotkey m.

(** The [for] of [SaveHotkeyFunction]: the bytes stored through [Ptr]. *)
Fixpoint SaveHotkey_loop (target : Z) (remaining : nat) (i : Z) : list ascii :=
  match remaining with
  | O => []
  | S remaining' =>
      if negb (Z.land target (Z.shiftl 1 i) =? 0)
      then ButtonSave i :: SaveHotkey_loop target remaining' (i + 1)
      else SaveHotkey_loop target remaining' (i + 1)
  end.

Definition SaveHotkey_Temp (target : Z) : list ascii :=
  match SaveHotkey_loop target OPENDINGUX_BUTTON_COUNT 0 with
  | [] => str "x #None"
  | codes => codes ++ str " #" ++ GetButtonsText target
  end.

Definition SaveHotkeyFunction (ActiveMenuEntry : MenuEntry) (m : Memory)
    : outcome (list ascii) :=
  name ← deref (PersistentName ActiveMenuEntry);
  Done (snprintf 256
          (name ++ str " = " ++ SaveHotkey_Temp (read_target ActiveMenuEntry m) ++ [LF])).

(** ** Button capture *)

(** [GetPressedOpenDinguxButtons()] returns the next sample of the pressed
    buttons. The samples to come are a list; each call takes its head. The
    three loops of a capture poll once per iteration (drawing and sleeping
    in between), so each is a recursion on the samples; when the samples run
    out while a loop is still polling, the capture has not finished. *)

(** [while (GetPressedOpenDinguxButtons() != 0) ...] *)
Fixpoint await_release (frames : list Z) : outcome (list Z) :=
  match frames with
  | [] => Trap InputExhausted
  | Buttons :: frames' =>
      if negb (Buttons =? 0) then await_release frames' else Done frames'
  end.

(** [while ((Buttons = GetPressedOpenDinguxButtons()) == 0) ...] *)
Fixpoint await_press (frames : list Z) : outcome (Z * list Z) :=
  match frames with
  | [] => Trap InputExhausted
  | Buttons :: frames' =>
      if Buttons =? 0 then await_press frames' else Done (Buttons, frames')
  end.

(** The last loop of [GrabButton]. *)
Fixpoint GrabButton_accumulate (ButtonTotal : Z) (frames : list Z)
    : outcome (Z * list Z) :=
  match frames with
  | [] => Trap InputExhausted
  | Buttons :: frames' =>
      if negb (Buttons =? 0)
      then GrabButton_accumulate (Z.lor ButtonTotal Buttons) frames'
      else Done (ButtonTotal, frames')
  end.

Definition GrabButton (frames : list Z) : outcome (Z * list Z) :=
  frames1 ← await_release frames;
  '(Buttons, frames2) ← await_press frames1;
  GrabButton_accumulate Buttons frames2.

(** The body of the last loop of [GrabButtons]. *)
Definition GrabButtons_merge (ButtonTotal Buttons : Z) : Z :=
  if Z.lor Buttons ButtonTotal =? Buttons then Z.lor ButtonTotal Buttons
  else if Z.lor Buttons ButtonTotal =? ButtonTotal then ButtonTotal
  else Buttons.

Fixpoint GrabButtons_accumulate (ButtonTotal : Z) (frames : list Z)
    : outcome (Z * list Z) :=
  match frames with
  | [] => Trap InputExhausted
  | Buttons :: frames' =>
      if negb (Buttons =? 0)
      then GrabButtons_accumulate (GrabButtons_merge ButtonTotal Buttons) frames'
      else Done (ButtonTotal, frames')
  end.

Definition GrabButtons (frames : list Z) : outcome (Z * list Z) :=
  frames1 ← await_release frames;
  '(Buttons, frames2) ← await_press frames1;
  GrabButtons_accumulate Buttons frames2.

(** ** Custom actions *)

(** What an action works on besides the active menu: the settings, the
    button samples to come, and the calls made to the emulator. *)
Inductive Call : Type := Call_quit | Call_reset_gba.

Record World : Type := mkWorld {
  memory : Memory;
  frames_ahead : list Z;
  calls : list Call
}.

Definition ActionExit (ActiveMenu : MenuId) (ActiveMenuEntryIndex : Z) (w : World)
    : outcome (option MenuId * Z * World) :=
  Done (None, ActiveMenuEntryIndex,
        mkWorld (memory w) (frames_ahead w) (calls w ++ [Call_quit])).

Definition ActionReturn (ActiveMenu : MenuId) (ActiveMenuEntryIndex : Z) (w : World)
    : outcome (option MenuId * Z * World) :=
  Done (None, ActiveMenuEntryIndex, w).

Definition ActionReset (ActiveMenu : MenuId) (ActiveMenuEntryIndex : Z) (w : World)
    : outcome (option MenuId * Z * World) :=
  Done (None, ActiveMenuEntryIndex,
        mkWorld (memory w) (frames_ahead w) (calls w ++ [Call_reset_gba])).

Definition ActionSetMapping (menus : MenuId -> Menu) (ActiveMenu : MenuId)
    (ActiveMenuEntryIndex : Z) (w : World) : outcome (option MenuId * Z * World) :=
  p ← entry_at (menus ActiveMenu) ActiveMenuEntryIndex;
  e ← deref p;
  '(ButtonTotal, frames') ← GrabButton (frames_ahead w);
  let BitCount := count_buttons ButtonTotal OPENDINGUX_BUTTON_COUNT 0 0 in
  let m' := if BitCount =? 1 then write_target e (u32 ButtonTotal) (memory w)
            else memory w in
  Done (Some ActiveMenu, ActiveMenuEntryIndex, mkWorld m' frames' (calls w)).

Definition ActionSetOrClearMapping (menus : MenuId -> Menu) (ActiveMenu : MenuId)
    (ActiveMenuEntryIndex : Z) (w : World) : outcome (option MenuId * Z * World) :=
  p ← entry_at (menus ActiveMenu) ActiveMenuEntryIndex;
  e ← deref p;
  '(ButtonTotal, frames') ← GrabButton (frames_ahead w);
  let BitCount := count_buttons ButtonTotal OPENDINGUX_BUTTON_COUNT 0 0 in
  let m' := write_target e (if BitCount =? 1 then u32 ButtonTotal else 0) (memory w) in
  Done (Some ActiveMenu, ActiveMenuEntryIndex, mkWorld m' frames' (calls w)).

Definition ActionSetOrClearHotkey (menus : MenuId -> Menu) (ActiveMenu : MenuId)
    (ActiveMenuEntryIndex : Z) (w : World) : outcome (option MenuId * Z * World) :=
  p ← entry_at (menus ActiveMenu) ActiveMenuEntryIndex;
  e ← deref p;
  '(ButtonTotal, frames') ← GrabButtons (frames_ahead w);
  let m' := write_target e
              (if ButtonTotal =? OPENDINGUX_BUTTON_FACE_DOWN then 0 else u32 ButtonTotal)
              (memory w) in
  Done (Some ActiveMenu, ActiveMenuEntryIndex, mkWorld m' frames' (calls w)).

(** ** The navigation loop *)

Inductive GUI_Action : Type :=
  | GUI_ACTION_NONE | GUI_ACTION_ENTER | GUI_ACTION_LEAVE
  | GUI_ACTION_UP | GUI_ACTION_DOWN | GUI_ACTION_LEFT | GUI_ACTION_RIGHT.

#[global] Instance MenuId_eq_dec : EqDecision MenuId.
Proof. solve_decision. Defined.

(** The local [ActiveMenu] of [ReGBA_Menu], the [ActiveEntryIndex] member
    of every menu (static, so it outlives a visit to the menu), and the
    world the actions work on. *)
Record Nav : Type := mkNav {
  ActiveMenu : option MenuId;
  ActiveEntryIndex : MenuId -> Z;
  world : World
}.

Definition set_index (index : MenuId -> Z) (menu : MenuId) (i : Z) : MenuId -> Z :=
  fun id => if decide (id = menu) then i else index id.

(** The walk of [DefaultDisplayDataFunction] over [Entries]. What it and
    the functions it calls for each entry draw belongs to the rendering
    module; none of them writes to the state kept here. *)
Fixpoint DefaultDisplayDataFunction (rest : list (option MenuEntry)) : outcome unit :=
  match rest with
  | [] => Trap ReadPastEnd
  | None :: _ => Done ()
  | Some _ :: rest' => DefaultDisplayDataFunction rest'
  end.

(** A call through a [MenuFunction] pointer: both functions only draw. *)
Definition call_menu (f : MenuFunction) (w : World) : outcome World :=
  match f with
  | F_DefaultDisplayBackgroundFunction | F_DefaultDisplayTitleFunction => Done w
  end.

(** A call through a [MenuEntryFunction] pointer, with the menu and the
    entry pointer it is given. *)
Definition call_entry (menus : MenuId -> Menu) (f : MenuEntryFunction)
    (menu : MenuId) (p : option MenuEntry) (w : World) : outcome World :=
  match f with
  | F_DefaultRightFunction =>
      e ← deref p;
      Done (mkWorld (DefaultRightFunction e (memory w)) (frames_ahead w) (calls w))
  | F_DefaultLeftFunction =>
      e ← deref p;
      Done (mkWorld (DefaultLeftFunction e (memory w)) (frames_ahead w) (calls w))
  | F_DefaultDisplayDataFunction =>
      _ ← DefaultDisplayDataFunction (Entries (menus menu)); Done w
  | F_NullLeftFunction | F_NullRightFunction => Done w
  end.

(** A call through a [MenuModifyFunction] pointer. *)
Definition call_modify (menus : MenuId -> Menu) (f : MenuModifyFunction)
    (menu : MenuId) (i : Z) (w : World)
    : outcome (option MenuId * Z * World) :=
  match f with
  | F_DefaultUpFunction =>
      '(menu', i') ← DefaultUpFunction menus menu i; Done (menu', i', w)
  | F_DefaultDownFunction =>
      '(menu', i') ← DefaultDownFunction menus menu i; Done (menu', i', w)
  | F_DefaultEnterFunction =>
      '(menu', i') ← DefaultEnterFunction menus menu i; Done (menu', i', w)
  | F_DefaultLeaveFunction =>
      '(menu', i') ← DefaultLeaveFunction menus menu i; Done (menu', i', w)
  | F_ActionExit => ActionExit menu i w
  | F_ActionReturn => ActionReturn menu i w
  | F_ActionReset => ActionReset menu i w
  | F_ActionSetMapping => ActionSetMapping menus menu i w
  | F_ActionSetOrClearMapping => ActionSetOrClearMapping menus menu i w
  | F_ActionSetOrClearHotkey => ActionSetOrClearHotkey menus menu i w
  end.

(** [if (Function == NULL) Function = &DefaultFunction;] *)
Definition or_default {A} (Function : option A) (DefaultFunction : A) : A :=
  match Function with
  | Some f => f
  | None => DefaultFunction
  end.

(** The [switch (Action)] of [ReGBA_Menu]: the new active menu, the new
    value of the index that was passed by address, and the new world. *)
Definition dispatch (menus : MenuId -> Menu) (Action : GUI_Action) (menu : MenuId)
    (i : Z) (w : World)
    : outcome (option MenuId * Z * World) :=
  match Action with
  | GUI_ACTION_ENTER =>
      p ← entry_at (menus menu) i;
      e ← deref p;
      call_modify menus (or_default (ButtonEnterFunction e) F_DefaultEnterFunction)
        menu i w
  | GUI_ACTION_LEAVE =>
      call_modify menus
        (or_default (ButtonLeaveFunction (menus menu)) F_DefaultLeaveFunction) menu i w
  | GUI_ACTION_UP =>
      call_modify menus
        (or_default (ButtonUpFunction (menus menu)) F_DefaultUpFunction) menu i w
  | GUI_ACTION_DOWN =>
      call_modify menus
        (or_default (ButtonDownFunction (menus menu)) F_DefaultDownFunction) menu i w
  | GUI_ACTION_LEFT =>
      p ← entry_at (menus menu) i;
      e ← deref p;
      w' ← call_entry menus (or_default (ButtonLeftFunction e) F_DefaultLeftFunction)
             menu p w;
      Done (Some menu, i, w')
  | GUI_ACTION_RIGHT =>
      p ← entry_at (menus menu) i;
      e ← deref p;
      w' ← call_entry menus (or_default (ButtonRightFunction e) F_DefaultRightFunction)
             menu p w;
      Done (Some menu, i, w')
  | GUI_ACTION_NONE => Done (Some menu, i, w)
  end.

(** The block after the [switch]: the menu that was active is finalised
    and the new one, unless it is NULL, is initialised, when they differ. *)
Definition change_menu (menus : MenuId -> Menu) (PreviousMenu : MenuId)
    (ActiveMenu : option MenuId) (w : World) : outcome World :=
  if decide (ActiveMenu = Some PreviousMenu) then Done w
  else
    w ← match EndFunction (menus PreviousMenu) with
        | Some f => call_menu f w
        | None => Done w
        end;
    match ActiveMenu with
    | Some menu =>
        match InitFunction (menus menu) with
        | Some f => call_menu f w
        | None => Done w
        end
    | None => Done w
    end.

(** One pass through the body of [while (ActiveMenu != NULL)], for the
    active menu [menu] and the action that [GetGUIAction] returns. *)
Definition ReGBA_Menu_pass (menus : MenuId -> Menu) (Action : GUI_Action)
    (menu : MenuId) (nav : Nav)
    : outcome Nav :=
  let i := ActiveEntryIndex nav menu in
  w ← call_menu (or_default (DisplayBackgroundFunction (menus menu))
                   F_DefaultDisplayBackgroundFunction) (world nav);
  w ← call_menu (or_default (DisplayTitleFunction (menus menu))
                   F_DefaultDisplayTitleFunction) w;
  p ← entry_at (menus menu) i;
  w ← call_entry menus (or_default (DisplayDataFunction (menus menu))
                          F_DefaultDisplayDataFunction) menu p w;
  '(menu', i', w) ← dispatch menus Action menu i w;
  w ← change_menu menus menu menu' w;
  Done (mkNav menu' (set_index (ActiveEntryIndex nav) menu i') w).

(** The loop of [ReGBA_Menu], for the actions that [GetGUIAction] will
    return. *)
Fixpoint ReGBA_Menu_loop (menus : MenuId -> Menu) (actions : list GUI_Action)
    (nav : Nav) : outcome Nav :=
  match ActiveMenu nav with
  | None => Done nav
  | Some menu =>
      match actions with
      | [] => Trap InputExhausted
      | Action :: actions' =>
          nav' ← ReGBA_Menu_pass menus Action menu nav;
          ReGBA_Menu_loop menus actions' nav'
      end
  end.

(** The state of the loop after the passes made for [actions], should
    the active menu not become NULL before. *)
Fixpoint ReGBA_Menu_passes (menus : MenuId -> Menu) (actions : list GUI_Action)
    (nav : Nav) : outcome Nav :=
  match actions, ActiveMenu nav with
  | Action :: actions', Some menu =>
      nav' ← ReGBA_Menu_pass menus Action menu nav;
      ReGBA_Menu_passes menus actions' nav'
  | _, _ => Done nav
  end.

(** [ReGBA_Menu] up to the end of its loop; [index] is [ActiveEntryIndex]
    of every menu as the call finds it. *)
Definition ReGBA_Menu (menus : MenuId -> Menu) (actions : list GUI_Action)
    (index : MenuId -> Z) (w : World)
    : outcome Nav :=
  w ← match InitFunction (menus MainMenu) with
      | Some f => call_menu f w
      | None => Done w
      end;
  ReGBA_Menu_loop menus actions (mkNav (Some MainMenu) index w).

(** ** Saving the settings *)

(** [Menu_SaveOption]: the bytes written to the file. *)
Definition Menu_SaveOption (entry : MenuEntry) (m : Memory) : outcome (list ascii) :=
  buf ← match or_default (SaveFunction entry) F_DefaultSaveFunction with
        | F_DefaultSaveFunction => DefaultSaveFunction entry m
        | F_SaveMappingFunction => SaveMappingFunction entry m
        | F_SaveHotkeyFunction => SaveHotkeyFunction entry m
        end;
  Done (until_nul buf).

(** [Menu_SaveIterateRecurse]; [depth] bounds the nesting of the calls. *)
Fixpoint Menu_SaveIterateRecurse (menus : MenuId -> Menu) (depth : nat)
    (menu : MenuId) (m : Memory)
    : outcome (list ascii) :=
  match depth with
  | O => Trap OutOfFuel
  | S depth' =>
      (fix walk (rest : list (option MenuEntry)) : outcome (list ascii) :=
         match rest with
         | [] => Trap ReadPastEnd
         | None :: _ => Done []
         | Some cur :: rest' =>
             out ← match Kind cur with
                   | KIND_SUBMENU =>
                       match Target cur with
                       | T_Menu sub => Menu_SaveIterateRecurse menus depth' sub m
                       | _ => Trap NullDereference
                       end
                   | KIND_OPTION => Menu_SaveOption cur m
                   | _ => Done []
                   end;
             out' ← walk rest';
             Done (out ++ out')
         end) (Entries (menus menu))
  end.

(** [ReGBA_SaveSettings]. [writable] tells whether [FILE_OPEN] can open
    the file of a name for writing. The result is the value returned and,
    when the file was opened, its name and the bytes written to it. *)
Definition ReGBA_SaveSettings (menus : MenuId -> Menu) (depth : nat) (MAX_PATH : Z)
    (main_path : list ascii) (writable : list ascii -> bool)
    (cfg_name : list ascii) (m : Memory)
    : traced (bool * option (list ascii * list ascii)) :=
  if MAX_PATH <? Z.of_nat (length main_path) + Z.of_nat (length cfg_name) + 5
  then _ ← ReGBA_Trace (str "E: Somehow you hit the filename size limit :o" ++ [LF]);
       mret (false, None)
  else
    let fname := main_path ++ str "/" ++ cfg_name ++ str ".cfg" in
    if writable fname
    then bytes ← lift (Menu_SaveIterateRecurse menus depth MainMenu m);
         mret (true, Some (fname, bytes))
    else _ ← ReGBA_Trace (str "E: Couldn't open file " ++ fname
                            ++ str " for writing." ++ [LF]);
         mret (false, None).

(** [Menu_FindByPersistentName]; [None] is the NULL it returns when no
    entry matches. *)
Fixpoint Menu_FindByPersistentName (menus : MenuId -> Menu) (depth : nat)
    (menu : MenuId) (name : list ascii)
    : outcome (option MenuEntry) :=
  match depth with
  | O => Trap OutOfFuel
  | S depth' =>
      (fix walk (rest : list (option MenuEntry)) : outcome (option MenuEntry) :=
         match rest with
         | [] => Trap ReadPastEnd
         | None :: _ => Done None
         | Some cur :: rest' =>
             match Kind cur with
             | KIND_SUBMENU =>
                 match Target cur with
                 | T_Menu sub =>
                     retcode ← Menu_FindByPersistentName menus depth' sub name;
                     match retcode with
                     | Some e => Done (Some e)
                     | None => walk rest'
                     end
                 | _ => Trap NullDereference
                 end
             | KIND_OPTION =>
                 PersistentName_cur ← deref (PersistentName cur);
                 if strcasecmp_eq PersistentName_cur name then Done (Some cur)
                 else walk rest'
             | _ => walk rest'
             end
         end) (Entries (menus menu))
  end.

(** ** Loading the settings *)

(** [memcpy(dst, src, sizeof(src))] on arrays of the same element type. *)
Definition memcpy (dst src : list Z) : list Z := src ++ drop (length src) dst.

Definition FixUpSettings (m : Memory) : Memory :=
  let K i := nth i (KeypadRemapping m) 0 in
  if (K 0%nat =? 0) || (K 1%nat =? 0) || (K 2%nat =? 0)
     || (K 3%nat =? 0) || (K 4%nat =? 0) || (K 5%nat =? 0)
     || (K 6%nat =? 0) || (K 7%nat =? 0) || (K 8%nat =? 0)
     || (K 9%nat =? 0) || (K 12%nat =? 0)
  then mkMemory (BootFromBIOS m) (ShowFPS m) (ScaleMode m) (UserFrameskip m)
         (FastForwardTarget m) (AnalogSensitivity m)
         (memcpy (KeypadRemapping m) DefaultKeypadRemapping) (Hotkeys m)
  else m.

Definition is_blank (c : ascii) : bool := ceqb c " " || ceqb c TAB.

(** [while ( *cur == ' ' || *cur == '\t') cur++;] *)
Fixpoint skip_blanks (fuel : nat) (line : list ascii) (cur : Z) : outcome Z :=
  match fuel with
  | O => Trap OutOfFuel
  | S fuel' =>
      if is_blank (peek line cur) then skip_blanks fuel' line (cur + 1)
      else Done cur
  end.

(** The loop that finds where the option name ends: [cur] and [opt] when
    it is left. Its [continue] goes back to the test with [cur] as it is. *)
Fixpoint scan_name (fuel : nat) (line : list ascii) (cur : Z) (opt : option Z)
    : outcome (Z * option Z) :=
  match fuel with
  | O => Trap OutOfFuel
  | S fuel' =>
      let c := peek line cur in
      if negb (ceqb c NUL) && negb (is_blank c || ceqb c "=")
      then
        if ceqb c "#" then scan_name fuel' line cur opt
        else scan_name fuel' line (cur + 1)
               (match opt with None => Some cur | Some _ => opt end)
      else Done (cur, opt)
  end.

(** The loop that finds where the option argument ends: the line, [cur]
    and [arg] when it is left. *)
Fixpoint scan_arg (fuel : nat) (line : list ascii) (cur : Z) (arg : option Z)
    : outcome (list ascii * Z * option Z) :=
  match fuel with
  | O => Trap OutOfFuel
  | S fuel' =>
      let c := peek line cur in
      if negb (ceqb c NUL)
      then
        if ceqb c "#" then Done (poke line cur NUL, cur, arg)
        else scan_arg fuel' line (cur + 1)
               (match arg with None => Some cur | Some _ => arg end)
      else Done (line, cur, arg)
  end.

(** The loop that cuts the blanks and line ends after the argument. *)
Fixpoint strip_tail (fuel : nat) (line : list ascii) (cur : Z) : outcome (list ascii) :=
  match fuel with
  | O => Trap OutOfFuel
  | S fuel' =>
      let c := peek line cur in
      if is_blank c || ceqb c LF || ceqb c CR
      then strip_tail fuel' (poke line cur NUL) (cur - 1)
      else Done line
  end.

(** The part of the body of [while (fgets(line, 256, fd))] that cuts the
    line into [opt] and [arg]: the line as it is left, and the two strings,
    or [None] where the body does [continue]. Every loop may run [fuel]
    times. *)
Definition tokenize (fuel : nat) (line : list ascii)
    : outcome (list ascii * option (list ascii * list ascii)) :=
  let line := poke line 256 NUL in
  cur ← skip_blanks fuel line 0;
  '(cur, opt) ← scan_name fuel line cur None;
  match opt with
  | None => Done (line, None)
  | Some opt =>
      let WasEquals := ceqb (peek line cur) "=" in
      let line := poke line cur NUL in
      let cur := cur + 1 in
      after_equals ←
        (if negb WasEquals
         then
           cur ← skip_blanks fuel line cur;
           if negb (ceqb (peek line cur) "=") then Done None
           else Done (Some (cur + 1))
         else Done (Some cur));
      match after_equals with
      | None => Done (line, None)
      | Some cur =>
          cur ← skip_blanks fuel line cur;
          '(line, cur, arg) ← scan_arg fuel line cur None;
          match arg with
          | None => Done (line, None)
          | Some arg =>
              line ← strip_tail fuel line (cur - 1);
              Done (line, Some (cstring line opt, cstring line arg))
          end
      end
  end.

(** The call through [LoadFunction]. *)
Definition call_load (e : MenuEntry) (arg : list ascii) (m : Memory) : traced Memory :=
  match or_default (LoadFunction e) F_DefaultLoadFunction with
  | F_DefaultLoadFunction => DefaultLoadFunction e arg m
  | F_LoadMappingFunction => mret (LoadMappingFunction e arg m)
  | F_LoadHotkeyFunction => mret (LoadHotkeyFunction e arg m)
  end.

(** The rest of the body: look the option up and load its value. *)
Definition load_option (menus : MenuId -> Menu) (fuel : nat) (opt arg : list ascii)
    (m : Memory) : traced Memory :=
  entry ← lift (Menu_FindByPersistentName menus fuel MainMenu opt);
  _ ← match entry with
      | None => ReGBA_Trace (str "W: Option '" ++ opt ++ str "' not found; ignored")
      | Some _ => mret ()
      end;
  e ← lift (deref entry);
  call_load e arg m.

(** [fgets(line, size, fd)]: the bytes it takes from the stream, up to and
    with the first line feed and at most [size - 1] of them, and the stream
    that is left; [None] at the end of the stream. *)
Fixpoint fgets_bytes (room : nat) (fd : list ascii) : list ascii :=
  match room, fd with
  | S room', c :: fd' => if ceqb c LF then [c] else c :: fgets_bytes room' fd'
  | _, _ => []
  end.

Definition fgets (size : nat) (fd : list ascii) : option (list ascii * list ascii) :=
  match fd with
  | [] => None
  | _ => let bytes := fgets_bytes (size - 1) fd in
         Some (bytes, drop (length bytes) fd)
  end.

(** The body of [while (fgets(line, 256, fd))] for the array [line] as
    [fgets] has filled it: the array as the body leaves it, and the
    memory. *)
Definition load_line (menus : MenuId -> Menu) (fuel : nat) (line : list ascii)
    (m : Memory) : traced (list ascii * Memory) :=
  '(line, tokens) ← lift (tokenize fuel line);
  m' ← match tokens with
       | None => mret m
       | Some (opt, arg) => load_option menus fuel opt arg m
       end;
  mret (line, m').

(** [while (fgets(line, 256, fd)) ...]; [line] is the array as the pass
    before left it. *)
Fixpoint load_lines (menus : MenuId -> Menu) (fuel : nat) (passes : nat)
    (line : list ascii) (fd : list ascii) (m : Memory) : traced Memory :=
  match passes with
  | O => lift (Trap OutOfFuel)
  | S passes' =>
      match fgets 256 fd with
      | None => mret m
      | Some (bytes, fd') =>
          '(line, m') ← load_line menus fuel (strcpy line 0 bytes) m;
          load_lines menus fuel passes' line fd' m'
      end
  end.

(** [ReGBA_LoadSettings]. [MAX_PATH] and [main_path] belong to the port;
    [files] gives the content of the file that [FILE_OPEN] opens, [None]
    when it cannot be opened; [line] is the array [line] as it is found. *)
Definition ReGBA_LoadSettings (menus : MenuId -> Menu) (fuel : nat) (MAX_PATH : Z)
    (main_path : list ascii)
    (files : list ascii -> option (list ascii)) (line : list ascii)
    (cfg_name : list ascii) (m : Memory) : traced Memory :=
  if MAX_PATH <? Z.of_nat (length main_path) + Z.of_nat (length cfg_name) + 5
  then _ ← ReGBA_Trace (str "E: Somehow you hit the filename size limit :o" ++ [LF]);
       mret m
  else
    let fname := main_path ++ str "/" ++ cfg_name ++ str ".cfg" in
    m' ← match files fname with
         | Some fd => load_lines menus fuel fuel line fd m
         | None =>
             _ ← ReGBA_Trace (str "W: Couldn't open file " ++ fname
                               ++ str " for loading." ++ [LF]);
             mret m
         end;
    mret (FixUpSettings m').

(** ** The menus of the source *)

(** The designated initialisers of the source, one function per shape of
    entry; the members that an initialiser leaves out are zero. *)
Definition display (position : Z) (name : string) (type : MenuDataType)
    (target : string) : MenuEntry :=
  mkMenuEntry KIND_DISPLAY (str name) None type position (T_Data target) 0
    None None None None None None None [].

Definition submenu (position : Z) (name : string) (target : MenuId) : MenuEntry :=
  mkMenuEntry KIND_SUBMENU (str name) None TYPE_STRING position (T_Menu target) 0
    None None None None None None None [].

Definition custom (position : Z) (name : string) (enter : MenuModifyFunction)
    : MenuEntry :=
  mkMenuEntry KIND_CUSTOM (str name) None TYPE_STRING position T_NULL 0
    (Some enter) None None None None None None [].

Definition choice (pretty persistent : string) : Choice :=
  mkChoice (str pretty) (str persistent).

Definition setting (position : Z) (name persistent : string) (target : Var)
    (count : Z) (choices : list Choice) : MenuEntry :=
  mkMenuEntry KIND_OPTION (str name) (Some (str persistent)) TYPE_STRING position
    (T_Var target) count None None None None None None None choices.

Definition menu (parent : option MenuId) (title : string)
    (entries : list (option MenuEntry)) : Menu :=
  mkMenu parent (str title) None None None None None None None None entries.

Definition mapping (position : Z) (name persistent : string) (target : Var)
    (enter : MenuModifyFunction) : MenuEntry :=
  mkMenuEntry KIND_OPTION (str name) (Some (str persistent)) TYPE_STRING position
    (T_Var target) 0 (Some enter) (Some F_NullLeftFunction) (Some F_NullRightFunction)
    None (Some F_DisplayButtonMappingValue)
    (Some F_LoadMappingFunction) (Some F_SaveMappingFunction) [].

Definition hotkey (position : Z) (name persistent : string) (target : Var) : MenuEntry :=
  mkMenuEntry KIND_OPTION (str name) (Some (str persistent)) TYPE_STRING position
    (T_Var target) 0 (Some F_ActionSetOrClearHotkey)
    (Some F_NullLeftFunction) (Some F_NullRightFunction)
    None (Some F_DisplayHotkeyValue)
    (Some F_LoadHotkeyFunction) (Some F_SaveHotkeyFunction) [].

(* -- Debug > Native code stats -- *)
Definition NativeCodeMenu_ROPeak := display 0 "Read-only bytes at peak" TYPE_UINT64
  "Stats.TranslationBytesPeak[TRANSLATION_REGION_READONLY]".
Definition NativeCodeMenu_RWPeak := display 1 "Writable bytes at peak" TYPE_UINT64
  "Stats.TranslationBytesPeak[TRANSLATION_REGION_WRITABLE]".
Definition NativeCodeMenu_ROFlushed := display 2 "Read-only bytes flushed" TYPE_UINT64
  "Stats.TranslationBytesFlushed[TRANSLATION_REGION_READONLY]".
Definition NativeCodeMenu_RWFlushed := display 3 "Writable bytes flushed" TYPE_UINT64
  "Stats.TranslationBytesFlushed[TRANSLATION_REGION_WRITABLE]".
Definition DebugMenu_NativeCode := submenu 0 "Native code statistics..." NativeCodeMenu.

(* -- Debug > Metadata stats -- *)
Definition MetadataMenu_ROFull := display 0 "Read-only area full" TYPE_UINT64
  "Stats.TranslationFlushCount[TRANSLATION_REGION_READONLY][FLUSH_REASON_FULL_CACHE]".
Definition MetadataMenu_RWFull := display 1 "Writable area full" TYPE_UINT64
  "Stats.TranslationFlushCount[TRANSLATION_REGION_WRITABLE][FLUSH_REASON_FULL_CACHE]".
Definition MetadataMenu_BIOSLastTag := display 2 "BIOS tags full" TYPE_UINT64
  "Stats.MetadataClearCount[METADATA_AREA_BIOS][CLEAR_REASON_LAST_TAG]".
Definition MetadataMenu_EWRAMLastTag := display 3 "EWRAM tags full" TYPE_UINT64
  "Stats.MetadataClearCount[METADATA_AREA_EWRAM][CLEAR_REASON_LAST_TAG]".
Definition MetadataMenu_IWRAMLastTag := display 4 "IWRAM tags full" TYPE_UINT64
  "Stats.MetadataClearCount[METADATA_AREA_IWRAM][CLEAR_REASON_LAST_TAG]".
Definition MetadataMenu_VRAMLastTag := display 5 "VRAM tags full" TYPE_UINT64
  "Stats.MetadataClearCount[METADATA_AREA_VRAM][CLEAR_REASON_LAST_TAG]".
Definition MetadataMenu_PartialClears := display 7 "Partial clears" TYPE_UINT64
  "Stats.PartialFlushCount".
Definition DebugMenu_Metadata := submenu 1 "Metadata clear statistics..." MetadataMenu.

(* -- Debug > Execution stats -- *)
Definition ExecutionMenu_SoundUnderruns := display 0 "Sound buffer underruns" TYPE_UINT64
  "Stats.SoundBufferUnderrunCount".
Definition ExecutionMenu_FramesEmulated := display 1 "Frames emulated" TYPE_UINT64
  "Stats.TotalEmulatedFrames".
Definition ExecutionMenu_ARMOps := display 2 "ARM opcodes decoded" TYPE_UINT64
  "Stats.ARMOpcodesDecoded".
Definition ExecutionMenu_ThumbOps := display 3 "Thumb opcodes decoded" TYPE_UINT64
  "Stats.ThumbOpcodesDecoded".
Definition ExecutionMenu_MemAccessors := display 4 "Memory accessors patched" TYPE_UINT32
  "Stats.WrongAddressLineCount".
Definition DebugMenu_Execution := submenu 2 "Execution statistics..." ExecutionMenu.

(* -- Debug > Code reuse stats -- *)
Definition ReuseMenu_OpsRecompiled := display 0 "Opcodes recompiled" TYPE_UINT64
  "Stats.OpcodeRecompilationCount".
Definition ReuseMenu_BlocksRecompiled := display 1 "Blocks recompiled" TYPE_UINT64
  "Stats.BlockRecompilationCount".
Definition ReuseMenu_OpsReused := display 2 "Opcodes reused" TYPE_UINT64
  "Stats.OpcodeReuseCount".
Definition ReuseMenu_BlocksReused := display 3 "Blocks reused" TYPE_UINT64
  "Stats.BlockReuseCount".
Definition DebugMenu_Reuse := submenu 3 "Code reuse statistics..." ReuseMenu.

Definition ROMInfoMenu_GameName := display 0 "game_name =" TYPE_STRING "gamepak_title".
Definition ROMInfoMenu_GameCode := display 1 "game_code =" TYPE_STRING "gamepak_code".
Definition ROMInfoMenu_VendorCode := display 2 "vender_code =" TYPE_STRING "gamepak_maker".
Definition DebugMenu_ROMInfo := submenu 5 "ROM information..." ROMInfoMenu.

(* -- Display Settings -- *)
Definition DisplayMenu_BootSource := setting 0 "Boot from" "boot_from" P_BootFromBIOS
  2 [ choice "Cartridge ROM" "cartridge"; choice "GBA BIOS" "gba_bios" ].
Definition DisplayMenu_FPSCounter := setting 1 "FPS counter" "fps_counter" P_ShowFPS
  2 [ choice "Hide" "hide"; choice "Show" "show" ].
Definition DisplayMenu_ScaleMode := setting 2 "Image scaling" "image_size" P_ScaleMode
  3 [ choice "Aspect" "aspect"; choice "Full" "fullscreen"; choice "None" "original" ].
Definition DisplayMenu_Frameskip := setting 3 "Frame skipping" "frameskip" P_UserFrameskip
  5 [ choice "Automatic" "auto"; choice "0 (~60 FPS)" "0"; choice "1 (~30 FPS)" "1";
      choice "2 (~20 FPS)" "2"; choice "3 (~15 FPS)" "3" ].
Definition DisplayMenu_FastForwardTarget :=
  setting 4 "Fast-forward target" "fast_forward_target" P_FastForwardTarget
  5 [ choice "2x (~120 FPS)" "2"; choice "3x (~180 FPS)" "3"; choice "4x (~240 FPS)" "4";
      choice "5x (~300 FPS)" "5"; choice "6x (~360 FPS)" "6" ].

(* -- Button remapping -- *)
Definition ButtonMappingMenu_A :=
  mapping 0 "GBA A" "gba_a" (P_KeypadRemapping 0) F_ActionSetMapping.
Definition ButtonMappingMenu_B :=
  mapping 1 "GBA B" "gba_b" (P_KeypadRemapping 1) F_ActionSetMapping.
Definition ButtonMappingMenu_Start :=
  mapping 2 "GBA Start" "gba_start" (P_KeypadRemapping 3) F_ActionSetMapping.
Definition ButtonMappingMenu_Select :=
  mapping 3 "GBA Select" "gba_select" (P_KeypadRemapping 2) F_ActionSetMapping.
Definition ButtonMappingMenu_L :=
  mapping 4 "GBA L" "gba_l" (P_KeypadRemapping 9) F_ActionSetMapping.
Definition ButtonMappingMenu_R :=
  mapping 5 "GBA R" "gba_r" (P_KeypadRemapping 8) F_ActionSetMapping.
Definition ButtonMappingMenu_RapidA :=
  mapping 6 "Rapid-fire A" "rapid_a" (P_KeypadRemapping 10) F_ActionSetOrClearMapping.
Definition ButtonMappingMenu_RapidB :=
  mapping 7 "Rapid-fire B" "rapid_b" (P_KeypadRemapping 11) F_ActionSetOrClearMapping.
Definition ButtonMappingMenu_AnalogSensitivity :=
  setting 9 "Analog sensitivity" "analog_sensitivity" P_AnalogSensitivity
  5 [ choice "Very low" "lowest"; choice "Low" "low"; choice "Medium" "medium";
      choice "High" "high"; choice "Highest" "highest" ].

(* -- Hotkeys -- *)
Definition HotkeyMenu_FastForward :=
  hotkey 0 "Fast-forward" "hotkey_fast_forward" (P_Hotkeys 0).

(* -- Main Menu -- *)
Definition MainMenu_Display := submenu 0 "Display settings..." DisplayMenu.
Definition MainMenu_ButtonMapping := submenu 1 "Input settings..." ButtonMappingMenu.
Definition MainMenu_Hotkey := submenu 2 "Hotkeys..." HotkeyMenu.
Definition MainMenu_Debug := submenu 7 "Performance and debugging..." DebugMenu.
Definition MainMenu_Reset := custom 9 "Reset the game" F_ActionReset.
Definition MainMenu_Return := custom 10 "Return to the game" F_ActionReturn.
Definition MainMenu_Exit := custom 11 "Exit" F_ActionExit.

(** [#ifdef flag ... #endif] inside an initialiser list. *)
Definition ifdef {A} (flag : bool) (l : list A) : list A := if flag then l else [].

(** The [struct Menu] objects, for either setting of the two build
    switches. [DisplayMenu] is the one whose [Entries] are not ended by a
    NULL. *)
Definition static_menus (GCW_ZERO PERFORMANCE_IMPACTING_STATISTICS : bool)
    (id : MenuId) : Menu :=
  match id with
  | NativeCodeMenu =>
      menu (Some DebugMenu) "Native code statistics"
        [ Some NativeCodeMenu_ROPeak; Some NativeCodeMenu_RWPeak;
          Some NativeCodeMenu_ROFlushed; Some NativeCodeMenu_RWFlushed; None ]
  | MetadataMenu =>
      menu (Some DebugMenu) "Metadata clear statistics"
        [ Some MetadataMenu_ROFull; Some MetadataMenu_RWFull;
          Some MetadataMenu_BIOSLastTag; Some MetadataMenu_EWRAMLastTag;
          Some MetadataMenu_IWRAMLastTag; Some MetadataMenu_VRAMLastTag;
          Some MetadataMenu_PartialClears; None ]
  | ExecutionMenu =>
      menu (Some DebugMenu) "Execution statistics"
        ([ Some ExecutionMenu_SoundUnderruns; Some ExecutionMenu_FramesEmulated ]
         ++ ifdef PERFORMANCE_IMPACTING_STATISTICS
              [ Some ExecutionMenu_ARMOps; Some ExecutionMenu_ThumbOps;
                Some ExecutionMenu_MemAccessors ]
         ++ [ None ])
  | ReuseMenu =>
      menu (Some DebugMenu) "Code reuse statistics"
        [ Some ReuseMenu_OpsRecompiled; Some ReuseMenu_BlocksRecompiled;
          Some ReuseMenu_OpsReused; Some ReuseMenu_BlocksReused; None ]
  | ROMInfoMenu =>
      menu (Some DebugMenu) "ROM information"
        [ Some ROMInfoMenu_GameName; Some ROMInfoMenu_GameCode;
          Some ROMInfoMenu_VendorCode; None ]
  | DebugMenu =>
      menu (Some MainMenu) "Performance and debugging"
        ([ Some DebugMenu_NativeCode; Some DebugMenu_Metadata; Some DebugMenu_Execution ]
         ++ ifdef PERFORMANCE_IMPACTING_STATISTICS [ Some DebugMenu_Reuse ]
         ++ [ Some DebugMenu_ROMInfo; None ])
  | DisplayMenu =>
      menu (Some MainMenu) "Display settings"
        [ Some DisplayMenu_BootSource; Some DisplayMenu_FPSCounter;
          Some DisplayMenu_ScaleMode; Some DisplayMenu_Frameskip;
          Some DisplayMenu_FastForwardTarget ]
  | ButtonMappingMenu =>
      menu (Some MainMenu) "Input settings"
        ([ Some ButtonMappingMenu_A; Some ButtonMappingMenu_B;
           Some ButtonMappingMenu_Start; Some ButtonMappingMenu_Select;
           Some ButtonMappingMenu_L; Some ButtonMappingMenu_R;
           Some ButtonMappingMenu_RapidA; Some ButtonMappingMenu_RapidB ]
         ++ ifdef GCW_ZERO [ Some ButtonMappingMenu_AnalogSensitivity ]
         ++ [ None ])
  | HotkeyMenu =>
      menu (Some MainMenu) "Hotkeys" [ Some HotkeyMenu_FastForward; None ]
  | MainMenu =>
      menu None "ReGBA Main Menu"
        [ Some MainMenu_Display; Some MainMenu_ButtonMapping; Some MainMenu_Hotkey;
          Some MainMenu_Debug; Some MainMenu_Reset; Some MainMenu_Return;
          Some MainMenu_Exit; None ]
  end.

(** The same menus with the entries of each ended by one more NULL. *)
Definition with_sentinels (menus : MenuId -> Menu) (id : MenuId) : Menu :=
  let m := menus id in
  mkMenu (Parent m) (Title m) (DisplayBackgroundFunction m) (DisplayTitleFunction m)
    (DisplayDataFunction m) (ButtonUpFunction m) (ButtonDownFunction m)
    (ButtonLeaveFunction m) (InitFunction m) (EndFunction m) (Entries m ++ [None]).

(** ** The decimal representation of an integer

    What the formatters are meant to produce, stated without reference to
    them: an optional minus sign, exactly when the value is negative,
    followed by the digits of its magnitude, most significant first, with
    no leading zero unless the magnitude is zero and its only digit is 0. *)

Definition is_digit (c : ascii) : Prop := char_code "0" <= char_code c <= char_code "9".

Definition digit_value (c : ascii) : Z := char_code c - char_code "0".

Definition digits_value (ds : list ascii) : Z :=
  fold_left (fun acc c => 10 * acc + digit_value c) ds 0.

Definition decimal_of (v : Z) (text : list ascii) : Prop :=
  exists ds,
    text = (if v <? 0 then ["-"%char] else []) ++ ds
    /\ ds <> []
    /\ Forall is_digit ds
    /\ (hd NUL ds = "0"%char -> ds = ["0"%char])
    /\ digits_value ds = Z.abs v.

(** The digits of a positive number, the leftmost first; none for zero. *)
Equations? digits_of (v : Z) : list ascii by wf (bit_size v) lt :=
  digits_of v :=
    if decide (0 < v)
    then digits_of (v / 10) ++ [char_of (char_code "0" + v mod 10)]
    else [].
Proof. by apply bit_size_div10. Qed.

(** ** Button sets

    A button set is a bitmask: button [k] is in the set when bit [k] is
    set. The notions below are stated on the bits, without reference to
    the code. *)

Definition button (k : Z) : Z := Z.shiftl 1 k.

Definition subset (T S : Z) : Prop :=
  forall k, 0 <= k -> Z.testbit T k = true -> Z.testbit S k = true.

(** The merge rule of the hotkey capture: what the running total [T]
    becomes when the set [S] is sampled. *)
Definition merge_rule (T S T' : Z) : Prop :=
  (subset T S -> T' = S)
  /\ (~ subset T S -> subset S T -> T' = T)
  /\ (~ subset T S -> ~ subset S T -> T' = S).

(** A set with exactly one button. *)
Definition single_button (S : Z) : Prop := exists k, 0 <= k /\ S = button k.

(** The samples of one capture: the buttons that started the action are
    still [held], then nothing is pressed for [idle + 1] samples, then the
    gesture [first :: later] is sampled, every sample of it non-empty,
    then nothing is pressed; [tail] is what is sampled afterwards. *)
Definition gesture (held : list Z) (idle : nat) (first : Z) (later tail : list Z)
    : list Z :=
  held ++ 0 :: replicate idle 0 ++ first :: later ++ 0 :: tail.

(** The slots of [KeypadRemapping] that [FixUpSettings] looks at. *)
Definition checked_slots : list nat := [0; 1; 2; 3; 4; 5; 6; 7; 8; 9; 12]%nat.

(** ** Well-formed configuration lines

    A character that can be part of an option name, and one that can be
    part of an option argument without being cut off it: the first is not
    a NUL, a blank, an equals sign or a hash; the second is not a NUL, a
    hash, a blank or a line end. *)
Definition name_char (c : ascii) : bool :=
  negb (ceqb c NUL) && negb (is_blank c || ceqb c "=") && negb (ceqb c "#").

Definition token_char (c : ascii) : bool :=
  negb (ceqb c NUL) && negb (ceqb c "#")
  && negb (is_blank c || ceqb c LF || ceqb c CR).

Definition plain_name (name : list ascii) : bool :=
  negb (bool_decide (name = [])) && forallb name_char name.

Definition plain_token (tok : list ascii) : bool :=
  negb (bool_decide (tok = [])) && forallb token_char tok.

(** The indices met while a function is applied [n] times, the starting
    one first and the one reached by the last application left out. *)
Definition visited (step : Memory -> Memory) (e : MenuEntry) (m : Memory) (n : nat)
    : list Z :=
  (fun k => read_target e (Nat.iter k step m)) <$> seq 0 n.

(** The digits that [print_u64] stores for a value. *)
Definition unsigned_digits (v : Z) : list ascii :=
  if v =? 0 then ["0"%char] else digits_of v.

(** What [opt] or [arg] holds after a scan over [l] that started at
    [start]. *)
Definition first_seen (seen : option Z) (start : Z) (l : list ascii) : option Z :=
  match seen, l with
  | Some _, _ => seen
  | None, [] => None
  | None, _ :: _ => Some start
  end.

(** ** The option entries of the menus *)

Definition all_menus : list MenuId :=
  [ MainMenu; DebugMenu; NativeCodeMenu; MetadataMenu; ExecutionMenu;
    ReuseMenu; ROMInfoMenu; DisplayMenu; ButtonMappingMenu; HotkeyMenu ].

Definition is_option (e : MenuEntry) : bool :=
  match Kind e with KIND_OPTION => true | _ => false end.

Definition option_entries (menus : MenuId -> Menu) : list MenuEntry :=
  List.filter is_option
    (flat_map (fun id => omap (fun p => p) (Entries (menus id))) all_menus).

(** The values that the target of an option entry is meant to hold: an
    index into the choices; for a mapping nothing or one of the 16
    buttons; for a hotkey any set of the 16 buttons. *)
Definition well_formed_value (e : MenuEntry) (v : Z) : Prop :=
  match or_default (SaveFunction e) F_DefaultSaveFunction with
  | F_DefaultSaveFunction => 0 <= v < ChoiceCount e
  | F_SaveMappingFunction => v = 0 \/ exists k, 0 <= k < 16 /\ v = button k
  | F_SaveHotkeyFunction => 0 <= v < 2 ^ 16
  end.

(** Exactly one of the 16 low bits is set. *)
Definition one_button_of_16 (v : Z) : Prop :=
  exists k, 0 <= k < 16 /\ forall j, 0 <= j < 16 -> Z.testbit v j = (k =? j).

(** The index of the first choice whose token is [tok] but for case,
    counting from [i]. *)
Fixpoint find_token (choices : list Choice) (tok : list ascii) (i : Z) : option Z :=
  match choices with
  | [] => None
  | c :: choices' =>
      if strcasecmp_eq (Persistent c) tok then Some i
      else find_token choices' tok (i + 1)
  end.

(** Every choice is found back by its own token, each token is plain, and
    the line written for it, up to its hash, fits the 255 bytes that
    [snprintf] keeps. *)
Definition codable (name : list ascii) (choices : list Choice) : bool :=
  forallb (fun '(i, c) =>
             bool_decide (find_token choices (Persistent c) 0 = Some (Z.of_nat i))
             && plain_token (Persistent c)
             && (length name + length (Persistent c) + 5 <=? 255)%nat)
    (imap (fun i c => (i, c)) choices).

(** An option entry whose save and load functions belong together, whose
    persistent name is plain and short, and, with the default functions,
    whose [ChoiceCount] is the number of its choices and whose choices are
    codable. *)
Definition well_coded (e : MenuEntry) : bool :=
  match PersistentName e, SaveFunction e, LoadFunction e with
  | Some name, None, None =>
      plain_name name && codable name (Choices e)
      && (ChoiceCount e =? Z.of_nat (length (Choices e)))
  | Some name, Some F_SaveMappingFunction, Some F_LoadMappingFunction
  | Some name, Some F_SaveHotkeyFunction, Some F_LoadHotkeyFunction =>
      plain_name name && (length name <=? 230)%nat
  | _, _, _ => false
  end.

(** ** Notions for the further properties *)

(** Texts joined by a plus sign. *)
Fixpoint join_plus (names : list (list ascii)) : list ascii :=
  match names with
  | [] => []
  | [x] => x
  | x :: rest => x ++ "+"%char :: join_plus rest
  end.

(** The buttons of a set, by rising number. *)
Definition buttons_in (Buttons : Z) : list Z :=
  filter (fun i => Z.testbit Buttons i = true) (seqZ 0 16).

(** The bytes that the names of the buttons [i .. i+n-1] take when each
    is followed by one more byte. *)
Fixpoint text_room (n : nat) (i : Z) : nat :=
  match n with
  | O => 0%nat
  | S n' => (length (ButtonText i) + 1 + text_room n' (i + 1))%nat
  end.

(** The entries of a menu: those that [Entries] lists before its first
    NULL. *)
Fixpoint listed (l : list (option MenuEntry)) : list MenuEntry :=
  match l with
  | Some e :: l' => e :: listed l'
  | _ => []
  end.

(** The active entry index of every menu is the index of one of its
    entries. *)
Definition indices_valid (menus : MenuId -> Menu) (index : MenuId -> Z) : Prop :=
  forall menu, 0 <= index menu < Z.of_nat (length (listed (Entries (menus menu)))).

(** Every submenu entry points to a menu whose parent is the menu that
    lists the entry. *)
Definition parents_agree (menus : MenuId -> Menu) : bool :=
  forallb (fun menu =>
             forallb (fun e =>
                        match Kind e, Target e with
                        | KIND_SUBMENU, T_Menu sub =>
                            bool_decide (Parent (menus sub) = Some menu)
                        | KIND_SUBMENU, _ => false
                        | _, _ => true
                        end)
               (omap (fun p => p) (Entries (menus menu))))
    all_menus.

(** No menu has functions of its own, no entry has [DefaultUpFunction] or
    [DefaultDownFunction] as its enter function, and every menu has an
    entry. *)
Definition plain_menus (menus : MenuId -> Menu) : bool :=
  forallb (fun id =>
             let menu := menus id in
             bool_decide (DisplayBackgroundFunction menu = None)
             && bool_decide (DisplayTitleFunction menu = None)
             && bool_decide (DisplayDataFunction menu = None)
             && bool_decide (ButtonUpFunction menu = None)
             && bool_decide (ButtonDownFunction menu = None)
             && bool_decide (ButtonLeaveFunction menu = None)
             && bool_decide (InitFunction menu = None)
             && bool_decide (EndFunction menu = None)
             && negb (bool_decide (listed (Entries menu) = []))
             && (Z.of_nat (length (Entries menu)) <? 2 ^ 32)
             && forallb (fun e =>
                           match ButtonEnterFunction e with
                           | Some F_DefaultUpFunction | Some F_DefaultDownFunction => false
                           | _ => true
                           end)
                  (omap (fun p => p) (Entries menu)))
    all_menus.

(** The option entries that a walk from a menu meets, in the order in
    which it meets them: the walk of [Menu_SaveIterateRecurse] and of
    [Menu_FindByPersistentName], without what they do at an option
    entry. *)
Fixpoint options_in_order (menus : MenuId -> Menu) (depth : nat) (menu : MenuId)
    : outcome (list MenuEntry) :=
  match depth with
  | O => Trap OutOfFuel
  | S depth' =>
      (fix walk (rest : list (option MenuEntry)) : outcome (list MenuEntry) :=
         match rest with
         | [] => Trap ReadPastEnd
         | None :: _ => Done []
         | Some cur :: rest' =>
             met ← match Kind cur with
                   | KIND_SUBMENU =>
                       match Target cur with
                       | T_Menu sub => options_in_order menus depth' sub
                       | _ => Trap NullDereference
                       end
                   | KIND_OPTION => Done [cur]
                   | _ => Done []
                   end;
             met' ← walk rest';
             Done (met ++ met')
         end) (Entries (menus menu))
  end.

(** The persistent name of an entry is the given one, letter case
    apart. *)
Definition named (name : list ascii) (e : MenuEntry) : bool :=
  match PersistentName e with
  | Some persistent => strcasecmp_eq persistent name
  | None => false
  end.

(** What [Menu_SaveOption] writes for the entries of a list, one after
    the other. *)
Fixpoint save_all (es : list MenuEntry) (m : Memory) : outcome (list ascii) :=
  match es with
  | [] => Done []
  | e :: es' =>
      out ← Menu_SaveOption e m;
      out' ← save_all es' m;
      Done (out ++ out')
  end.

(** The option entries of the source in the order of their menus from the
    main menu on. *)
Definition settings_in_order (GCW_ZERO : bool) : list MenuEntry :=
  [ DisplayMenu_BootSource; DisplayMenu_FPSCounter; DisplayMenu_ScaleMode;
    DisplayMenu_Frameskip; DisplayMenu_FastForwardTarget;
    ButtonMappingMenu_A; ButtonMappingMenu_B; ButtonMappingMenu_Start;
    ButtonMappingMenu_Select; ButtonMappingMenu_L; ButtonMappingMenu_R;
    ButtonMappingMenu_RapidA; ButtonMappingMenu_RapidB ]
  ++ ifdef GCW_ZERO [ ButtonMappingMenu_AnalogSensitivity ]
  ++ [ HotkeyMenu_FastForward ].

(** No two entries of a list have the same persistent name, letter case
    apart. *)
Fixpoint names_apart (es : list MenuEntry) : bool :=
  match es with
  | [] => true
  | e :: es' =>
      forallb (fun e' => match PersistentName e with
                         | Some name => negb (named name e')
                         | None => true
                         end) es'
      && names_apart es'
  end.

(** A hash ends the run of name characters that the text starts with. *)
Fixpoint hash_ends_name (l : list ascii) : bool :=
  match l with
  | [] => false
  | c :: l' => ceqb c "#" || (name_char c && hash_ends_name l')
  end.

(** A hash ends the option name of the line, be the name empty or not:
    after the blanks that the line starts with come name characters, none
    or more, and then a hash. *)
Fixpoint comment_start (l : list ascii) : bool :=
  match l with
  | [] => false
  | c :: l' => if is_blank c then comment_start l' else hash_ends_name l
  end.

(** A character at which the loop over the option name ends: a NUL, a
    blank or an equals sign. *)
Definition name_stop (c : ascii) : Prop :=
  negb (ceqb c NUL) && negb (is_blank c || ceqb c "=") = false.

(** A text without a NUL and without a line feed. *)
Definition clean (text : list ascii) : bool :=
  forallb (fun c => negb (ceqb c NUL) && negb (ceqb c LF)) text.

(** An option entry whose persistent name and choices are clean texts,
    short enough for the line written for it to fit the 255 bytes that
    [snprintf] keeps. *)
Definition tidy (e : MenuEntry) : bool :=
  match PersistentName e, SaveFunction e with
  | Some name, None =>
      clean name
      && forallb (fun c => clean (Persistent c) && clean (Pretty c)
                           && (length name + length (Persistent c)
                               + length (Pretty c) + 6 <=? 255)%nat)
           (Choices e)
  | Some name, Some _ => clean name && (length name <=? 30)%nat
  | None, _ => false
  end.

(** The settings [m0] after each entry of a list has been given the
    value that it has in the settings [m]. *)
Definition restored (es : list MenuEntry) (m m0 : Memory) : Memory :=
  fold_left (fun acc e => write_target e (read_target e m) acc) es m0.

#[global] Instance Var_eq_dec : EqDecision Var.
Proof. solve_decision. Defined.

(** The variable that an entry points to. *)
Definition target_var (e : MenuEntry) : option Var :=
  match Target e with
  | T_Var v => Some v
  | _ => None
  end.

(** A character that the loop after the option argument cuts off: a
    blank, a line feed or a carriage return. *)
Definition strippable (c : ascii) : bool := is_blank c || ceqb c LF || ceqb c CR.

(** The text of an option argument as the tokenizer returns it: not
    empty, without NUL and hash, not starting with a blank and not ending
    with a character that is cut off. Blanks inside are allowed. *)
Definition value_text (value : list ascii) : bool :=
  negb (bool_decide (value = []))
  && forallb (fun c => negb (ceqb c NUL) && negb (ceqb c "#")) value
  && negb (is_blank (hd NUL value))
  && negb (strippable (List.last value NUL)).

(* ================================================================== *)
(** * Part II: properties *)
(* ================================================================== *)

(** ** Memory *)

Lemma load32_store32 m v x : allocated m v -> load32 (store32 v x m) v = x.
Proof.
  destruct v; simpl; intros Hv; try reflexivity.
  - rewrite nth_lookup, list_lookup_insert_eq by done. reflexivity.
  - rewrite nth_lookup, list_lookup_insert_eq by done. reflexivity.
Qed.

Lemma allocated_store32 m v w x : allocated m v -> allocated (store32 w x m) v.
Proof.
  destruct v, w; simpl; try done; intros Hv; by rewrite length_insert.
Qed.

Lemma read_write_target e v x m :
  Target e = T_Var v -> allocated m v -> read_target e (write_target e x m) = x.
Proof.
  intros He Hv. unfold read_target, write_target. rewrite He.
  by apply load32_store32.
Qed.

Lemma allocated_write_target e v w x m :
  Target e = T_Var w -> allocated m v -> allocated (write_target e x m) v.
Proof.
  intros He Hv. unfold write_target. rewrite He. by apply allocated_store32.
Qed.

(** ** Option cycling (C8) *)

Section Cycling.

Variable e : MenuEntry.
Variable v : Var.
Hypothesis e_option : Kind e = KIND_OPTION.
Hypothesis e_target : Target e = T_Var v.
Hypothesis e_count : 0 < ChoiceCount e < 2 ^ 32.

Local Abbreviation C := (ChoiceCount e).

Lemma DefaultRightFunction_step m :
  allocated m v -> 0 <= read_target e m < C ->
  read_target e (DefaultRightFunction e m) = (read_target e m + 1) mod C
  /\ allocated (DefaultRightFunction e m) v.
Proof.
  intros Hv Hi. unfold DefaultRightFunction. rewrite e_option.
  assert (Hu : u32 (read_target e m + 1) = read_target e m + 1).
  { unfold u32. apply Z.mod_small. lia. }
  rewrite Hu.
  destruct (Z.leb_spec C (read_target e m + 1)) as [Hle | Hlt].
  - split; [| by eapply allocated_write_target].
    erewrite read_write_target by eauto.
    assert (read_target e m + 1 = C) as -> by lia.
    by rewrite Z.mod_same by lia.
  - split; [| by eapply allocated_write_target].
    erewrite read_write_target by eauto.
    by rewrite Z.mod_small by lia.
Qed.

Lemma DefaultLeftFunction_step m :
  allocated m v -> 0 <= read_target e m < C ->
  read_target e (DefaultLeftFunction e m) = (read_target e m - 1) mod C
  /\ allocated (DefaultLeftFunction e m) v.
Proof.
  intros Hv Hi. unfold DefaultLeftFunction. rewrite e_option.
  split; [| by eapply allocated_write_target].
  erewrite read_write_target by eauto.
  destruct (Z.eqb_spec (read_target e m) 0) as [H0 | Hn0].
  - rewrite H0. unfold u32. rewrite (Z.mod_small (C - 1)) by lia.
    replace (0 - 1) with (-1 * C + (C - 1)) by lia.
    rewrite Z.add_comm, Z.mod_add by lia.
    by rewrite Z.mod_small by lia.
  - unfold u32. rewrite !Z.mod_small by lia. reflexivity.
Qed.

Lemma DefaultRightFunction_iter m (k : nat) :
  allocated m v -> 0 <= read_target e m < C ->
  read_target e (Nat.iter k (DefaultRightFunction e) m)
    = (read_target e m + Z.of_nat k) mod C
  /\ allocated (Nat.iter k (DefaultRightFunction e) m) v.
Proof.
  intros Hv Hi. induction k as [| k [IHr IHa]].
  - simpl. split; [| done]. rewrite Z.add_0_r. by rewrite Z.mod_small by lia.
  - rewrite Nat.iter_succ.
    destruct (DefaultRightFunction_step (Nat.iter k (DefaultRightFunction e) m))
      as [Hs Ha]; [done | rewrite IHr; apply Z.mod_pos_bound; lia |].
    split; [| done].
    rewrite Hs, IHr, Zplus_mod_idemp_l. f_equal. lia.
Qed.

Lemma DefaultLeftFunction_iter m (k : nat) :
  allocated m v -> 0 <= read_target e m < C ->
  read_target e (Nat.iter k (DefaultLeftFunction e) m)
    = (read_target e m - Z.of_nat k) mod C
  /\ allocated (Nat.iter k (DefaultLeftFunction e) m) v.
Proof.
  intros Hv Hi. induction k as [| k [IHr IHa]].
  - simpl. split; [| done]. rewrite Z.sub_0_r. by rewrite Z.mod_small by lia.
  - rewrite Nat.iter_succ.
    destruct (DefaultLeftFunction_step (Nat.iter k (DefaultLeftFunction e) m))
      as [Hs Ha]; [done | rewrite IHr; apply Z.mod_pos_bound; lia |].
    split; [| done].
    rewrite Hs, IHr, Zminus_mod_idemp_l. f_equal. lia.
Qed.

End Cycling.

(** A walk by a fixed stride that is invertible modulo [c] meets every
    residue once. *)
Lemma rotation_permutation (c i : Z) (sign : Z) :
  0 < c -> (sign = 1 \/ sign = -1) ->
  ((fun k : nat => (i + sign * Z.of_nat k) mod c) <$> seq 0 (Z.to_nat c)) ≡ₚ seqZ 0 c.
Proof.
  intros Hc Hs. apply NoDup_Permutation.
  - apply NoDup_fmap_2_strong; [| apply NoDup_seq].
    intros a b Ha Hb Hab.
    apply elem_of_seq in Ha, Hb.
    assert (Hd : (sign * (Z.of_nat a - Z.of_nat b)) mod c = 0).
    { replace (sign * (Z.of_nat a - Z.of_nat b))
        with ((i + sign * Z.of_nat a) - (i + sign * Z.of_nat b)) by lia.
      rewrite Zminus_mod, Hab, Z.sub_diag. by apply Z.mod_0_l; lia. }
    apply Z.mod_divide in Hd; [| lia].
    destruct Hd as [q Hq].
    assert (q = 0) by nia. nia.
  - apply NoDup_seqZ.
  - intros x. rewrite elem_of_seqZ, list_elem_of_fmap. split.
    + intros (k & -> & _). pose proof (Z.mod_pos_bound (i + sign * Z.of_nat k) c). lia.
    + intros Hx.
      exists (Z.to_nat ((sign * (x - i)) mod c)).
      pose proof (Z.mod_pos_bound (sign * (x - i)) c Hc) as Hb.
      split; [| apply elem_of_seq; lia].
      rewrite Z2Nat.id by lia.
      rewrite <- Zplus_mod_idemp_r, Zmult_mod_idemp_r, Zplus_mod_idemp_r.
      replace (i + sign * (sign * (x - i))) with x by (destruct Hs; subst; lia).
      by rewrite Z.mod_small by lia.
Qed.

(** C8. For an option entry with [C] choices whose index is in [0, C),
    one default on-right moves the index to its successor modulo [C] and
    one default on-left to its predecessor modulo [C]; [C] of either in a
    row bring the index back to where it started; and the [C] indices met
    on the way are the indices [0 .. C-1], each once. *)
Theorem option_cycling (e : MenuEntry) (v : Var) (m : Memory) :
  Kind e = KIND_OPTION -> Target e = T_Var v -> allocated m v ->
  0 < ChoiceCount e < 2 ^ 32 ->
  0 <= read_target e m < ChoiceCount e ->
  let C := ChoiceCount e in
  let n := Z.to_nat C in
  read_target e (DefaultRightFunction e m) = (read_target e m + 1) mod C
  /\ read_target e (DefaultLeftFunction e m) = (read_target e m - 1) mod C
  /\ read_target e (Nat.iter n (DefaultRightFunction e) m) = read_target e m
  /\ read_target e (Nat.iter n (DefaultLeftFunction e) m) = read_target e m
  /\ visited (DefaultRightFunction e) e m n ≡ₚ seqZ 0 C
  /\ visited (DefaultLeftFunction e) e m n ≡ₚ seqZ 0 C.
Proof.
  intros Hk Ht Hv Hc Hi C n.
  split; [by eapply DefaultRightFunction_step |].
  split; [by eapply DefaultLeftFunction_step |].
  split; [| split; [| split]].
  - destruct (DefaultRightFunction_iter e v Hk Ht Hc m n Hv Hi) as [-> _].
    subst n C. rewrite Z2Nat.id by lia.
    rewrite <- (Z.mul_1_l (ChoiceCount e)) at 1.
    rewrite Z.mod_add by lia. apply Z.mod_small; lia.
  - destruct (DefaultLeftFunction_iter e v Hk Ht Hc m n Hv Hi) as [-> _].
    subst n C. rewrite Z2Nat.id by lia.
    replace (read_target e m - ChoiceCount e)
      with (read_target e m + (-1) * ChoiceCount e) by lia.
    rewrite Z.mod_add by lia. apply Z.mod_small; lia.
  - rewrite <- (rotation_permutation C (read_target e m) 1) by (subst C; lia).
    unfold visited.
    erewrite list_fmap_ext; [reflexivity |].
    intros k x _. simpl.
    destruct (DefaultRightFunction_iter e v Hk Ht Hc m x Hv Hi) as [-> _].
    f_equal; lia.
  - rewrite <- (rotation_permutation C (read_target e m) (-1)) by (subst C; lia).
    unfold visited.
    erewrite list_fmap_ext; [reflexivity |].
    intros k x _. simpl.
    destruct (DefaultLeftFunction_iter e v Hk Ht Hc m x Hv Hi) as [-> _].
    f_equal; lia.
Qed.

(** ** The decimal formatters (C9) *)

Lemma char_of_digit d :
  0 <= d <= 9 ->
  is_digit (char_of (char_code "0" + d))
  /\ digit_value (char_of (char_code "0" + d)) = d
  /\ char_of (char_code "0" + d) <> NUL
  /\ (char_of (char_code "0" + d) = "0"%char -> d = 0).
Proof.
  intros Hd.
  assert (Hcases : d = 0 \/ d = 1 \/ d = 2 \/ d = 3 \/ d = 4 \/ d = 5
                   \/ d = 6 \/ d = 7 \/ d = 8 \/ d = 9) by lia.
  destruct Hcases as [-> | [-> | [-> | [-> | [-> | [-> | [-> | [-> | [-> | ->]]]]]]]]];
    (split; [by vm_compute | split; [reflexivity | split; [discriminate |]]]);
    intros H; first [reflexivity | discriminate H].
Qed.

Lemma digits_value_app ds c :
  digits_value (ds ++ [c]) = 10 * digits_value ds + digit_value c.
Proof. unfold digits_value. by rewrite fold_left_app. Qed.

Lemma digits_of_pos v : 0 < v -> digits_of v <> [].
Proof.
  intros Hv. rewrite digits_of_equation_1.
  destruct (decide (0 < v)); [| lia]. by destruct (digits_of (v / 10)).
Qed.

Lemma digits_of_spec v :
  0 <= v ->
  Forall is_digit (digits_of v)
  /\ digits_value (digits_of v) = v
  /\ Forall (fun c => c <> NUL) (digits_of v)
  /\ (0 < v -> hd NUL (digits_of v) <> "0"%char).
Proof.
  funelim (digits_of v). intros Hv.
  destruct (decide (0 < v)) as [Hpos | Hzero].
  - assert (Hq : 0 <= v / 10) by (apply Z.div_pos; lia).
    assert (Hr : 0 <= v mod 10 <= 9) by (pose proof (Z.mod_pos_bound v 10); lia).
    destruct (H Hpos Hq) as (IHd & IHv & IHn & IHh).
    destruct (char_of_digit (v mod 10) Hr) as (Cd & Cv & Cn & Cz).
    split; [| split; [| split]].
    + apply Forall_app. split; [done | by constructor].
    + rewrite digits_value_app, IHv, Cv.
      pose proof (Z.div_mod v 10). lia.
    + apply Forall_app. split; [done | by constructor].
    + intros _. destruct (decide (0 < v / 10)) as [Hq' | Hq'].
      * pose proof (digits_of_pos _ Hq') as Hne.
        destruct (digits_of (v / 10)) as [| c cs]; [done |]. by apply IHh.
      * assert (v / 10 = 0) as Hq0 by lia. rewrite Hq0 in *.
        rewrite digits_of_equation_1. simpl.
        intros Hc. apply Cz in Hc.
        pose proof (Z.div_mod v 10). lia.
  - assert (v = 0) by lia. subst v. repeat split; try constructor. lia.
Qed.

Lemma digits_of_length (n : nat) v :
  0 <= v < 10 ^ Z.of_nat n -> (length (digits_of v) <= n)%nat.
Proof.
  revert v. induction n as [| n IH]; intros v Hv.
  - assert (v = 0) as -> by (simpl in Hv; lia).
    rewrite digits_of_equation_1. simpl. lia.
  - rewrite digits_of_equation_1. destruct (decide (0 < v)); [| simpl; lia].
    rewrite length_app. simpl.
    assert (v / 10 < 10 ^ Z.of_nat n).
    { apply Z.div_lt_upper_bound; [lia |].
      rewrite Nat2Z.inj_succ, Z.pow_succ_r in Hv by lia. lia. }
    assert (0 <= v / 10) by (apply Z.div_pos; lia).
    specialize (IH (v / 10)). lia.
Qed.

Lemma count_digits_length v len :
  count_digits v len = len + Z.of_nat (length (digits_of v)).
Proof.
  funelim (count_digits v len).
  rewrite (digits_of_equation_1 Temp).
  destruct (decide (0 < Temp)) as [Hpos | Hzero].
  - rewrite H by done. rewrite length_app. simpl. lia.
  - simpl. lia.
Qed.

Lemma write_digits_spec buf base v len :
  0 <= base -> len = Z.of_nat (length (digits_of v)) ->
  (Z.to_nat (base + len) <= length buf)%nat ->
  write_digits buf base v len
    = take (Z.to_nat base) buf ++ digits_of v ++ drop (Z.to_nat (base + len)) buf.
Proof.
  funelim (write_digits buf base v len). intros Hbase Hlen Hfit.
  rename Value into v, Length into len.
  rewrite (digits_of_equation_1 v) in *.
  destruct (decide (0 < v)) as [Hpos | Hzero].
  - rewrite length_app in Hlen. simpl in Hlen.
    set (c := char_of (char_code "0" + v mod 10)) in *.
    rewrite H; [| done | done | lia | unfold poke; rewrite length_insert; lia].
    unfold poke.
    rewrite take_insert_ge by lia.
    rewrite <- app_assoc. f_equal. f_equal. simpl.
    replace (Z.to_nat (base + len)) with (S (Z.to_nat (base + (len - 1)))) by lia.
    rewrite drop_insert_ge by lia.
    rewrite Nat.sub_diag.
    destruct (lookup_lt_is_Some_2 buf (Z.to_nat (base + (len - 1)))) as [x Hx]; [lia |].
    rewrite (drop_S buf x _ Hx). reflexivity.
  - simpl in *. subst len. rewrite Z.add_0_r.
    by rewrite take_drop.
Qed.

Lemma poke_all_spec s : forall buf base,
  0 <= base -> (Z.to_nat base + length s <= length buf)%nat ->
  poke_all buf base s
    = take (Z.to_nat base) buf ++ s ++ drop (Z.to_nat base + length s) buf.
Proof.
  induction s as [| c s IH]; intros buf base Hbase Hfit; simpl in *.
  - by rewrite Nat.add_0_r, take_drop.
  - rewrite IH; [| lia | unfold poke; rewrite length_insert; lia].
    unfold poke.
    replace (Z.to_nat (base + 1)) with (S (Z.to_nat base)) by lia.
    destruct (lookup_lt_is_Some_2 buf (Z.to_nat base)) as [x Hx]; [lia |].
    rewrite (take_S_r _ _ c) by (by rewrite list_lookup_insert_eq by lia).
    rewrite take_insert_ge by lia.
    rewrite drop_insert_lt by lia.
    rewrite <- app_assoc. simpl.
    by rewrite Nat.add_succ_r.
Qed.

Lemma until_nul_app ds rest :
  Forall (fun c => c <> NUL) ds -> until_nul (ds ++ NUL :: rest) = ds.
Proof.
  induction 1 as [| c ds Hc _ IH]; simpl; [reflexivity |].
  unfold ceqb. destruct (Ascii.eqb_spec c NUL); [done |]. by rewrite IH.
Qed.

Lemma cstring_at pre ds rest i :
  i = Z.of_nat (length pre) -> Forall (fun c => c <> NUL) ds ->
  cstring (pre ++ ds ++ NUL :: rest) i = ds.
Proof.
  intros -> Hds. unfold cstring.
  rewrite Nat2Z.id, drop_app_length. by apply until_nul_app.
Qed.

Lemma print_u64_spec buf base v :
  0 <= base -> 0 <= v ->
  (Z.to_nat base + length (unsigned_digits v) + 1 <= length buf)%nat ->
  print_u64 buf base v
    = take (Z.to_nat base) buf ++ unsigned_digits v
        ++ NUL :: drop (Z.to_nat base + length (unsigned_digits v) + 1) buf.
Proof.
  intros Hbase Hv Hfit. unfold print_u64, unsigned_digits in *.
  destruct (Z.eqb_spec v 0) as [-> | Hne].
  - unfold strcpy. rewrite poke_all_spec by (simpl in *; lia).
    simpl. by rewrite <- Nat.add_assoc.
  - rewrite count_digits_length, Z.add_0_l.
    set (n := length (digits_of v)) in *.
    rewrite write_digits_spec;
      [| done | done | unfold poke; rewrite length_insert; lia].
    unfold poke.
    rewrite take_insert_ge by lia.
    f_equal. f_equal.
    rewrite drop_insert_ge, Nat.sub_diag by lia.
    destruct (lookup_lt_is_Some_2 buf (Z.to_nat (base + Z.of_nat n))) as [x Hx]; [lia |].
    rewrite (drop_S buf x _ Hx). simpl.
    by replace (S (Z.to_nat (base + Z.of_nat n))) with (Z.to_nat base + n + 1)%nat by lia.
Qed.

Lemma unsigned_digits_spec v :
  0 <= v ->
  unsigned_digits v <> []
  /\ Forall is_digit (unsigned_digits v)
  /\ Forall (fun c => c <> NUL) (unsigned_digits v)
  /\ (hd NUL (unsigned_digits v) = "0"%char -> unsigned_digits v = ["0"%char])
  /\ digits_value (unsigned_digits v) = v.
Proof.
  intros Hv. unfold unsigned_digits.
  destruct (Z.eqb_spec v 0) as [-> | Hne].
  - repeat split; try done.
    + constructor; [by vm_compute | constructor].
    + by constructor.
  - destruct (digits_of_spec v Hv) as (Hd & Hval & Hn & Hh).
    repeat split; try done.
    + apply digits_of_pos. lia.
    + intros H0. exfalso. apply Hh; [lia | done].
Qed.

Lemma unsigned_digits_length (n : nat) v :
  (0 < n)%nat -> 0 <= v < 10 ^ Z.of_nat n -> (length (unsigned_digits v) <= n)%nat.
Proof.
  intros Hn Hv. unfold unsigned_digits.
  destruct (Z.eqb_spec v 0); [simpl; lia | by apply digits_of_length].
Qed.

(** [print_u64] into [char Temp[21]], as [DefaultDisplayValueFunction]
    calls it. *)
Lemma print_u64_decimal (buf : list ascii) (v : Z) :
  length buf = 21%nat -> 0 <= v <= UINT64_MAX ->
  decimal_of v (cstring (print_u64 buf 0 v) 0).
Proof.
  intros Hbuf Hv. unfold UINT64_MAX in Hv.
  destruct (unsigned_digits_spec v) as (Hne & Hd & Hn & Hz & Hval); [lia |].
  pose proof (unsigned_digits_length 20 v) as Hlen.
  rewrite print_u64_spec by (simpl; lia).
  change (take (Z.to_nat 0) buf) with (@nil ascii).
  rewrite (cstring_at [] _ _ 0) by done.
  exists (unsigned_digits v).
  destruct (Z.ltb_spec v 0); [lia |].
  repeat split; try done. rewrite Hval. lia.
Qed.

(** C9. Into [char Temp[21]], whatever it held, [print_i64] stores for
    every signed 64-bit value the decimal representation of that value: a
    minus sign exactly when it is negative, then the digits of its
    magnitude without a leading zero, "0" for zero. For the least value,
    whose negation is not a signed 64-bit value, it stores
    "-9223372036854775808". *)
Theorem print_i64_decimal (buf : list ascii) (v : Z) :
  length buf = 21%nat -> INT64_MIN <= v <= INT64_MAX ->
  decimal_of v (cstring (print_i64 buf v) 0)
  /\ (v = INT64_MIN ->
      cstring (print_i64 buf v) 0 = str "-9223372036854775808").
Proof.
  intros Hbuf Hv. unfold INT64_MIN, INT64_MAX in Hv.
  assert (Hmin : v < -9223372036854775807 ->
                 cstring (print_i64 buf v) 0 = str "-9223372036854775808").
  { intros Hlt. unfold print_i64.
    destruct (Z.ltb_spec v (-9223372036854775807)); [| lia].
    unfold strcpy. rewrite poke_all_spec by (simpl; lia).
    change (take (Z.to_nat 0) buf) with (@nil ascii).
    rewrite <- app_assoc.
    apply (cstring_at [] (str "-9223372036854775808") _ 0); [done |].
    repeat constructor; discriminate. }
  split; [| intros ->; by apply Hmin].
  destruct (Z.ltb_spec v (-9223372036854775807)) as [Hlo | Hhi].
  - rewrite Hmin by done.
    assert (v = -9223372036854775808) as -> by lia.
    exists (str "9223372036854775808").
    repeat split; try done.
    repeat constructor; by vm_compute.
  - unfold print_i64.
    destruct (Z.ltb_spec v (-9223372036854775807)); [lia |].
    destruct (Z.ltb_spec v 0) as [Hneg | Hpos].
    + assert (Hu : u64 (- v) = - v) by (unfold u64; apply Z.mod_small; lia).
      rewrite Hu.
      destruct (unsigned_digits_spec (- v)) as (Hne & Hd & Hn & Hz & Hval); [lia |].
      pose proof (unsigned_digits_length 19 (- v)) as Hlen.
      rewrite print_u64_spec by (unfold poke; rewrite ?length_insert; simpl; lia).
      destruct buf as [| b0 buf']; [done |].
      change (take (Z.to_nat 1) (poke (b0 :: buf') 0 "-"%char)) with ["-"%char].
      set (rest := drop _ _).
      change (["-"%char] ++ unsigned_digits (- v) ++ NUL :: rest)
        with ([] ++ ("-"%char :: unsigned_digits (- v)) ++ NUL :: rest).
      rewrite (cstring_at [] _ _ 0) by (done || (constructor; [discriminate | done])).
      exists (unsigned_digits (- v)).
      split; [by replace (v <? 0) with true by (symmetry; apply Z.ltb_lt; lia) |].
      repeat split; try done. rewrite Hval. lia.
    + assert (Hu : u64 v = v) by (unfold u64; apply Z.mod_small; lia).
      rewrite Hu.
      destruct (unsigned_digits_spec v) as (Hne & Hd & Hn & Hz & Hval); [lia |].
      pose proof (unsigned_digits_length 19 v) as Hlen.
      rewrite print_u64_spec by (simpl; lia).
      change (take (Z.to_nat 0) buf) with (@nil ascii).
      rewrite (cstring_at [] _ _ 0) by done.
      exists (unsigned_digits v).
      split; [by replace (v <? 0) with false by (symmetry; apply Z.ltb_ge; lia) |].
      repeat split; try done. rewrite Hval. lia.
Qed.

(** ** Button capture (C3, C5) *)

Lemma testbit_button k i : 0 <= k -> Z.testbit (button k) i = (k =? i).
Proof.
  intros Hk. unfold button. rewrite Z.shiftl_1_l. by apply Z.pow2_bits_eqb.
Qed.

Lemma button_pow2 k : 0 <= k -> button k = 2 ^ k.
Proof. intros _. unfold button. apply Z.shiftl_1_l. Qed.

Lemma lor_eq_subset T S : Z.lor S T = S <-> subset T S.
Proof.
  split.
  - intros H k Hk Hbit. rewrite <- H, Z.lor_spec, Hbit. apply orb_true_r.
  - intros H. apply Z.bits_inj'. intros k Hk. rewrite Z.lor_spec.
    destruct (Z.testbit T k) eqn:Hbit; [| apply orb_false_r].
    rewrite (H k Hk Hbit). reflexivity.
Qed.

Lemma GrabButtons_merge_rule T S : merge_rule T S (GrabButtons_merge T S).
Proof.
  unfold merge_rule, GrabButtons_merge.
  destruct (Z.eqb_spec (Z.lor S T) S) as [Hgrow | Hgrow].
  - rewrite Z.lor_comm, Hgrow. repeat split; try done.
    all: intros Hn; exfalso; apply Hn; by apply lor_eq_subset.
  - rewrite (Z.lor_comm S T) in *.
    destruct (Z.eqb_spec (Z.lor T S) T) as [Hshrink | Hshrink].
    + repeat split; try done.
      * intros Hs. exfalso. apply Hgrow. rewrite Z.lor_comm. by apply lor_eq_subset.
      * intros _ Hn. exfalso. apply Hn. by apply lor_eq_subset.
    + repeat split; try done.
      intros _ Hs. exfalso. apply Hshrink. by apply lor_eq_subset.
Qed.

Lemma await_release_held held rest :
  Forall (fun b => b <> 0) held -> await_release (held ++ 0 :: rest) = Done rest.
Proof.
  induction 1 as [| b held Hb _ IH]; simpl; [reflexivity |].
  by destruct (Z.eqb_spec b 0).
Qed.

Lemma await_press_idle idle first rest :
  first <> 0 -> await_press (replicate idle 0 ++ first :: rest) = Done (first, rest).
Proof.
  intros Hf. induction idle as [| idle IH]; simpl; [| done].
  by destruct (Z.eqb_spec first 0).
Qed.

Lemma GrabButton_accumulate_fold later : forall total tail,
  Forall (fun b => b <> 0) later ->
  GrabButton_accumulate total (later ++ 0 :: tail)
    = Done (fold_left Z.lor later total, tail).
Proof.
  induction later as [| b later IH]; intros total tail Hl; simpl; [reflexivity |].
  inversion Hl as [| ? ? Hb Hl']; subst.
  destruct (Z.eqb_spec b 0); [done |]. by apply IH.
Qed.

Lemma GrabButtons_accumulate_fold later : forall total tail,
  Forall (fun b => b <> 0) later ->
  GrabButtons_accumulate total (later ++ 0 :: tail)
    = Done (fold_left GrabButtons_merge later total, tail).
Proof.
  induction later as [| b later IH]; intros total tail Hl; simpl; [reflexivity |].
  inversion Hl as [| ? ? Hb Hl']; subst.
  destruct (Z.eqb_spec b 0); [done |]. by apply IH.
Qed.

Lemma GrabButton_gesture held idle first later tail :
  Forall (fun b => b <> 0) held -> Forall (fun b => b <> 0) (first :: later) ->
  GrabButton (gesture held idle first later tail)
    = Done (fold_left Z.lor later first, tail).
Proof.
  intros Hh Hg. inversion Hg as [| ? ? Hf Hl]; subst.
  unfold GrabButton, gesture.
  rewrite await_release_held by done. simpl.
  rewrite await_press_idle by done. simpl.
  by apply GrabButton_accumulate_fold.
Qed.

Lemma GrabButtons_gesture held idle first later tail :
  Forall (fun b => b <> 0) held -> Forall (fun b => b <> 0) (first :: later) ->
  GrabButtons (gesture held idle first later tail)
    = Done (fold_left GrabButtons_merge later first, tail).
Proof.
  intros Hh Hg. inversion Hg as [| ? ? Hf Hl]; subst.
  unfold GrabButtons, gesture.
  rewrite await_release_held by done. simpl.
  rewrite await_press_idle by done. simpl.
  by apply GrabButtons_accumulate_fold.
Qed.

(** Facts on sets of one, two and three buttons. *)
Ltac bits :=
  intros;
  repeat match goal with
         | |- context [Z.testbit (Z.lor _ _) _] => rewrite Z.lor_spec
         | |- context [Z.testbit (button _) _] => rewrite testbit_button by lia
         | H : context [Z.testbit (Z.lor _ _) _] |- _ => rewrite Z.lor_spec in H
         | H : context [Z.testbit (button _) _] |- _ =>
             rewrite testbit_button in H by lia
         end;
  repeat match goal with
         | |- context [?x =? ?y] => destruct (Z.eqb_spec x y); simpl in *
         | H : context [?x =? ?y] |- _ => destruct (Z.eqb_spec x y); simpl in *
         end;
  try done; try lia.

Lemma button_nonzero k S : 0 <= k -> Z.testbit S k = true -> S <> 0.
Proof. intros Hk Hbit ->. by rewrite Z.bits_0 in Hbit. Qed.

Lemma not_subset_at T S k :
  0 <= k -> Z.testbit T k = true -> Z.testbit S k = false -> ~ subset T S.
Proof. intros Hk HT HS Hsub. rewrite (Hsub k Hk HT) in HS. done. Qed.

Lemma merge_grow T S : subset T S -> GrabButtons_merge T S = S.
Proof. intros H. destruct (GrabButtons_merge_rule T S) as (R1 & R2 & R3). auto. Qed.

Lemma merge_shrink T S : ~ subset T S -> subset S T -> GrabButtons_merge T S = T.
Proof.
  intros H1 H2. destruct (GrabButtons_merge_rule T S) as (R1 & R2 & R3). auto.
Qed.

Lemma merge_diverge T S : ~ subset T S -> ~ subset S T -> GrabButtons_merge T S = S.
Proof.
  intros H1 H2. destruct (GrabButtons_merge_rule T S) as (R1 & R2 & R3). auto.
Qed.

(** C3. In the hotkey capture the running total [T] and a sampled
    non-empty set [S] are merged by the three-way rule: [S] when [T] is a
    subset of [S], else [T] when [S] is a subset of [T], else [S]. The
    total starts as the first non-empty sample, the rule is applied to
    every later non-empty sample in turn, and the first empty sample ends
    the capture, which returns the total. So for distinct buttons [a], [b]
    and [c] the gesture {a}, {a,b}, {a,b,c}, {b,c}, {} gives {a,b,c}, and
    the gesture {a}, {b}, {} gives {b}. *)
Theorem hotkey_capture_merge :
  (forall T S, merge_rule T S (GrabButtons_merge T S))
  /\ (forall held idle first later tail,
        Forall (fun b => b <> 0) held -> Forall (fun b => b <> 0) (first :: later) ->
        GrabButtons (gesture held idle first later tail)
          = Done (fold_left GrabButtons_merge later first, tail))
  /\ (forall a b c held idle tail,
        0 <= a -> 0 <= b -> 0 <= c -> a <> b -> a <> c -> b <> c ->
        Forall (fun b => b <> 0) held ->
        let A := button a in
        let B := button b in
        let C := button c in
        GrabButtons (gesture held idle A
                       [Z.lor A B; Z.lor (Z.lor A B) C; Z.lor B C] tail)
          = Done (Z.lor (Z.lor A B) C, tail)
        /\ GrabButtons (gesture held idle A [B] tail) = Done (B, tail)).
Proof.
  split; [exact GrabButtons_merge_rule |].
  split; [exact GrabButtons_gesture |].
  intros a b c held idle tail Ha Hb Hc Hab Hac Hbc Hheld A B C.
  assert (HA : A <> 0) by (apply (button_nonzero a); subst A; bits).
  assert (HB : B <> 0) by (apply (button_nonzero b); subst B; bits).
  assert (HAB : Z.lor A B <> 0) by (apply (button_nonzero a); subst A B; bits).
  assert (HABC : Z.lor (Z.lor A B) C <> 0)
    by (apply (button_nonzero a); subst A B C; bits).
  assert (HBC : Z.lor B C <> 0) by (apply (button_nonzero b); subst B C; bits).
  split.
  - rewrite GrabButtons_gesture by (repeat constructor; done).
    cbn [fold_left].
    rewrite (merge_grow A (Z.lor A B)) by (subst A B; intros k Hk; bits).
    rewrite (merge_grow (Z.lor A B) (Z.lor (Z.lor A B) C))
      by (subst A B C; intros k Hk; bits).
    rewrite (merge_shrink (Z.lor (Z.lor A B) C) (Z.lor B C)); [reflexivity | |].
    + apply (not_subset_at _ _ a); subst A B C; bits.
    + subst A B C; intros k Hk; bits.
  - rewrite GrabButtons_gesture by (repeat constructor; done).
    cbn [fold_left].
    rewrite (merge_diverge A B); [reflexivity | |].
    + apply (not_subset_at _ _ a); subst A B; bits.
    + apply (not_subset_at _ _ b); subst A B; bits.
Qed.

Lemma land_button_test t i :
  0 <= i -> (Z.land t (Z.shiftl 1 i) =? 0) = negb (Z.testbit t i).
Proof.
  intros Hi. fold (button i).
  destruct (Z.testbit t i) eqn:Hbit; simpl.
  - apply Z.eqb_neq. apply (button_nonzero i); [done |].
    rewrite Z.land_spec, Hbit, testbit_button by done. by rewrite Z.eqb_refl.
  - apply Z.eqb_eq. apply Z.bits_inj'. intros k Hk.
    rewrite Z.land_spec, testbit_button, Z.bits_0 by done.
    destruct (Z.eqb_spec i k) as [-> |]; [by rewrite Hbit | apply andb_false_r].
Qed.

Lemma count_buttons_filter t (n : nat) : forall i acc,
  0 <= i ->
  count_buttons t n i acc
    = acc + Z.of_nat (length (filter (fun j => Z.testbit t j = true)
                                (seqZ i (Z.of_nat n)))).
Proof.
  induction n as [| n IH]; intros i acc Hi.
  - simpl. lia.
  - cbn [count_buttons]. rewrite IH by lia.
    rewrite land_button_test, negb_involutive by done.
    rewrite (seqZ_cons i (Z.of_nat (S n))) by lia.
    replace (Z.pred (Z.of_nat (S n))) with (Z.of_nat n) by lia.
    replace (Z.succ i) with (i + 1) by lia.
    rewrite filter_cons.
    destruct (Z.testbit t i) eqn:Hbit.
    + rewrite decide_True by done. simpl length. lia.
    + rewrite decide_False by done. lia.
Qed.

Lemma count_buttons_single t :
  0 <= t < 2 ^ 16 ->
  count_buttons t OPENDINGUX_BUTTON_COUNT 0 0 = 1 <-> single_button t.
Proof.
  intros Ht. split.
  - rewrite count_buttons_filter by lia. intros Hc.
    set (on := filter (fun j => Z.testbit t j = true)
                 (seqZ 0 (Z.of_nat OPENDINGUX_BUTTON_COUNT))) in *.
    destruct on as [| k [| k' on']] eqn:Hon; simpl in Hc; try lia.
    assert (Hk : k ∈ on) by (rewrite Hon; apply list_elem_of_here).
    subst on. apply list_elem_of_filter in Hk as [Hbit Hk].
    apply elem_of_seqZ in Hk.
    exists k. split; [lia |].
    apply Z.bits_inj'. intros j Hj. rewrite testbit_button by lia.
    destruct (Z.eqb_spec k j) as [<- | Hne]; [done |].
    destruct (Z.testbit t j) eqn:Hbj; [| done].
    destruct (Z.lt_ge_cases j 16) as [Hlt | Hge].
    + assert (Hin : j ∈ filter (fun j => Z.testbit t j = true)
                      (seqZ 0 (Z.of_nat OPENDINGUX_BUTTON_COUNT))).
      { apply list_elem_of_filter. split; [done |].
        apply elem_of_seqZ. unfold OPENDINGUX_BUTTON_COUNT. lia. }
      rewrite Hon in Hin. apply list_elem_of_singleton in Hin. congruence.
    + assert (t <> 0) by (by apply (button_nonzero j)).
      rewrite Z.bits_above_log2 in Hbj; [done | lia |].
      assert (Z.log2 t < 16) by (apply Z.log2_lt_pow2; lia). lia.
  - intros (k & Hk & ->). rewrite button_pow2 in * by done.
    assert (k < 16) by (apply (Z.pow_lt_mono_r_iff 2); lia).
    assert (Hcases : k = 0 \/ k = 1 \/ k = 2 \/ k = 3 \/ k = 4 \/ k = 5 \/ k = 6
                     \/ k = 7 \/ k = 8 \/ k = 9 \/ k = 10 \/ k = 11 \/ k = 12
                     \/ k = 13 \/ k = 14 \/ k = 15) by lia.
    repeat (destruct Hcases as [-> | Hcases]; [reflexivity |]).
    subst k. reflexivity.
Qed.

Lemma lor_in_range a b n :
  0 <= n -> 0 <= a < 2 ^ n -> 0 <= b < 2 ^ n -> 0 <= Z.lor a b < 2 ^ n.
Proof.
  intros Hn Ha Hb. split; [apply Z.lor_nonneg; lia |].
  destruct (Z.eq_dec a 0) as [-> | Ha0]; [rewrite Z.lor_0_l; lia |].
  destruct (Z.eq_dec b 0) as [-> | Hb0]; [rewrite Z.lor_0_r; lia |].
  assert (Z.lor a b <> 0) by (rewrite Z.lor_eq_0_iff; tauto).
  assert (0 <= Z.lor a b) by (apply Z.lor_nonneg; lia).
  apply Z.log2_lt_pow2; [lia |].
  rewrite Z.log2_lor by lia.
  apply Z.max_lub_lt; apply Z.log2_lt_pow2; lia.
Qed.

Lemma fold_lor_in_range later : forall first,
  Forall (fun b => 0 < b < 2 ^ 16) (first :: later) ->
  0 <= fold_left Z.lor later first < 2 ^ 16.
Proof.
  induction later as [| b later IH]; intros first Hall; simpl.
  - inversion Hall; subst. lia.
  - inversion Hall as [| ? ? Hf Hl]; subst. inversion Hl as [| ? ? Hb Hl']; subst.
    apply IH. constructor; [| done].
    pose proof (lor_in_range first b 16).
    assert (Z.lor first b <> 0) by (rewrite Z.lor_eq_0_iff; lia). lia.
Qed.

Lemma Forall_pressed l :
  Forall (fun b => 0 < b < 2 ^ 16) l -> Forall (fun b => b <> 0) l.
Proof. intros H. eapply Forall_impl; [exact H |]. intros b Hb. simpl in Hb. lia. Qed.

(** C5. The single-button capture returns the union of the non-empty
    samples of the gesture, and ends at the first empty sample after it.
    With the samples being sets of the 16 buttons, [ActionSetMapping] then
    stores that union in the target of the active entry when it is a
    single button, and leaves the memory as it was otherwise;
    [ActionSetOrClearMapping] stores the union when it is a single button
    and stores zero otherwise. *)
Theorem single_capture_resolution :
  (forall held idle first later tail,
     Forall (fun b => b <> 0) held -> Forall (fun b => b <> 0) (first :: later) ->
     GrabButton (gesture held idle first later tail)
       = Done (fold_left Z.lor later first, tail))
  /\ (forall (menus : MenuId -> Menu) menu i e w held idle first later tail,
        entry_at (menus menu) i = Done (Some e) ->
        frames_ahead w = gesture held idle first later tail ->
        Forall (fun b => b <> 0) held ->
        Forall (fun b => 0 < b < 2 ^ 16) (first :: later) ->
        let total := fold_left Z.lor later first in
        (exists m',
           ActionSetMapping menus menu i w
             = Done (Some menu, i, mkWorld m' tail (calls w))
           /\ (single_button total -> m' = write_target e total (memory w))
           /\ (~ single_button total -> m' = memory w))
        /\ (exists m',
              ActionSetOrClearMapping menus menu i w
                = Done (Some menu, i, mkWorld m' tail (calls w))
              /\ (single_button total -> m' = write_target e total (memory w))
              /\ (~ single_button total -> m' = write_target e 0 (memory w)))).
Proof.
  split; [exact GrabButton_gesture |].
  intros menus0 menu i e w held idle first later tail He Hw Hheld Hg total.
  pose proof (fold_lor_in_range later first Hg) as Hrange. fold total in Hrange.
  pose proof (count_buttons_single total Hrange) as Hcount.
  assert (Hu : u32 total = total) by (unfold u32; apply Z.mod_small; lia).
  assert (Hgrab : GrabButton (frames_ahead w) = Done (total, tail)).
  { rewrite Hw. apply GrabButton_gesture; [done | by apply Forall_pressed]. }
  split.
  - unfold ActionSetMapping. rewrite He. cbn [mbind outcome_bind deref].
    rewrite Hgrab. cbn [mbind outcome_bind].
    eexists. split; [reflexivity |]. rewrite Hu.
    destruct (Z.eqb_spec (count_buttons total OPENDINGUX_BUTTON_COUNT 0 0) 1)
      as [H1 | H1]; split; intros Hs; try done.
    + exfalso. by apply Hs, Hcount.
    + exfalso. by apply H1, Hcount.
  - unfold ActionSetOrClearMapping. rewrite He. cbn [mbind outcome_bind deref].
    rewrite Hgrab. cbn [mbind outcome_bind].
    eexists. split; [reflexivity |]. rewrite Hu.
    destruct (Z.eqb_spec (count_buttons total OPENDINGUX_BUTTON_COUNT 0 0) 1)
      as [H1 | H1]; split; intros Hs; try done.
    + exfalso. by apply Hs, Hcount.
    + exfalso. by apply H1, Hcount.
Qed.

(** ** The fix-up after loading (C7) *)

Lemma memcpy_same_size dst src : length dst = length src -> memcpy dst src = src.
Proof.
  intros H. unfold memcpy. rewrite drop_ge by lia. apply app_nil_r.
Qed.

(** C7. With [KeypadRemapping] and [DefaultKeypadRemapping] of one size
    (of 13 slots at least, so that every checked slot exists),
    [FixUpSettings] changes nothing at all when none of the slots 0 to 9
    and 12 is zero, and makes the whole of [KeypadRemapping] equal to
    [DefaultKeypadRemapping], leaving every other setting as it was, when
    one of them is zero; the slots 10 and 11 play no part. *)
Theorem fixup_all_or_nothing (m : Memory) :
  length (KeypadRemapping m) = length DefaultKeypadRemapping ->
  (12 < length (KeypadRemapping m))%nat ->
  ((forall i, i ∈ checked_slots -> KeypadRemapping m !! i <> Some 0) ->
   FixUpSettings m = m)
  /\ ((exists i, i ∈ checked_slots /\ KeypadRemapping m !! i = Some 0) ->
      FixUpSettings m
        = mkMemory (BootFromBIOS m) (ShowFPS m) (ScaleMode m) (UserFrameskip m)
            (FastForwardTarget m) (AnalogSensitivity m)
            DefaultKeypadRemapping (Hotkeys m)).
Proof.
  intros Hsize Hlen.
  assert (Hnth : forall i, (i <= 12)%nat ->
            (nth i (KeypadRemapping m) 0 =? 0) = true
            <-> KeypadRemapping m !! i = Some 0).
  { intros i Hi. rewrite Z.eqb_eq, nth_lookup.
    destruct (lookup_lt_is_Some_2 (KeypadRemapping m) i) as [x Hx]; [lia |].
    rewrite Hx. simpl. split; congruence. }
  unfold FixUpSettings. split.
  - intros Hnone.
    assert (Hno : forall i, i ∈ checked_slots ->
              (nth i (KeypadRemapping m) 0 =? 0) = false).
    { intros i Hi. apply not_true_is_false. intros Hz.
      apply (Hnone i Hi). apply Hnth; [| done].
      unfold checked_slots in Hi.
      repeat (apply elem_of_cons in Hi as [-> | Hi]; [lia |]).
      by apply elem_of_nil in Hi. }
    rewrite !Hno by (unfold checked_slots; repeat constructor). reflexivity.
  - intros (i & Hi & Hz).
    rewrite memcpy_same_size by done.
    assert (Hyes : (nth i (KeypadRemapping m) 0 =? 0) = true).
    { apply Hnth; [| done]. unfold checked_slots in Hi.
      repeat (apply elem_of_cons in Hi as [-> | Hi]; [lia |]).
      by apply elem_of_nil in Hi. }
    unfold checked_slots in Hi.
    repeat (apply elem_of_cons in Hi as [-> | Hi];
            [rewrite Hyes, ?orb_true_r; reflexivity |]).
    by apply elem_of_nil in Hi.
Qed.

(** ** The line tokenizer *)

Lemma peek_middle pre c rest :
  peek (pre ++ c :: rest) (Z.of_nat (length pre)) = c.
Proof.
  unfold peek. rewrite Nat2Z.id, nth_lookup.
  by rewrite list_lookup_middle.
Qed.

Lemma poke_middle pre c rest x :
  poke (pre ++ c :: rest) (Z.of_nat (length pre)) x = pre ++ x :: rest.
Proof.
  unfold poke. rewrite Nat2Z.id.
  replace (length pre) with (length pre + 0)%nat at 1 by lia.
  by rewrite insert_app_r.
Qed.

Lemma snoc_length {A} (pre : list A) c :
  Z.of_nat (length (pre ++ [c])) = Z.of_nat (length pre) + 1.
Proof. rewrite length_app. simpl. lia. Qed.

Lemma skip_blanks_stop fuel line cur :
  is_blank (peek line cur) = false -> skip_blanks (S fuel) line cur = Done cur.
Proof. intros H. simpl. by rewrite H. Qed.

Lemma skip_blanks_over blanks : forall fuel pre c rest,
  forallb is_blank blanks = true -> is_blank c = false ->
  (length blanks < fuel)%nat ->
  skip_blanks fuel (pre ++ blanks ++ c :: rest) (Z.of_nat (length pre))
    = Done (Z.of_nat (length pre) + Z.of_nat (length blanks)).
Proof.
  induction blanks as [| b blanks IH]; intros fuel pre c rest Hb Hc Hfuel.
  - destruct fuel as [| fuel]; [simpl in Hfuel; lia |].
    simpl app. rewrite skip_blanks_stop by (by rewrite peek_middle).
    simpl. f_equal. lia.
  - destruct fuel as [| fuel]; [simpl in Hfuel; lia |].
    simpl in Hb. apply andb_true_iff in Hb as [Hb Hbs].
    cbn [skip_blanks]. simpl app. rewrite peek_middle, Hb.
    rewrite <- (snoc_length pre b).
    replace (pre ++ b :: blanks ++ c :: rest)
      with ((pre ++ [b]) ++ blanks ++ c :: rest) by (by rewrite <- app_assoc).
    rewrite IH by (done || (simpl in Hfuel; lia)).
    f_equal. rewrite snoc_length. simpl length. lia.
Qed.

Lemma scan_name_over name : forall fuel pre c rest opt,
  forallb name_char name = true ->
  negb (ceqb c NUL) && negb (is_blank c || ceqb c "=") = false ->
  (length name < fuel)%nat ->
  scan_name fuel (pre ++ name ++ c :: rest) (Z.of_nat (length pre)) opt
    = Done (Z.of_nat (length pre) + Z.of_nat (length name),
            first_seen opt (Z.of_nat (length pre)) name).
Proof.
  induction name as [| x name IH]; intros fuel pre c rest opt Hn Hc Hfuel.
  - destruct fuel as [| fuel]; [simpl in Hfuel; lia |].
    cbn [scan_name]. simpl app. rewrite peek_middle, Hc.
    simpl. rewrite Z.add_0_r. by destruct opt.
  - destruct fuel as [| fuel]; [simpl in Hfuel; lia |].
    simpl in Hn. apply andb_true_iff in Hn as [Hx Hn].
    unfold name_char in Hx. apply andb_true_iff in Hx as [Hx Hhash].
    cbn [scan_name]. simpl app. rewrite peek_middle, Hx.
    apply negb_true_iff in Hhash. rewrite Hhash.
    rewrite <- (snoc_length pre x).
    replace (pre ++ x :: name ++ c :: rest)
      with ((pre ++ [x]) ++ name ++ c :: rest) by (by rewrite <- app_assoc).
    rewrite IH by (done || (simpl in Hfuel; lia)).
    f_equal. f_equal.
    + rewrite snoc_length. simpl length. lia.
    + by destruct opt, name.
Qed.

(** At a hash the name loop goes round without moving. *)
Lemma scan_name_spins fuel line cur opt :
  peek line cur = "#"%char -> scan_name fuel line cur opt = Trap OutOfFuel.
Proof.
  intros H. induction fuel as [| fuel IH]; [reflexivity |].
  cbn [scan_name]. rewrite H. exact IH.
Qed.

Lemma scan_name_hash name : forall fuel pre rest opt,
  forallb name_char name = true ->
  scan_name fuel (pre ++ name ++ "#"%char :: rest) (Z.of_nat (length pre)) opt
    = Trap OutOfFuel.
Proof.
  induction name as [| x name IH]; intros fuel pre rest opt Hn.
  - apply scan_name_spins. simpl app. apply peek_middle.
  - destruct fuel as [| fuel]; [reflexivity |].
    simpl in Hn. apply andb_true_iff in Hn as [Hx Hn].
    unfold name_char in Hx. apply andb_true_iff in Hx as [Hx Hhash].
    cbn [scan_name]. simpl app. rewrite peek_middle, Hx.
    apply negb_true_iff in Hhash. rewrite Hhash.
    rewrite <- (snoc_length pre x).
    replace (pre ++ x :: name ++ "#"%char :: rest)
      with ((pre ++ [x]) ++ name ++ "#"%char :: rest) by (by rewrite <- app_assoc).
    by apply IH.
Qed.

Lemma scan_arg_over tok : forall fuel pre rest arg,
  forallb (fun c => negb (ceqb c NUL) && negb (ceqb c "#")) tok = true ->
  (length tok < fuel)%nat ->
  scan_arg fuel (pre ++ tok ++ "#"%char :: rest) (Z.of_nat (length pre)) arg
    = Done (pre ++ tok ++ NUL :: rest,
            Z.of_nat (length pre) + Z.of_nat (length tok),
            first_seen arg (Z.of_nat (length pre)) tok).
Proof.
  induction tok as [| x tok IH]; intros fuel pre rest arg Ht Hfuel.
  - destruct fuel as [| fuel]; [simpl in Hfuel; lia |].
    cbn [scan_arg]. simpl app. rewrite peek_middle, poke_middle.
    simpl. rewrite Z.add_0_r. by destruct arg.
  - destruct fuel as [| fuel]; [simpl in Hfuel; lia |].
    simpl in Ht. apply andb_true_iff in Ht as [Hx Ht].
    apply andb_true_iff in Hx as [Hx Hhash].
    cbn [scan_arg]. simpl app. rewrite peek_middle, Hx.
    apply negb_true_iff in Hhash. rewrite Hhash.
    rewrite <- (snoc_length pre x).
    replace (pre ++ x :: tok ++ "#"%char :: rest)
      with ((pre ++ [x]) ++ tok ++ "#"%char :: rest) by (by rewrite <- app_assoc).
    rewrite IH by (done || (simpl in Hfuel; lia)).
    rewrite <- app_assoc. simpl app.
    f_equal. f_equal; [f_equal |].
    + rewrite snoc_length. simpl length. lia.
    + by destruct arg, tok.
Qed.

Lemma poke_beyond pre rest i x :
  (length pre <= Z.to_nat i)%nat ->
  exists rest', poke (pre ++ rest) i x = pre ++ rest' /\ length rest' = length rest.
Proof.
  intros Hi. exists (<[(Z.to_nat i - length pre)%nat := x]> rest).
  unfold poke. split; [| apply length_insert].
  replace (Z.to_nat i) with (length pre + (Z.to_nat i - length pre))%nat at 1 by lia.
  apply insert_app_r.
Qed.

Lemma strip_tail_one fuel pre last rest :
  is_blank last || ceqb last LF || ceqb last CR = false ->
  strip_tail (S (S fuel)) ((pre ++ [last]) ++ " "%char :: rest)
    (Z.of_nat (length pre) + 1)
    = Done ((pre ++ [last]) ++ NUL :: rest).
Proof.
  intros Hlast. rewrite <- (snoc_length pre last).
  cbn [strip_tail]. rewrite peek_middle, poke_middle.
  change (is_blank " " || ceqb " " LF || ceqb " " CR) with true. cbv iota.
  rewrite snoc_length.
  replace (Z.of_nat (length pre) + 1 - 1) with (Z.of_nat (length pre)) by lia.
  rewrite <- app_assoc. simpl app. by rewrite peek_middle, Hlast.
Qed.

Lemma token_char_scan tok :
  forallb token_char tok = true ->
  forallb (fun c => negb (ceqb c NUL) && negb (ceqb c "#")) tok = true.
Proof.
  induction tok as [| c tok IH]; simpl; [done |].
  intros H. apply andb_true_iff in H as [Hc Ht].
  unfold token_char in Hc. apply andb_true_iff in Hc as [Hc _].
  by rewrite Hc, IH.
Qed.

Lemma forallb_not_nul (p : ascii -> bool) l :
  (forall c, p c = true -> c <> NUL) -> forallb p l = true ->
  Forall (fun c => c <> NUL) l.
Proof.
  intros Hp. induction l as [| c l IH]; simpl; [constructor |].
  intros H. apply andb_true_iff in H as [Hc Hl]. constructor; auto.
Qed.

Lemma name_char_not_nul c : name_char c = true -> c <> NUL.
Proof. intros H ->. discriminate H. Qed.

Lemma token_char_not_nul c : token_char c = true -> c <> NUL.
Proof. intros H ->. discriminate H. Qed.

(** A line of the shape that the save functions write, [name = token
    #comment], is cut into the name and the token: whatever follows the
    hash, and whatever the array holds after the line, plays no part. *)
Lemma tokenize_saved_line fuel name tok rest :
  plain_name name = true -> plain_token tok = true ->
  (length name + length tok + 5 <= 256)%nat ->
  (length name + length tok + 5 < fuel)%nat ->
  exists line',
    tokenize fuel (name ++ str " = " ++ tok ++ str " #" ++ rest)
      = Done (line', Some (name, tok)).
Proof.
  intros Hname Htok Hfit Hfuel.
  apply andb_true_iff in Hname as [Hn0 Hname].
  apply andb_true_iff in Htok as [Ht0 Htok].
  apply negb_true_iff, bool_decide_eq_false in Hn0, Ht0.
  destruct name as [| n0 name'] eqn:En; [done |]. rewrite <- En in *.
  destruct (exists_last Ht0) as (tok' & tl & Et).
  assert (Hn0c : name_char n0 = true).
  { rewrite En in Hname. simpl in Hname. by apply andb_true_iff in Hname as [? _]. }
  assert (Htlc : token_char tl = true).
  { rewrite Et, forallb_app in Htok. apply andb_true_iff in Htok as [_ H].
    simpl in H. by apply andb_true_iff in H as [? _]. }
  assert (Ht0c : is_blank (hd NUL (tok ++ [" "%char])) = false).
  { destruct tok as [| t0 tok0]; [done |]. simpl in Htok |- *.
    apply andb_true_iff in Htok as [H _]. unfold token_char in H.
    apply andb_true_iff in H as [_ H]. apply negb_true_iff in H.
    by apply orb_false_iff in H as [H _]; apply orb_false_iff in H as [H _]. }
  unfold tokenize. change (str " = ") with [" "; "="; " "]%char.
  change (str " #") with [" "; "#"]%char.
  (* the NUL stored at index 256 falls after the hash *)
  destruct (poke_beyond (name ++ [" "; "="; " "]%char ++ tok ++ [" "; "#"]%char)
              rest 256 NUL) as (rest' & Hpoke & _).
  { rewrite !length_app. simpl. lia. }
  rewrite <- !app_assoc in Hpoke. rewrite Hpoke. clear Hpoke.
  (* leading blanks: none *)
  assert (H1 : skip_blanks fuel
                 (name ++ [" "; "="; " "]%char ++ tok ++ [" "; "#"]%char ++ rest') 0
               = Done 0).
  { destruct fuel as [| fuel']; [lia |]. apply skip_blanks_stop.
    rewrite En. unfold peek. simpl.
    unfold name_char in Hn0c. apply andb_true_iff in Hn0c as [H _].
    apply andb_true_iff in H as [_ H]. apply negb_true_iff in H.
    by apply orb_false_iff in H as [H _]. }
  rewrite H1. cbn [mbind outcome_bind].
  (* the name *)
  pose proof (scan_name_over name fuel [] " "%char
                ([ "="; " "]%char ++ tok ++ [" "; "#"]%char ++ rest') None
                Hname eq_refl ltac:(lia)) as H2.
  simpl app in H2 |- *. change (Z.of_nat (length (@nil ascii))) with 0 in H2.
  rewrite Z.add_0_l in H2.
  rewrite H2. cbn [mbind outcome_bind].
  replace (first_seen None 0 name) with (Some 0) by (by rewrite En).
  cbv iota beta.
  pose proof (peek_middle name " "%char
                ("="%char :: " "%char :: tok ++ " "%char :: "#"%char :: rest')) as Hp.
  rewrite Hp. change (ceqb " " "=") with false. cbn [negb].
  rewrite poke_middle.
  (* the equals sign *)
  replace (name ++ NUL :: "="%char :: " "%char :: tok ++ " "%char :: "#"%char :: rest')
    with ((name ++ [NUL]) ++ "="%char :: " "%char :: tok ++ " "%char :: "#"%char :: rest')
    by (by rewrite <- app_assoc).
  rewrite <- (snoc_length name NUL).
  destruct fuel as [| fuel']; [lia |].
  rewrite skip_blanks_stop by (by rewrite peek_middle).
  cbn [mbind outcome_bind]. rewrite peek_middle.
  change (negb (ceqb "=" "=")) with false. cbv iota.
  (* the blank after it, then the token up to the hash *)
  replace ((name ++ [NUL]) ++ "="%char :: " "%char :: tok ++ " "%char :: "#"%char :: rest')
    with (((name ++ [NUL]) ++ ["="%char]) ++ [" "%char]
            ++ (tok ++ [" "%char]) ++ "#"%char :: rest')
    by (rewrite <- !app_assoc; reflexivity).
  rewrite <- (snoc_length (name ++ [NUL]) "="%char).
  cbn [mbind outcome_bind].
  set (pre := (name ++ [NUL]) ++ ["="%char]) in *.
  assert (H3 : skip_blanks (S fuel')
                 (pre ++ [" "%char] ++ (tok ++ [" "%char]) ++ "#"%char :: rest')
                 (Z.of_nat (length pre))
               = Done (Z.of_nat (length (pre ++ [" "%char])))).
  { destruct tok as [| t0 tok0]; [done |]. simpl in Ht0c.
    pose proof (skip_blanks_over [" "%char] (S fuel') pre t0
                  ((tok0 ++ [" "%char]) ++ "#"%char :: rest')
                  eq_refl Ht0c ltac:(simpl; lia)) as H.
    rewrite <- !app_assoc in H |- *. simpl app in H |- *.
    rewrite H. by rewrite snoc_length. }
  rewrite H3. cbn [mbind outcome_bind].
  rewrite (app_assoc pre [" "%char]).
  rewrite scan_arg_over; cycle 1.
  { rewrite forallb_app. rewrite token_char_scan by done. reflexivity. }
  { rewrite length_app. simpl. lia. }
  cbn [mbind outcome_bind].
  replace (first_seen None (Z.of_nat (length (pre ++ [" "%char]))) (tok ++ [" "%char]))
    with (Some (Z.of_nat (length (pre ++ [" "%char]))))
    by (by destruct tok).
  cbv iota beta.
  (* the blank before the hash is cut off *)
  rewrite Et.
  replace ((pre ++ [" "%char]) ++ ((tok' ++ [tl]) ++ [" "%char]) ++ NUL :: rest')
    with ((((pre ++ [" "%char]) ++ tok') ++ [tl]) ++ " "%char :: NUL :: rest')
    by (rewrite <- !app_assoc; reflexivity).
  replace (Z.of_nat (length (pre ++ [" "%char]))
           + Z.of_nat (length ((tok' ++ [tl]) ++ [" "%char])) - 1)
    with (Z.of_nat (length ((pre ++ [" "%char]) ++ tok')) + 1)
    by (rewrite !length_app; simpl; lia).
  destruct fuel' as [| fuel'']; [lia |].
  rewrite strip_tail_one; cycle 1.
  { unfold token_char in Htlc. apply andb_true_iff in Htlc as [_ H].
    by apply negb_true_iff in H. }
  cbn [mbind outcome_bind].
  eexists. f_equal. f_equal. f_equal. f_equal.
  - subst pre. rewrite <- !app_assoc. simpl app.
    apply (cstring_at [] name _ 0); [reflexivity |].
    by apply (forallb_not_nul name_char); [apply name_char_not_nul |].
  - rewrite <- !app_assoc. rewrite (app_assoc tok' [tl]), <- Et.
    rewrite (app_assoc pre [" "%char]).
    apply cstring_at; [reflexivity |].
    by apply (forallb_not_nul token_char); [apply token_char_not_nul |].
Qed.

Lemma skip_blanks_starved blanks : forall fuel pre rest,
  forallb is_blank blanks = true -> (fuel <= length blanks)%nat ->
  skip_blanks fuel (pre ++ blanks ++ rest) (Z.of_nat (length pre)) = Trap OutOfFuel.
Proof.
  induction blanks as [| b blanks IH]; intros fuel pre rest Hb Hfuel.
  - simpl in Hfuel. by replace fuel with 0%nat by lia.
  - destruct fuel as [| fuel]; [reflexivity |].
    simpl in Hb. apply andb_true_iff in Hb as [Hb Hbs].
    cbn [skip_blanks]. simpl app. rewrite peek_middle, Hb.
    rewrite <- (snoc_length pre b).
    replace (pre ++ b :: blanks ++ rest)
      with ((pre ++ [b]) ++ blanks ++ rest) by (by rewrite <- app_assoc).
    apply IH; [done | simpl in Hfuel; lia].
Qed.

(** A hash met before the option name has ended, be it the first
    character of the line that is not a blank or one that follows the
    name directly: no amount of fuel lets the tokenizer finish. *)
Lemma tokenize_hash fuel blanks name rest :
  forallb is_blank blanks = true -> forallb name_char name = true ->
  (length blanks + length name < 256)%nat ->
  tokenize fuel (blanks ++ name ++ "#"%char :: rest) = Trap OutOfFuel.
Proof.
  intros Hb Hn Hfit. unfold tokenize.
  destruct (poke_beyond (blanks ++ name ++ ["#"%char]) rest 256 NUL)
    as (rest' & Hpoke & _).
  { rewrite !length_app. simpl. lia. }
  rewrite <- !app_assoc in Hpoke. simpl app in Hpoke. rewrite Hpoke. clear Hpoke.
  destruct (Nat.le_gt_cases fuel (length blanks)) as [Hshort | Hlong].
  - pose proof (skip_blanks_starved blanks fuel [] (name ++ "#"%char :: rest')
                  Hb Hshort) as H.
    simpl in H. change (Z.of_nat 0) with 0 in H. by rewrite H.
  - assert (Hskip : skip_blanks fuel (blanks ++ name ++ "#"%char :: rest') 0
                    = Done (Z.of_nat (length blanks))).
    { destruct name as [| n0 name'].
      - apply (skip_blanks_over blanks fuel [] "#"%char rest' Hb eq_refl Hlong).
      - simpl in Hn. apply andb_true_iff in Hn as [Hn0 _].
        unfold name_char in Hn0. apply andb_true_iff in Hn0 as [Hn0 _].
        apply andb_true_iff in Hn0 as [_ Hn0]. apply negb_true_iff in Hn0.
        apply orb_false_iff in Hn0 as [Hn0 _].
        apply (skip_blanks_over blanks fuel [] n0 _ Hb Hn0 Hlong). }
    rewrite Hskip. cbn [mbind outcome_bind].
    by rewrite scan_name_hash.
Qed.

Lemma comment_line_spins (fuel : nat) (stale : list ascii) :
  tokenize fuel (str "# comment" ++ LF :: NUL :: stale) = Trap OutOfFuel.
Proof.
  exact (tokenize_hash fuel [] [] (str " comment" ++ LF :: NUL :: stale)
           eq_refl eq_refl ltac:(simpl; lia)).
Qed.

(** C2 (fails). A comment line is never tokenized: with the array holding
    the line "# comment" as [fgets] stores it, followed by whatever the
    array held before, the loop that looks for the end of the option name
    is still running when the fuel is used up, however much fuel there
    is. The same holds with blanks before the hash. *)
Theorem comment_line_never_tokenized (fuel : nat) (stale : list ascii) :
  tokenize fuel (str "# comment" ++ LF :: NUL :: stale) = Trap OutOfFuel
  /\ tokenize fuel (str "  # comment" ++ LF :: NUL :: stale) = Trap OutOfFuel.
Proof.
  split.
  - apply comment_line_spins.
  - exact (tokenize_hash fuel (str "  ") [] (str " comment" ++ LF :: NUL :: stale)
             eq_refl eq_refl ltac:(simpl; lia)).
Qed.

(** The array [line] after [fgets] has stored [bytes] in it. *)
Lemma strcpy_line line bytes :
  (length bytes < length line)%nat ->
  strcpy line 0 bytes = bytes ++ NUL :: drop (S (length bytes)) line.
Proof.
  intros Hlen. unfold strcpy.
  rewrite poke_all_spec by (rewrite ?length_app; simpl; lia).
  change (take (Z.to_nat 0) line) with (@nil ascii).
  rewrite length_app, <- app_assoc. simpl. do 3 f_equal. lia.
Qed.

(** So [ReGBA_LoadSettings] does not return for a file that holds a
    comment line. *)
Lemma ReGBA_LoadSettings_comment_line (menus : MenuId -> Menu) fuel MAX_PATH
    main_path files line cfg_name m log :
  length line = 257%nat ->
  Z.of_nat (length main_path) + Z.of_nat (length cfg_name) + 5 <= MAX_PATH ->
  files (main_path ++ str "/" ++ cfg_name ++ str ".cfg")
    = Some (str "# comment" ++ [LF]) ->
  ReGBA_LoadSettings menus fuel MAX_PATH main_path files line cfg_name m log
    = (log, Trap OutOfFuel).
Proof.
  intros Hline Hpath Hfile. unfold ReGBA_LoadSettings.
  destruct (Z.ltb_spec MAX_PATH
              (Z.of_nat (length main_path) + Z.of_nat (length cfg_name) + 5));
    [lia |].
  rewrite Hfile. unfold mbind, traced_bind at 1.
  destruct fuel as [| fuel']; [reflexivity |].
  cbn [load_lines]. change (fgets 256 (str "# comment" ++ [LF]))
    with (Some (str "# comment" ++ [LF], @nil ascii)).
  cbv iota beta.
  rewrite strcpy_line by (rewrite Hline; simpl; lia).
  unfold load_line, lift, mbind, traced_bind.
  rewrite <- app_assoc.
  change (str "# comment" ++ [LF] ++ NUL :: drop (S (length (str "# comment" ++ [LF]))) line)
    with (str "# comment" ++ LF :: NUL :: drop 11 line).
  by rewrite comment_line_spins.
Qed.

(** ** A line with an unknown key (C1) *)

Lemma load_option_unknown (menus : MenuId -> Menu) fuel opt arg m log :
  Menu_FindByPersistentName menus fuel MainMenu opt = Done None ->
  load_option menus fuel opt arg m log
    = (log ++ [str "W: Option '" ++ opt ++ str "' not found; ignored"],
       Trap NullDereference).
Proof.
  intros Hfind. unfold load_option, lift, mbind, traced_bind.
  rewrite Hfind. reflexivity.
Qed.

Lemma tokenize_foo_bar (k : nat) (stale : list ascii) :
  exists line',
    tokenize (12 + k) (str "foo = bar" ++ LF :: NUL :: stale)
      = Done (line', Some (str "foo", str "bar")).
Proof. eexists. reflexivity. Qed.

Lemma find_foo_static_menus (GCW_ZERO PERFORMANCE_IMPACTING_STATISTICS : bool)
    (k : nat) :
  Menu_FindByPersistentName (static_menus GCW_ZERO PERFORMANCE_IMPACTING_STATISTICS)
    (2 + k) MainMenu (str "foo")
    = Trap ReadPastEnd.
Proof. reflexivity. Qed.

Lemma load_line_unknown (menus : MenuId -> Menu) fuel stale m log :
  (12 <= fuel)%nat ->
  Menu_FindByPersistentName menus fuel MainMenu (str "foo") = Done None ->
  load_line menus fuel (str "foo = bar" ++ LF :: NUL :: stale) m log
    = (log ++ [str "W: Option 'foo' not found; ignored"], Trap NullDereference).
Proof.
  intros Hfuel Hfind.
  replace fuel with (12 + (fuel - 12))%nat in * by lia.
  destruct (tokenize_foo_bar (fuel - 12) stale) as (line' & Htok).
  unfold load_line, lift, mbind, traced_bind at 1. rewrite Htok.
  unfold mbind, traced_bind at 1.
  rewrite (load_option_unknown menus _ (str "foo") (str "bar") m log Hfind).
  reflexivity.
Qed.

Lemma load_line_static_menus GCW_ZERO PERFORMANCE_IMPACTING_STATISTICS
    fuel stale m log :
  (12 <= fuel)%nat ->
  load_line (static_menus GCW_ZERO PERFORMANCE_IMPACTING_STATISTICS) fuel
    (str "foo = bar" ++ LF :: NUL :: stale) m log
    = (log, Trap ReadPastEnd).
Proof.
  intros Hfuel.
  replace fuel with (12 + (fuel - 12))%nat in * by lia.
  destruct (tokenize_foo_bar (fuel - 12) stale) as (line' & Htok).
  unfold load_line, lift, mbind, traced_bind at 1. rewrite Htok.
  unfold mbind, traced_bind at 1.
  unfold load_option, lift, mbind, traced_bind at 1.
  change (12 + (fuel - 12))%nat with (2 + (10 + (fuel - 12)))%nat.
  rewrite find_foo_static_menus. reflexivity.
Qed.

(** So [ReGBA_LoadSettings] does not return for a file that holds a line
    with an unknown key: the fix-up and the lines after it are not
    reached. *)
Lemma ReGBA_LoadSettings_unknown_key (menus : MenuId -> Menu) fuel MAX_PATH
    main_path files line cfg_name m log :
  (12 <= fuel)%nat ->
  Menu_FindByPersistentName menus fuel MainMenu (str "foo") = Done None ->
  length line = 257%nat ->
  Z.of_nat (length main_path) + Z.of_nat (length cfg_name) + 5 <= MAX_PATH ->
  files (main_path ++ str "/" ++ cfg_name ++ str ".cfg")
    = Some (str "foo = bar" ++ [LF]) ->
  ReGBA_LoadSettings menus fuel MAX_PATH main_path files line cfg_name m log
    = (log ++ [str "W: Option 'foo' not found; ignored"], Trap NullDereference).
Proof.
  intros Hfuel Hfind Hline Hpath Hfile. unfold ReGBA_LoadSettings.
  destruct (Z.ltb_spec MAX_PATH
              (Z.of_nat (length main_path) + Z.of_nat (length cfg_name) + 5));
    [lia |].
  rewrite Hfile. unfold mbind, traced_bind at 1.
  assert (Hlines : forall passes,
            load_lines menus fuel (S passes) line (str "foo = bar" ++ [LF]) m log
            = (log ++ [str "W: Option 'foo' not found; ignored"],
               Trap NullDereference)).
  { intros passes. cbn [load_lines].
    change (fgets 256 (str "foo = bar" ++ [LF]))
      with (Some (str "foo = bar" ++ [LF], @nil ascii)).
    cbv iota beta.
    rewrite strcpy_line by (rewrite Hline; simpl; lia).
    rewrite <- app_assoc.
    change (str "foo = bar" ++ [LF] ++ NUL
              :: drop (S (length (str "foo = bar" ++ [LF]))) line)
      with (str "foo = bar" ++ LF :: NUL :: drop 11 line).
    unfold mbind, traced_bind at 1.
    by rewrite load_line_unknown. }
  destruct fuel as [| fuel'] eqn:Efuel; [lia |].
  by rewrite Hlines.
Qed.

(** C1 (fails). The line "foo = bar", as [fgets] stores it in the array,
    is cut into "foo" and "bar". Where the look-up of "foo" returns NULL,
    the body of the loop traces the one warning and then reads
    [entry->LoadFunction] through the NULL pointer: the load does not go
    on to the next line. With the menus of the source the look-up itself
    does not return: it reads past the entries of [DisplayMenu], the first
    submenu it visits, which are not ended by a NULL. *)
Theorem unknown_key_faults :
  (forall (menus : MenuId -> Menu) fuel stale m log,
     (12 <= fuel)%nat ->
     Menu_FindByPersistentName menus fuel MainMenu (str "foo") = Done None ->
     load_line menus fuel (str "foo = bar" ++ LF :: NUL :: stale) m log
       = (log ++ [str "W: Option 'foo' not found; ignored"], Trap NullDereference))
  /\ (forall GCW_ZERO PERFORMANCE_IMPACTING_STATISTICS fuel stale m log,
        (12 <= fuel)%nat ->
        load_line (static_menus GCW_ZERO PERFORMANCE_IMPACTING_STATISTICS) fuel
          (str "foo = bar" ++ LF :: NUL :: stale) m log
          = (log, Trap ReadPastEnd)).
Proof. split; [exact load_line_unknown | exact load_line_static_menus]. Qed.

(** ** Changing menu in the navigation loop (C6) *)

(** The default operations leave [ActiveEntryIndex] of every menu but the
    one they are called for as it was, and no pass of the loop stores
    anything else to it. *)
Lemma ReGBA_Menu_pass_other_index (menus : MenuId -> Menu) Action menu nav nav' other :
  ReGBA_Menu_pass menus Action menu nav = Done nav' ->
  other <> menu ->
  ActiveEntryIndex nav' other = ActiveEntryIndex nav other.
Proof.
  unfold ReGBA_Menu_pass. intros Hpass Hother.
  repeat match type of Hpass with
         | (?c ≫= _) = Done _ =>
             destruct c as [? |] eqn:?; cbn [mbind outcome_bind] in Hpass; [| done]
         | context [let '(_, _) := ?x in _] => destruct x
         end.
  injection Hpass as <-. simpl.
  unfold set_index. by rewrite decide_False.
Qed.

(** C6 (fails). From the main menu with every index at the first item:
    down to "Input settings...", enter it, down once, leave, enter it
    again. The last pass changes the active menu to the input settings
    menu, and the active entry of that menu is then its second item, where
    the visit before left it, not its first. *)
Theorem menu_change_keeps_index
    (GCW_ZERO PERFORMANCE_IMPACTING_STATISTICS : bool) (w : World) :
  exists nav,
    ReGBA_Menu_passes (static_menus GCW_ZERO PERFORMANCE_IMPACTING_STATISTICS)
      [ GUI_ACTION_DOWN; GUI_ACTION_ENTER; GUI_ACTION_DOWN;
        GUI_ACTION_LEAVE; GUI_ACTION_ENTER ]
      (mkNav (Some MainMenu) (fun _ => 0) w) = Done nav
    /\ ActiveMenu nav = Some ButtonMappingMenu
    /\ ActiveEntryIndex nav ButtonMappingMenu = 1.
Proof.
  destruct GCW_ZERO.
  all: eexists; split; [reflexivity | split; reflexivity].
Qed.

(** ** The settings codec (C4, C10) *)

Lemma until_nul_plain_app l rest :
  Forall (fun c => c <> NUL) l -> until_nul (l ++ rest) = l ++ until_nul rest.
Proof.
  induction 1 as [| c l Hc _ IH]; simpl; [reflexivity |].
  unfold ceqb. destruct (Ascii.eqb_spec c NUL); [done |]. by rewrite IH.
Qed.

(** What [Menu_SaveOption] writes for a line [name = token #comment]:
    the line up to the hash, then what is left of the comment. *)
Lemma saved_text_shape name tok comment :
  plain_name name = true -> plain_token tok = true ->
  (length name + length tok + 5 <= 255)%nat ->
  exists rest,
    until_nul (snprintf 256 (name ++ str " = " ++ tok ++ str " #" ++ comment))
      = name ++ str " = " ++ tok ++ str " #" ++ rest.
Proof.
  intros Hname Htok Hfit.
  apply andb_true_iff in Hname as [_ Hname].
  apply andb_true_iff in Htok as [_ Htok].
  pose proof (forallb_not_nul name_char name name_char_not_nul Hname) as Hn.
  pose proof (forallb_not_nul token_char tok token_char_not_nul Htok) as Ht.
  set (head := name ++ str " = " ++ tok ++ str " #").
  assert (Hlen : length head = (length name + length tok + 5)%nat).
  { unfold head. rewrite !length_app. simpl. lia. }
  assert (Hhead : Forall (fun c => c <> NUL) head).
  { unfold head. repeat (apply Forall_app; split); try done.
    all: repeat constructor; discriminate. }
  exists (until_nul (take (255 - length head) comment)).
  unfold snprintf.
  replace (name ++ str " = " ++ tok ++ str " #" ++ comment) with (head ++ comment)
    by (unfold head; by rewrite <- !app_assoc).
  replace (name ++ str " = " ++ tok ++ str " #"
             ++ until_nul (take (255 - length head) comment))
    with (head ++ until_nul (take (255 - length head) comment))
    by (unfold head; by rewrite <- !app_assoc).
  change (256 - 1)%nat with 255%nat.
  rewrite take_app, (take_ge head) by lia.
  by apply until_nul_plain_app.
Qed.

Lemma saved_line_tokenized fuel name tok comment stale :
  plain_name name = true -> plain_token tok = true ->
  (length name + length tok + 5 <= 255)%nat -> (261 <= fuel)%nat ->
  exists text line',
    until_nul (snprintf 256 (name ++ str " = " ++ tok ++ str " #" ++ comment)) = text
    /\ tokenize fuel (text ++ NUL :: stale) = Done (line', Some (name, tok)).
Proof.
  intros Hname Htok Hfit Hfuel.
  destruct (saved_text_shape name tok comment Hname Htok Hfit) as (rest & Hshape).
  destruct (tokenize_saved_line fuel name tok (rest ++ NUL :: stale) Hname Htok)
    as (line' & Hline); [lia | lia |].
  exists (name ++ str " = " ++ tok ++ str " #" ++ rest), line'.
  split; [done |]. by rewrite <- !app_assoc.
Qed.

(** *** The default codec *)

Lemma DefaultLoad_scan_find e tok m : forall rest pre,
  Choices e = pre ++ rest ->
  DefaultLoad_scan e tok m (length rest) (Z.of_nat (length pre))
    = Done ((fun i => write_target e i m) <$> find_token rest tok (Z.of_nat (length pre))).
Proof.
  induction rest as [| c rest IH]; intros pre Hc; [reflexivity |].
  cbn [length DefaultLoad_scan find_token].
  unfold choice_at. rewrite Nat2Z.id, Hc, list_lookup_middle by done.
  cbn [mbind outcome_bind].
  destruct (strcasecmp_eq (Persistent c) tok); [reflexivity |].
  rewrite <- (snoc_length pre c). apply IH. by rewrite <- app_assoc.
Qed.

Lemma codable_lookup name choices (i : nat) c :
  codable name choices = true -> choices !! i = Some c ->
  find_token choices (Persistent c) 0 = Some (Z.of_nat i)
  /\ plain_token (Persistent c) = true
  /\ (length name + length (Persistent c) + 5 <= 255)%nat.
Proof.
  unfold codable. rewrite forallb_forall. intros Hall Hc.
  specialize (Hall (i, c)).
  assert (Hin : In (i, c) (imap (fun i c => (i, c)) choices)).
  { apply list_elem_of_In, elem_of_lookup_imap. by exists i, c. }
  apply Hall in Hin. apply andb_true_iff in Hin as [Hin Hlen].
  apply andb_true_iff in Hin as [Hfind Hplain].
  apply bool_decide_eq_true in Hfind. apply Nat.leb_le in Hlen. done.
Qed.

(** An entry with the default codec whose choices are codable: the line
    saved for a valid index is cut into the name and the token of the
    choice, and loading that token stores the index. *)
Lemma default_round_trip e name m m0 log fuel stale :
  PersistentName e = Some name -> SaveFunction e = None -> LoadFunction e = None ->
  ChoiceCount e = Z.of_nat (length (Choices e)) ->
  plain_name name = true -> codable name (Choices e) = true ->
  0 <= read_target e m < ChoiceCount e -> (261 <= fuel)%nat ->
  exists text tok line',
    Menu_SaveOption e m = Done text
    /\ tokenize fuel (text ++ NUL :: stale) = Done (line', Some (name, tok))
    /\ call_load e tok m0 log = (log, Done (write_target e (read_target e m) m0)).
Proof.
  intros Hname Hsave Hload Hcount Hplain Hcod Hv Hfuel.
  set (i := Z.to_nat (read_target e m)).
  destruct (lookup_lt_is_Some_2 (Choices e) i) as [c Hc]; [lia |].
  destruct (codable_lookup name (Choices e) i c Hcod Hc) as (Hfind & Htok & Hfit).
  destruct (saved_line_tokenized fuel name (Persistent c) (Pretty c ++ [LF]) stale
              Hplain Htok Hfit Hfuel) as (text & line' & Htext & Hline).
  exists text, (Persistent c), line'. split; [| split; [done |]].
  - unfold Menu_SaveOption, DefaultSaveFunction, choice_at.
    rewrite Hsave, Hname. fold i. rewrite Hc. cbn [mbind outcome_bind deref].
    by rewrite <- Htext.
  - unfold call_load, DefaultLoadFunction, lift, mbind, traced_bind.
    rewrite Hload, Hcount, Nat2Z.id.
    pose proof (DefaultLoad_scan_find e (Persistent c) m0 (Choices e) [] eq_refl)
      as Hscan.
    change (Z.of_nat (length (@nil Choice))) with 0 in Hscan.
    rewrite Hscan, Hfind. simpl.
    unfold mret, traced_ret. do 3 f_equal. lia.
Qed.

(** *** The codec of a button mapping *)

Lemma first_index_none p (n : nat) : forall i,
  (forall j, i <= j < i + Z.of_nat n -> p j = false) -> first_index p n i = None.
Proof.
  induction n as [| n IH]; intros i Hp; [reflexivity |].
  cbn [first_index]. rewrite Hp by lia. apply IH. intros j Hj. apply Hp. lia.
Qed.

Ltac button_cases k :=
  let H := fresh "Hcases" in
  assert (H : k = 0 \/ k = 1 \/ k = 2 \/ k = 3 \/ k = 4 \/ k = 5 \/ k = 6 \/ k = 7
              \/ k = 8 \/ k = 9 \/ k = 10 \/ k = 11 \/ k = 12 \/ k = 13 \/ k = 14
              \/ k = 15) by lia;
  repeat (destruct H as [-> | H]); [ .. | subst k ].

Lemma one_button_of_16_button k : 0 <= k < 16 -> one_button_of_16 (button k).
Proof.
  intros Hk. exists k. split; [done |]. intros j Hj. apply testbit_button. lia.
Qed.

Lemma SaveMapping_Temp_unbound v :
  ~ one_button_of_16 v -> SaveMapping_Temp v = str "x #None".
Proof.
  intros Hv. unfold SaveMapping_Temp.
  rewrite first_index_none; [reflexivity |].
  intros j Hj. simpl in Hj. apply Z.eqb_neq. intros ->.
  apply Hv. apply one_button_of_16_button. unfold OPENDINGUX_BUTTON_COUNT in Hj. lia.
Qed.

Lemma SaveMapping_Temp_button k :
  0 <= k < 16 ->
  SaveMapping_Temp (button k) = [ButtonSave k] ++ str " #" ++ ButtonText k
  /\ plain_token [ButtonSave k] = true
  /\ (forall e m0, LoadMappingFunction e [ButtonSave k] m0
                   = write_target e (button k) m0).
Proof.
  intros Hk. button_cases k; (split; [reflexivity | split; [reflexivity |]]);
    intros e m0; reflexivity.
Qed.

Lemma mapping_round_trip e name m m0 log fuel stale :
  PersistentName e = Some name ->
  SaveFunction e = Some F_SaveMappingFunction ->
  LoadFunction e = Some F_LoadMappingFunction ->
  plain_name name = true -> (length name <= 240)%nat ->
  (read_target e m = 0 \/ exists k, 0 <= k < 16 /\ read_target e m = button k) ->
  (261 <= fuel)%nat ->
  exists text tok line',
    Menu_SaveOption e m = Done text
    /\ tokenize fuel (text ++ NUL :: stale) = Done (line', Some (name, tok))
    /\ call_load e tok m0 log = (log, Done (write_target e (read_target e m) m0)).
Proof.
  intros Hname Hsave Hload Hplain Hlen Hv Hfuel.
  assert (Hshape : exists tok comment,
            SaveMapping_Temp (read_target e m) = tok ++ str " #" ++ comment
            /\ plain_token tok = true /\ length tok = 1%nat
            /\ LoadMappingFunction e tok m0 = write_target e (read_target e m) m0).
  { destruct Hv as [-> | (k & Hk & ->)].
    - exists (str "x"), (str "None"). by repeat split.
    - destruct (SaveMapping_Temp_button k Hk) as (HT & Hp & HL).
      exists [ButtonSave k], (ButtonText k). by repeat split. }
  destruct Hshape as (tok & comment & HT & Hp & Htl & HL).
  destruct (saved_line_tokenized fuel name tok (comment ++ [LF]) stale
              Hplain Hp ltac:(lia) Hfuel) as (text & line' & Htext & Hline).
  exists text, tok, line'. split; [| split; [done |]].
  - unfold Menu_SaveOption, SaveMappingFunction.
    rewrite Hsave, Hname. cbn [mbind outcome_bind deref].
    rewrite HT, <- Htext. by rewrite <- !app_assoc.
  - unfold call_load. rewrite Hload, HL. reflexivity.
Qed.

(** C10. A mapping entry whose target, a 32-bit value, does not have
    exactly one of its 16 low bits set (none of them, or two or more) is
    saved as [name = x #None]. That line is cut into the name and the
    token "x", and [LoadMappingFunction] given that token stores 0: the
    binding comes back unbound. *)
Theorem mapping_not_single_saved_as_x e name m m0 fuel stale :
  PersistentName e = Some name ->
  plain_name name = true -> (length name <= 240)%nat ->
  0 <= read_target e m < 2 ^ 32 ->
  ~ one_button_of_16 (read_target e m) ->
  (261 <= fuel)%nat ->
  SaveMappingFunction e m = Done (name ++ str " = x #None" ++ [LF])
  /\ (exists line',
        tokenize fuel ((name ++ str " = x #None" ++ [LF]) ++ NUL :: stale)
          = Done (line', Some (name, str "x")))
  /\ LoadMappingFunction e (str "x") m0 = write_target e 0 m0.
Proof.
  intros Hname Hplain Hlen Hrange Hv Hfuel.
  split; [| split; [| reflexivity]].
  - unfold SaveMappingFunction. rewrite Hname. cbn [mbind outcome_bind deref].
    rewrite SaveMapping_Temp_unbound by done.
    unfold snprintf. rewrite take_ge; [reflexivity |].
    rewrite !length_app. simpl. lia.
  - destruct (tokenize_saved_line fuel name (str "x")
                (str "None" ++ LF :: NUL :: stale) Hplain eq_refl)
      as (line' & Hline); [simpl; lia | simpl; lia |].
    exists line'. rewrite <- Hline. f_equal. by rewrite <- !app_assoc.
Qed.

(** *** The codec of a hotkey *)

Lemma ButtonSave_index k :
  0 <= k < 16 ->
  first_index (fun i => ceqb (ButtonSave k) (ButtonSave i)) OPENDINGUX_BUTTON_COUNT 0
    = Some k
  /\ token_char (ButtonSave k) = true
  /\ ceqb (ButtonSave k) "x" = false.
Proof. intros Hk. button_cases k; by repeat split. Qed.

Lemma testbit_above_16 v j : 0 <= v < 2 ^ 16 -> 16 <= j -> Z.testbit v j = false.
Proof.
  intros Hv Hj. destruct (Z.eq_dec v 0) as [-> | Hne]; [apply Z.bits_0 |].
  apply Z.bits_above_log2; [lia |].
  assert (Z.log2 v < 16) by (apply Z.log2_lt_pow2; lia). lia.
Qed.

(** Decides a goal on bits whose only non-boolean parts are comparisons. *)
Ltac in_range :=
  repeat match goal with
         | |- context [?a <=? ?b] => destruct (Z.leb_spec a b)
         | |- context [?a <? ?b] => destruct (Z.ltb_spec a b)
         end;
  try lia;
  repeat match goal with
         | |- context [Z.testbit ?a ?b] => destruct (Z.testbit a b)
         end;
  reflexivity.

(** The codes saved for the buttons [i .. i+n-1] are plain, none is "x",
    and loading them adds exactly those of the buttons that are in [v]. *)
Lemma hotkey_loops v (n : nat) : forall i acc,
  0 <= i -> i + Z.of_nat n <= 16 ->
  forallb token_char (SaveHotkey_loop v n i) = true
  /\ forallb (fun c => negb (ceqb c "x")) (SaveHotkey_loop v n i) = true
  /\ (length (SaveHotkey_loop v n i) <= n)%nat
  /\ (forall j, 0 <= j ->
        Z.testbit (LoadHotkey_loop (SaveHotkey_loop v n i) acc) j
          = Z.testbit acc j || (Z.testbit v j && (i <=? j) && (j <? i + Z.of_nat n))).
Proof.
  induction n as [| n IH]; intros i acc Hi Hn.
  - simpl. repeat split; try done. intros j Hj. in_range.
  - cbn [SaveHotkey_loop]. rewrite land_button_test, negb_involutive by done.
    destruct (IH (i + 1) (Z.lor acc (button i))) as (Htok & Hx & Hlen & Hbits); [lia.. |].
    destruct (IH (i + 1) acc) as (_ & _ & _ & Hbits'); [lia.. |].
    destruct (ButtonSave_index i) as (Hidx & Hc & Hcx); [lia |].
    destruct (Z.testbit v i) eqn:Hbit.
    + cbn [forallb length LoadHotkey_loop]. rewrite Hidx, Hc, Hcx, Htok, Hx.
      repeat split; try done; [lia |].
      intros j Hj. fold (button i). rewrite Hbits by done.
      rewrite Z.lor_spec, testbit_button by done.
      destruct (Z.eqb_spec i j) as [<- | Hne]; [rewrite Hbit |]; in_range.
    + repeat split; try done; [lia |].
      intros j Hj. rewrite Hbits' by done.
      destruct (Z.eqb_spec i j) as [<- | Hne]; [rewrite Hbit |]; in_range.
Qed.

Lemma hotkey_codes_load v :
  0 <= v < 2 ^ 16 ->
  LoadHotkey_loop (SaveHotkey_loop v OPENDINGUX_BUTTON_COUNT 0) 0 = v.
Proof.
  intros Hv.
  destruct (hotkey_loops v OPENDINGUX_BUTTON_COUNT 0 0) as (_ & _ & _ & Hbits);
    [lia | unfold OPENDINGUX_BUTTON_COUNT; lia |].
  apply Z.bits_inj'. intros j Hj. rewrite Hbits, Z.bits_0 by done.
  unfold OPENDINGUX_BUTTON_COUNT.
  destruct (Z.leb_spec 0 j); [| lia].
  destruct (Z.ltb_spec j (0 + Z.of_nat 16)); simpl.
  - by rewrite !andb_true_r.
  - rewrite andb_false_r. symmetry. apply testbit_above_16; lia.
Qed.

Lemma hotkey_round_trip e name m m0 log fuel stale :
  PersistentName e = Some name ->
  SaveFunction e = Some F_SaveHotkeyFunction ->
  LoadFunction e = Some F_LoadHotkeyFunction ->
  plain_name name = true -> (length name <= 230)%nat ->
  0 <= read_target e m < 2 ^ 16 ->
  (261 <= fuel)%nat ->
  exists text tok line',
    Menu_SaveOption e m = Done text
    /\ tokenize fuel (text ++ NUL :: stale) = Done (line', Some (name, tok))
    /\ call_load e tok m0 log = (log, Done (write_target e (read_target e m) m0)).
Proof.
  intros Hname Hsave Hload Hplain Hlen Hv Hfuel.
  set (v := read_target e m) in *.
  pose proof (hotkey_codes_load v Hv) as Hback.
  destruct (hotkey_loops v OPENDINGUX_BUTTON_COUNT 0 0) as (Htok & Hx & Hcl & _);
    [lia | unfold OPENDINGUX_BUTTON_COUNT; lia |].
  assert (Hshape : exists tok comment,
            SaveHotkey_Temp v = tok ++ str " #" ++ comment
            /\ plain_token tok = true /\ (length tok <= 16)%nat
            /\ LoadHotkeyFunction e tok m0 = write_target e v m0).
  { unfold SaveHotkey_Temp, LoadHotkeyFunction.
    destruct (SaveHotkey_loop v OPENDINGUX_BUTTON_COUNT 0) as [| c codes] eqn:Hcodes.
    - exists (str "x"), (str "None"). repeat split; [simpl; lia |].
      simpl in Hback. by rewrite <- Hback.
    - exists (c :: codes), (GetButtonsText v). repeat split.
      + unfold plain_token. by rewrite Htok.
      + done.
      + simpl in Hx. apply andb_true_iff in Hx as [Hcx _].
        cbn [hd]. rewrite Hcx. by rewrite Hback. }
  destruct Hshape as (tok & comment & HT & Hp & Htl & HL).
  destruct (saved_line_tokenized fuel name tok (comment ++ [LF]) stale
              Hplain Hp ltac:(lia) Hfuel) as (text & line' & Htext & Hline).
  exists text, tok, line'. split; [| split; [done |]].
  - unfold Menu_SaveOption, SaveHotkeyFunction.
    rewrite Hsave, Hname. cbn [mbind outcome_bind deref]. fold v.
    rewrite HT, <- Htext. by rewrite <- !app_assoc.
  - unfold call_load. rewrite Hload, HL. reflexivity.
Qed.

(** *** Every option entry of the menus *)

Lemma well_coded_round_trip e m m0 log fuel stale :
  well_coded e = true -> well_formed_value e (read_target e m) ->
  (261 <= fuel)%nat ->
  exists name text tok line',
    PersistentName e = Some name
    /\ Menu_SaveOption e m = Done text
    /\ tokenize fuel (text ++ NUL :: stale) = Done (line', Some (name, tok))
    /\ call_load e tok m0 log = (log, Done (write_target e (read_target e m) m0)).
Proof.
  unfold well_coded, well_formed_value. intros Hcoded Hwf Hfuel.
  destruct (PersistentName e) as [name |] eqn:Hname; [| done].
  exists name.
  destruct (SaveFunction e) as [[| |] |] eqn:Hsave;
    destruct (LoadFunction e) as [[| |] |] eqn:Hload; try done.
  - apply andb_true_iff in Hcoded as [Hplain Hlen]. apply Nat.leb_le in Hlen.
    destruct (mapping_round_trip e name m m0 log fuel stale)
      as (text & tok & line' & H); try done; [lia |].
    by exists text, tok, line'.
  - apply andb_true_iff in Hcoded as [Hplain Hlen]. apply Nat.leb_le in Hlen.
    destruct (hotkey_round_trip e name m m0 log fuel stale)
      as (text & tok & line' & H); try done.
    by exists text, tok, line'.
  - apply andb_true_iff in Hcoded as [Hcoded Hcount].
    apply andb_true_iff in Hcoded as [Hplain Hcod]. apply Z.eqb_eq in Hcount.
    destruct (default_round_trip e name m m0 log fuel stale)
      as (text & tok & line' & H); try done.
    by exists text, tok, line'.
Qed.

Lemma option_entries_well_coded (GCW_ZERO PERFORMANCE_IMPACTING_STATISTICS : bool) :
  forallb well_coded
    (option_entries (static_menus GCW_ZERO PERFORMANCE_IMPACTING_STATISTICS)) = true.
Proof. destruct GCW_ZERO, PERFORMANCE_IMPACTING_STATISTICS; vm_compute; reflexivity. Qed.

(** C4. For every option entry of the menus, with either setting of the
    build switches, and every well-formed value of its target (a valid
    index into its choices; for a mapping nothing or one of the 16
    buttons; for a hotkey any set of the 16 buttons): the line that the
    entry's save function writes is cut by the tokenizer into the entry's
    persistent name and a token, and the entry's load function given that
    token stores the value that was saved, without a warning. The
    statement is about the two codec functions of an entry and the
    tokenizer between them: the look-up of the entry by its name and the
    fix-up that follows the last line are not part of it. *)
Theorem settings_round_trip
    (GCW_ZERO PERFORMANCE_IMPACTING_STATISTICS : bool) e m m0 log fuel stale :
  In e (option_entries (static_menus GCW_ZERO PERFORMANCE_IMPACTING_STATISTICS)) ->
  well_formed_value e (read_target e m) ->
  (261 <= fuel)%nat ->
  exists name text tok line' m1,
    PersistentName e = Some name
    /\ Menu_SaveOption e m = Done text
    /\ tokenize fuel (text ++ NUL :: stale) = Done (line', Some (name, tok))
    /\ call_load e tok m0 log = (log, Done m1)
    /\ m1 = write_target e (read_target e m) m0
    /\ (forall v, Target e = T_Var v -> allocated m0 v ->
                  read_target e m1 = read_target e m).
Proof.
  intros Hin Hwf Hfuel.
  pose proof (option_entries_well_coded GCW_ZERO PERFORMANCE_IMPACTING_STATISTICS)
    as Hall.
  rewrite forallb_forall in Hall. specialize (Hall e Hin).
  destruct (well_coded_round_trip e m m0 log fuel stale Hall Hwf Hfuel)
    as (name & text & tok & line' & Hname & Hsave & Htok & Hload).
  exists name, text, tok, line', (write_target e (read_target e m) m0).
  repeat split; try done.
  intros v Hv Ha. by eapply read_write_target.
Qed.

(* ================================================================== *)
(** * Part II, continued: further properties of the code *)
(* ================================================================== *)

(** ** [FixUpSettings] *)

Lemma memcpy_prefix dst src (i : nat) :
  (i < length src)%nat -> memcpy dst src !! i = src !! i.
Proof. intros Hi. unfold memcpy. by rewrite lookup_app_l. Qed.

Lemma memcpy_twice dst src : memcpy (memcpy dst src) src = memcpy dst src.
Proof. unfold memcpy. by rewrite drop_app_length. Qed.

Lemma FixUpSettings_cases (m : Memory) :
  FixUpSettings m = m
  \/ FixUpSettings m
       = mkMemory (BootFromBIOS m) (ShowFPS m) (ScaleMode m) (UserFrameskip m)
           (FastForwardTarget m) (AnalogSensitivity m)
           (memcpy (KeypadRemapping m) DefaultKeypadRemapping) (Hotkeys m).
Proof.
  unfold FixUpSettings.
  match goal with |- context [if ?c then _ else _] => destruct c end; auto.
Qed.

(** X1. [FixUpSettings] applied twice gives what it gives applied once.
    When the built-in key map has 13 slots at least and none of its slots
    0 to 9 and 12 is zero, none of these slots of [KeypadRemapping] is zero
    after [FixUpSettings], whatever the table held before. *)
Theorem FixUpSettings_repairs (m : Memory) :
  FixUpSettings (FixUpSettings m) = FixUpSettings m
  /\ ((12 < length DefaultKeypadRemapping)%nat ->
      (forall i, i ∈ checked_slots -> DefaultKeypadRemapping !! i <> Some 0) ->
      forall i, i ∈ checked_slots ->
        KeypadRemapping (FixUpSettings m) !! i <> Some 0).
Proof.
  split.
  - destruct (FixUpSettings_cases m) as [Hm | Hm]; [by rewrite !Hm |].
    rewrite Hm.
    destruct (FixUpSettings_cases
                (mkMemory (BootFromBIOS m) (ShowFPS m) (ScaleMode m) (UserFrameskip m)
                   (FastForwardTarget m) (AnalogSensitivity m)
                   (memcpy (KeypadRemapping m) DefaultKeypadRemapping) (Hotkeys m)))
      as [-> | ->]; [done |].
    cbn [KeypadRemapping BootFromBIOS ShowFPS ScaleMode
         UserFrameskip FastForwardTarget AnalogSensitivity Hotkeys].
    by rewrite memcpy_twice.
  - intros Hlen Hdef i Hi. unfold FixUpSettings.
    match goal with |- context [if ?c then _ else _] => destruct c eqn:Hc end.
    + cbn [KeypadRemapping]. rewrite memcpy_prefix; [by apply Hdef |].
      unfold checked_slots in Hi.
      repeat (apply elem_of_cons in Hi as [-> | Hi]; [lia |]).
      by apply elem_of_nil in Hi.
    + repeat (apply orb_false_elim in Hc as [Hc ?]).
      unfold checked_slots in Hi.
      repeat (apply elem_of_cons in Hi as [-> | Hi];
              [intros Hz; rewrite nth_lookup, Hz in *; simpl in *; lia |]).
      by apply elem_of_nil in Hi.
Qed.

(** ** The settings file: names that are too long, files that cannot be
    opened, empty files *)

(** X2. When the name of the settings file would be longer than
    [MAX_PATH], [ReGBA_LoadSettings] traces one error and returns with the
    settings as they were, without the fix-up, and [ReGBA_SaveSettings]
    traces the same error, writes nothing and returns false. Otherwise,
    when the file cannot be opened for reading, the load traces one
    warning and still fixes the settings up; when the file is empty it
    traces nothing and fixes the settings up; and when the file cannot be
    opened for writing, the save traces one error and returns false. *)
Theorem settings_file_errors (menus : MenuId -> Menu) (fuel : nat) (MAX_PATH : Z)
    (main_path cfg_name line : list ascii) (m : Memory) (log : Log) :
  let fname := main_path ++ str "/" ++ cfg_name ++ str ".cfg" in
  let too_long := str "E: Somehow you hit the filename size limit :o" ++ [LF] in
  (MAX_PATH < Z.of_nat (length main_path) + Z.of_nat (length cfg_name) + 5 ->
   (forall files,
      ReGBA_LoadSettings menus fuel MAX_PATH main_path files line cfg_name m log
        = (log ++ [too_long], Done m))
   /\ (forall writable,
         ReGBA_SaveSettings menus fuel MAX_PATH main_path writable cfg_name m log
           = (log ++ [too_long], Done (false, None))))
  /\ (Z.of_nat (length main_path) + Z.of_nat (length cfg_name) + 5 <= MAX_PATH ->
      (forall files, files fname = None ->
         ReGBA_LoadSettings menus fuel MAX_PATH main_path files line cfg_name m log
           = (log ++ [str "W: Couldn't open file " ++ fname
                        ++ str " for loading." ++ [LF]],
              Done (FixUpSettings m)))
      /\ (forall files, files fname = Some [] -> (0 < fuel)%nat ->
            ReGBA_LoadSettings menus fuel MAX_PATH main_path files line cfg_name m log
              = (log, Done (FixUpSettings m)))
      /\ (forall writable, writable fname = false ->
            ReGBA_SaveSettings menus fuel MAX_PATH main_path writable cfg_name m log
              = (log ++ [str "E: Couldn't open file " ++ fname
                           ++ str " for writing." ++ [LF]],
                 Done (false, None)))).
Proof.
  intros fname too_long. split.
  - intros Hlong. split; intros ?.
    + unfold ReGBA_LoadSettings.
      replace (MAX_PATH <? _) with true by (symmetry; apply Z.ltb_lt; lia).
      reflexivity.
    + unfold ReGBA_SaveSettings.
      replace (MAX_PATH <? _) with true by (symmetry; apply Z.ltb_lt; lia).
      reflexivity.
  - intros Hfits. split; [| split].
    + intros files Hnone. unfold ReGBA_LoadSettings.
      replace (MAX_PATH <? _) with false by (symmetry; apply Z.ltb_ge; lia).
      fold fname. cbv zeta. unfold mbind, traced_bind. rewrite Hnone. reflexivity.
    + intros files Hempty Hfuel. unfold ReGBA_LoadSettings.
      replace (MAX_PATH <? _) with false by (symmetry; apply Z.ltb_ge; lia).
      fold fname. cbv zeta. unfold mbind, traced_bind. rewrite Hempty.
      destruct fuel as [| fuel']; [lia |]. reflexivity.
    + intros writable Hno. unfold ReGBA_SaveSettings.
      replace (MAX_PATH <? _) with false by (symmetry; apply Z.ltb_ge; lia).
      fold fname. cbv zeta. rewrite Hno. reflexivity.
Qed.

(** ** The texts of buttons and button sets *)

Lemma first_index_spec (p : Z -> bool) (n : nat) : forall i,
  match first_index p n i with
  | Some k => i <= k < i + Z.of_nat n /\ p k = true
              /\ forall j, i <= j < k -> p j = false
  | None => forall j, i <= j < i + Z.of_nat n -> p j = false
  end.
Proof.
  induction n as [| n IH]; intros i.
  - simpl. intros j Hj. lia.
  - cbn [first_index]. destruct (p i) eqn:Hp.
    + repeat split; [lia | lia | done | intros j Hj; lia].
    + specialize (IH (i + 1)). destruct (first_index p n (i + 1)) as [k |].
      * destruct IH as (Hk & Hpk & Hbefore). repeat split; [lia | lia | done |].
        intros j Hj. destruct (Z.eq_dec j i) as [-> |]; [done | apply Hbefore; lia].
      * intros j Hj. destruct (Z.eq_dec j i) as [-> |]; [done | apply IH; lia].
Qed.

Lemma first_index_button k :
  0 <= k < 16 ->
  first_index (fun i => button k =? Z.shiftl 1 i) OPENDINGUX_BUTTON_COUNT 0 = Some k.
Proof. intros Hk. button_cases k; reflexivity. Qed.

Lemma button_eqb_0 k : 0 <= k -> (button k =? 0) = false.
Proof.
  intros Hk. apply Z.eqb_neq. rewrite button_pow2 by lia. apply Z.pow_nonzero; lia.
Qed.

Lemma GetButtonText_button k :
  0 <= k < 16 -> GetButtonText (button k) = (ButtonText k, true).
Proof.
  intros Hk. unfold GetButtonText.
  by rewrite button_eqb_0, first_index_button by lia.
Qed.

(** X3. [GetButtonText] sets [*Valid] exactly when the value is zero or
    one of the 16 buttons alone; it returns "None" for zero, the name of
    the button for a button, and "Invalid" whenever [*Valid] is false. *)
Theorem GetButtonText_valid (Button : Z) :
  (snd (GetButtonText Button) = true
   <-> Button = 0 \/ exists k, 0 <= k < 16 /\ Button = button k)
  /\ GetButtonText 0 = (str "None", true)
  /\ (forall k, 0 <= k < 16 -> GetButtonText (button k) = (ButtonText k, true))
  /\ (snd (GetButtonText Button) = false
      -> fst (GetButtonText Button) = str "Invalid").
Proof.
  pose proof GetButtonText_button as Hbutton.
  repeat split.
  - unfold GetButtonText. destruct (Z.eqb_spec Button 0) as [-> | Hnz]; [by left |].
    pose proof (first_index_spec (fun i => Button =? Z.shiftl 1 i)
                  OPENDINGUX_BUTTON_COUNT 0) as Hspec.
    destruct (first_index _ _ _) as [k |]; [| done].
    intros _. right. exists k. destruct Hspec as (Hk & Heq & _).
    apply Z.eqb_eq in Heq. unfold OPENDINGUX_BUTTON_COUNT in Hk.
    split; [lia | exact Heq].
  - intros [-> | (k & Hk & ->)]; [reflexivity | by rewrite Hbutton].
  - exact Hbutton.
  - unfold GetButtonText. destruct (Button =? 0); [done |].
    destruct (first_index _ _ _); done.
Qed.

Lemma join_plus_cons x rest :
  join_plus (x :: rest) = x ++ concat ((fun y => "+"%char :: y) <$> rest).
Proof.
  revert x. induction rest as [| y rest IH]; intros x.
  - simpl. by rewrite app_nil_r.
  - change (join_plus (x :: y :: rest)) with (x ++ "+"%char :: join_plus (y :: rest)).
    rewrite IH. reflexivity.
Qed.

Lemma GetButtonsText_loop_spec Buttons (n : nat) : forall i AfterFirst Result,
  0 <= i ->
  GetButtonsText_loop Buttons n i AfterFirst Result
    = Result ++
      (let names := ButtonText <$> filter (fun j => Z.testbit Buttons j = true)
                                     (seqZ i (Z.of_nat n)) in
       if AfterFirst then concat ((fun y => "+"%char :: y) <$> names)
       else join_plus names).
Proof.
  induction n as [| n IH]; intros i AfterFirst Result Hi.
  - simpl. destruct AfterFirst; by rewrite app_nil_r.
  - cbn [GetButtonsText_loop]. rewrite land_button_test, negb_involutive by done.
    rewrite (seqZ_cons i (Z.of_nat (S n))) by lia.
    replace (Z.pred (Z.of_nat (S n))) with (Z.of_nat n) by lia.
    replace (Z.succ i) with (i + 1) by lia.
    rewrite filter_cons.
    destruct (Z.testbit Buttons i) eqn:Hbit.
    + rewrite decide_True by done. rewrite IH by lia. cbv zeta.
      rewrite fmap_cons. destruct AfterFirst.
      * simpl. by rewrite <- !app_assoc.
      * rewrite join_plus_cons. by rewrite <- app_assoc.
    + rewrite decide_False by done. by rewrite IH by lia.
Qed.

(** X4. For a set other than zero, [GetButtonsText] stores the names of
    the buttons of the set among the 16, by rising number, with a plus sign
    between two names; bits from 16 up play no part, so a value with none
    of the 16 buttons gives the empty text. For zero it stores "None", and
    for one of the 16 buttons alone the text that [GetButtonText]
    returns. *)
Theorem GetButtonsText_joined (Buttons : Z) :
  GetButtonsText Buttons
    = (if Buttons =? 0 then str "None"
       else join_plus (ButtonText <$> buttons_in Buttons))
  /\ (forall k, 0 <= k < 16 ->
        GetButtonsText (button k) = fst (GetButtonText (button k))).
Proof.
  assert (Hjoin : forall B, GetButtonsText B
                    = (if B =? 0 then str "None"
                       else join_plus (ButtonText <$> buttons_in B))).
  { intros B. unfold GetButtonsText. destruct (B =? 0); [reflexivity |].
    by rewrite GetButtonsText_loop_spec. }
  split; [apply Hjoin |].
  intros k Hk. rewrite Hjoin.
  rewrite GetButtonText_button, button_eqb_0 by lia.
  button_cases k; reflexivity.
Qed.

Lemma GetButtonsText_loop_length Buttons (n : nat) : forall i AfterFirst Result,
  (length (GetButtonsText_loop Buttons n i AfterFirst Result)
   <= length Result + text_room n i)%nat.
Proof.
  induction n as [| n IH]; intros i AfterFirst Result.
  - simpl. lia.
  - cbn [GetButtonsText_loop text_room].
    destruct (negb (Z.land Buttons (Z.shiftl 1 i) =? 0)).
    + etransitivity; [apply IH |]. destruct AfterFirst.
      * rewrite !length_app. simpl. lia.
      * rewrite !length_app. lia.
    + etransitivity; [apply IH |]. lia.
Qed.

Lemma text_room_16 :
  text_room 16 0
    = (113 + length LEFT_FACE_BUTTON_NAME + length TOP_FACE_BUTTON_NAME)%nat.
Proof. lazy -[length Nat.add]. simpl. lia. Qed.

Lemma GetButtonsText_length Buttons :
  (length (GetButtonsText Buttons)
   <= 113 + length LEFT_FACE_BUTTON_NAME + length TOP_FACE_BUTTON_NAME)%nat.
Proof.
  unfold GetButtonsText. destruct (Buttons =? 0); [simpl; lia |].
  etransitivity; [apply GetButtonsText_loop_length |].
  unfold OPENDINGUX_BUTTON_COUNT. rewrite text_room_16. simpl. lia.
Qed.

Lemma SaveHotkey_loop_length target (n : nat) : forall i,
  (length (SaveHotkey_loop target n i) <= n)%nat.
Proof.
  induction n as [| n IH]; intros i; [simpl; lia |].
  cbn [SaveHotkey_loop]. specialize (IH (i + 1)).
  destruct (negb _); simpl; lia.
Qed.

(** X5. The arrays [Temp] are large enough. When the names of the left
    and top face buttons have 28 bytes at most, what [SaveMappingFunction]
    stores in [Temp[32]] fits with its NUL, for every value of the
    target; when the two names have 60 bytes together at most, so does
    what [SaveHotkeyFunction] stores in [Temp[192]]. *)
Theorem Temp_arrays_suffice :
  ((length LEFT_FACE_BUTTON_NAME <= 28)%nat ->
   (length TOP_FACE_BUTTON_NAME <= 28)%nat ->
   forall target, (length (SaveMapping_Temp target) + 1 <= 32)%nat)
  /\ ((length LEFT_FACE_BUTTON_NAME + length TOP_FACE_BUTTON_NAME <= 60)%nat ->
      forall target, (length (SaveHotkey_Temp target) + 1 <= 192)%nat).
Proof.
  split.
  - intros HL HT target. unfold SaveMapping_Temp.
    pose proof (first_index_spec (fun i => target =? Z.shiftl 1 i)
                  OPENDINGUX_BUTTON_COUNT 0) as Hspec.
    destruct (first_index _ _ _) as [k |]; [| simpl; lia].
    destruct Hspec as (Hk & _ & _). unfold OPENDINGUX_BUTTON_COUNT in Hk.
    assert (Hk' : 0 <= k < 16) by lia. clear Hk.
    button_cases k; lazy -[length Nat.add Nat.le]; simpl; lia.
  - intros Hnames target. unfold SaveHotkey_Temp.
    pose proof (SaveHotkey_loop_length target OPENDINGUX_BUTTON_COUNT 0) as Hcodes.
    pose proof (GetButtonsText_length target) as Htext.
    destruct (SaveHotkey_loop _ _ _) as [| c codes]; [simpl; lia |].
    rewrite !length_app. unfold OPENDINGUX_BUTTON_COUNT in Hcodes.
    simpl in *. lia.
Qed.

(** ** [print_u64] over its whole range *)

(** X6. Into [char Temp[21]], whatever it held, [print_u64] stores for
    every unsigned 64-bit value its decimal digits, 20 at most, and a NUL
    after them; the bytes after that NUL stay as they were. *)
Theorem print_u64_fits (buf : list ascii) (v : Z) :
  length buf = 21%nat -> 0 <= v <= UINT64_MAX ->
  exists ds,
    print_u64 buf 0 v = ds ++ NUL :: drop (S (length ds)) buf
    /\ (length ds <= 20)%nat
    /\ decimal_of v ds.
Proof.
  intros Hbuf Hv. unfold UINT64_MAX in Hv.
  destruct (unsigned_digits_spec v) as (Hne & Hd & Hn & Hz & Hval); [lia |].
  pose proof (unsigned_digits_length 20 v) as Hlen.
  exists (unsigned_digits v). split; [| split].
  - rewrite print_u64_spec by (simpl; lia).
    change (take (Z.to_nat 0) buf) with (@nil ascii). simpl.
    do 3 f_equal. lia.
  - apply Hlen; lia.
  - exists (unsigned_digits v).
    destruct (Z.ltb_spec v 0); [lia |].
    repeat split; try done. rewrite Hval. lia.
Qed.

(** ** The loaders *)

Lemma ButtonSave_inj j k :
  0 <= j < 16 -> 0 <= k < 16 -> ButtonSave j = ButtonSave k -> j = k.
Proof.
  intros Hj Hk. button_cases j; button_cases k; intros H;
    first [reflexivity | by vm_compute in H].
Qed.

Lemma code_index (c : ascii) :
  match first_index (fun i => ceqb c (ButtonSave i)) OPENDINGUX_BUTTON_COUNT 0 with
  | Some i => 0 <= i < 16 /\ ButtonSave i = c
  | None => forall j, 0 <= j < 16 -> ButtonSave j <> c
  end.
Proof.
  pose proof (first_index_spec (fun i => ceqb c (ButtonSave i))
                OPENDINGUX_BUTTON_COUNT 0) as Hspec.
  destruct (first_index _ _ _) as [i |].
  - destruct Hspec as (Hi & Heq & _). unfold OPENDINGUX_BUTTON_COUNT in Hi.
    split; [lia |]. symmetry. by apply Ascii.eqb_eq.
  - intros j Hj Heq. specialize (Hspec j). unfold OPENDINGUX_BUTTON_COUNT in Hspec.
    rewrite <- Heq in Hspec. unfold ceqb in Hspec.
    rewrite Ascii.eqb_refl in Hspec. by specialize (Hspec ltac:(simpl; lia)).
Qed.

Lemma LoadHotkey_loop_bits (Value : list ascii) : forall Hotkey j,
  0 <= j ->
  Z.testbit (LoadHotkey_loop Value Hotkey) j = true
  <-> Z.testbit Hotkey j = true \/ (j < 16 /\ ButtonSave j ∈ Value).
Proof.
  induction Value as [| c Value IH]; intros Hotkey j Hj.
  - simpl. split; [by left |]. intros [H | [_ H]]; [done | by apply elem_of_nil in H].
  - cbn [LoadHotkey_loop]. rewrite IH by done.
    pose proof (code_index c) as Hc.
    destruct (first_index _ _ _) as [i |].
    + destruct Hc as [Hi Hci].
      change (Z.shiftl 1 i) with (button i).
      rewrite Z.lor_spec, testbit_button by lia. split.
      * intros [H | [Hlt Hin]].
        -- apply orb_true_iff in H as [H | H]; [by left |].
           apply Z.eqb_eq in H. subst j. right. split; [lia |].
           rewrite Hci. apply list_elem_of_here.
        -- right. split; [done |]. by apply list_elem_of_further.
      * intros [H | [Hlt Hin]].
        -- left. by rewrite H.
        -- apply elem_of_cons in Hin as [Heq | Hin]; [| right; by split].
           left. rewrite <- Hci in Heq. apply ButtonSave_inj in Heq; [| lia | lia].
           subst j. rewrite Z.eqb_refl. apply orb_true_r.
    + split.
      * intros [H | [Hlt Hin]]; [by left |]. right. split; [done |].
        by apply list_elem_of_further.
      * intros [H | [Hlt Hin]]; [by left |].
        apply elem_of_cons in Hin as [Heq | Hin]; [| right; by split].
        exfalso. by apply (Hc j ltac:(lia)).
Qed.

Lemma LoadHotkey_loop_range (Value : list ascii) : forall Hotkey,
  0 <= Hotkey < 2 ^ 16 -> 0 <= LoadHotkey_loop Value Hotkey < 2 ^ 16.
Proof.
  induction Value as [| c Value IH]; intros Hotkey HH; [done |].
  cbn [LoadHotkey_loop]. apply IH.
  pose proof (code_index c) as Hc.
  destruct (first_index _ _ _) as [i |]; [| done].
  destruct Hc as [Hi _]. apply lor_in_range; [lia | done |].
  rewrite Z.shiftl_1_l. split; [apply Z.pow_nonneg; lia |].
  apply Z.pow_lt_mono_r; lia.
Qed.

(** X7. [LoadHotkeyFunction] stores a set of the 16 buttons. When the
    text starts with "x" it stores the empty set, whatever follows.
    Otherwise button [j] is in the set exactly when its code occurs in the
    text: the order of the codes, their repetition and any other character
    play no part. *)
Theorem LoadHotkeyFunction_codes (e : MenuEntry) (v : Var) (Value : list ascii)
    (m : Memory) :
  Target e = T_Var v -> allocated m v ->
  let Hotkey := read_target e (LoadHotkeyFunction e Value m) in
  0 <= Hotkey < 2 ^ 16
  /\ (hd NUL Value = "x"%char -> Hotkey = 0)
  /\ (hd NUL Value <> "x"%char ->
      forall j, 0 <= j ->
        Z.testbit Hotkey j = true <-> j < 16 /\ ButtonSave j ∈ Value).
Proof.
  intros He Hv Hotkey. subst Hotkey. unfold LoadHotkeyFunction.
  erewrite read_write_target by eauto.
  destruct (ceqb (hd NUL Value) "x") eqn:Hx; cbn [negb].
  - apply Ascii.eqb_eq in Hx. repeat split; try lia; try done.
  - apply Ascii.eqb_neq in Hx. split; [by apply LoadHotkey_loop_range |]. split; [done |].
    intros _ j Hj. rewrite LoadHotkey_loop_bits by done.
    rewrite Z.bits_0. split; [by intros [? | ?] | by right].
Qed.

(** X8. [LoadMappingFunction] looks at the first character only. When
    that is the code of one of the 16 buttons it stores that button alone;
    when it is anything else, "x" and the end of the text included, it
    stores zero. It never stores a set of two or more buttons. *)
Theorem LoadMappingFunction_single (e : MenuEntry) (Value : list ascii) (m : Memory) :
  (exists k, 0 <= k < 16 /\ hd NUL Value = ButtonSave k
             /\ LoadMappingFunction e Value m = write_target e (button k) m)
  \/ ((forall k, 0 <= k < 16 -> hd NUL Value <> ButtonSave k)
      /\ LoadMappingFunction e Value m = write_target e 0 m).
Proof.
  unfold LoadMappingFunction. cbv zeta.
  pose proof (code_index (hd NUL Value)) as Hc.
  destruct (ceqb (hd NUL Value) "x") eqn:Hx; cbn [negb].
  - right. split; [| done]. intros k Hk. apply Ascii.eqb_eq in Hx. rewrite Hx.
    button_cases k; discriminate.
  - destruct (first_index _ _ _) as [i |].
    + left. exists i. destruct Hc as [Hi Hci]. split; [done |]. split; [done | reflexivity].
    + right. split; [| done]. intros k Hk Heq. by apply (Hc k Hk).
Qed.

Lemma DefaultLoad_scan_none e Value m (remaining : nat) : forall i,
  0 <= i ->
  (Z.to_nat i + remaining <= length (Choices e))%nat ->
  (forall j c, i <= j < i + Z.of_nat remaining ->
     Choices e !! Z.to_nat j = Some c -> strcasecmp_eq (Persistent c) Value = false) ->
  DefaultLoad_scan e Value m remaining i = Done None.
Proof.
  induction remaining as [| remaining IH]; intros i Hi Hlen Hno; [done |].
  cbn [DefaultLoad_scan]. unfold choice_at.
  destruct (lookup_lt_is_Some_2 (Choices e) (Z.to_nat i)) as [c Hc]; [lia |].
  rewrite Hc. cbn [mbind outcome_bind].
  rewrite (Hno i c) by (done || lia).
  apply IH; [lia | lia |]. intros j c' Hj. apply Hno. lia.
Qed.

Lemma DefaultLoad_scan_first e Value m (remaining : nat) : forall i k c,
  0 <= i <= k -> k < i + Z.of_nat remaining ->
  Choices e !! Z.to_nat k = Some c ->
  strcasecmp_eq (Persistent c) Value = true ->
  (forall j c', i <= j < k ->
     Choices e !! Z.to_nat j = Some c' -> strcasecmp_eq (Persistent c') Value = false) ->
  DefaultLoad_scan e Value m remaining i = Done (Some (write_target e k m)).
Proof.
  induction remaining as [| remaining IH]; intros i k c Hik Hk Hc Hmatch Hno; [lia |].
  cbn [DefaultLoad_scan]. unfold choice_at.
  destruct (Z.eq_dec i k) as [-> | Hne].
  - rewrite Hc. cbn [mbind outcome_bind]. by rewrite Hmatch.
  - destruct (lookup_lt_is_Some_2 (Choices e) (Z.to_nat i)) as [c' Hc'].
    { apply lookup_lt_Some in Hc. lia. }
    rewrite Hc'. cbn [mbind outcome_bind].
    rewrite (Hno i c') by (done || lia).
    apply (IH (i + 1) k c); try done; try lia.
    intros j c'' Hj. apply Hno. lia.
Qed.

(** X9. [DefaultLoadFunction], for an entry with a persistent name whose
    [ChoiceCount] choices exist: when a choice among them has the given
    text as its persistent text, letter case apart, the index of the first
    such choice is stored and nothing is traced; when none has, the
    setting stays as it was and one warning that names the text and the
    option is traced. An index from [ChoiceCount] up is never stored. *)
Theorem DefaultLoadFunction_first_match (e : MenuEntry) (name Value : list ascii)
    (m : Memory) (log : Log) :
  PersistentName e = Some name ->
  0 <= ChoiceCount e <= Z.of_nat (length (Choices e)) ->
  (forall k c,
     0 <= k < ChoiceCount e ->
     Choices e !! Z.to_nat k = Some c ->
     strcasecmp_eq (Persistent c) Value = true ->
     (forall j c', 0 <= j < k -> Choices e !! Z.to_nat j = Some c' ->
                   strcasecmp_eq (Persistent c') Value = false) ->
     DefaultLoadFunction e Value m log = (log, Done (write_target e k m)))
  /\ ((forall j c', 0 <= j < ChoiceCount e -> Choices e !! Z.to_nat j = Some c' ->
                    strcasecmp_eq (Persistent c') Value = false) ->
      DefaultLoadFunction e Value m log
        = (log ++ [str "W: Value '" ++ Value ++ str "' for option '" ++ name
                     ++ str "' not valid; ignored"],
           Done m)).
Proof.
  intros Hname Hcount. split.
  - intros k c Hk Hc Hmatch Hno.
    unfold DefaultLoadFunction, mbind, traced_bind, lift.
    rewrite (DefaultLoad_scan_first e Value m _ 0 k c); try done; try lia.
  - intros Hno. unfold DefaultLoadFunction, mbind, traced_bind, lift.
    rewrite DefaultLoad_scan_none; [| lia | lia |].
    + rewrite Hname. reflexivity.
    + intros j c Hj. apply Hno. lia.
Qed.

(** ** The captures, read backwards *)

Lemma await_release_inv frames : forall rest,
  await_release frames = Done rest ->
  exists held, frames = held ++ 0 :: rest /\ Forall (fun b => b <> 0) held.
Proof.
  induction frames as [| b frames IH]; intros rest H; [done |].
  cbn [await_release] in H. destruct (Z.eqb_spec b 0) as [-> | Hb]; simpl in H.
  - injection H as <-. by exists [].
  - destruct (IH rest H) as (held & -> & Hheld).
    exists (b :: held). split; [done | by constructor].
Qed.

Lemma await_press_inv frames : forall first rest,
  await_press frames = Done (first, rest) ->
  exists idle, frames = replicate idle 0 ++ first :: rest /\ first <> 0.
Proof.
  induction frames as [| b frames IH]; intros first rest H; [done |].
  cbn [await_press] in H. destruct (Z.eqb_spec b 0) as [-> | Hb].
  - destruct (IH first rest H) as (idle & -> & Hfirst).
    by exists (S idle).
  - injection H as <- <-. by exists 0%nat.
Qed.

Lemma GrabButton_accumulate_inv frames : forall total result rest,
  GrabButton_accumulate total frames = Done (result, rest) ->
  exists later, frames = later ++ 0 :: rest /\ Forall (fun b => b <> 0) later
                /\ result = fold_left Z.lor later total.
Proof.
  induction frames as [| b frames IH]; intros total result rest H; [done |].
  cbn [GrabButton_accumulate] in H. destruct (Z.eqb_spec b 0) as [-> | Hb]; simpl in H.
  - injection H as <- <-. by exists [].
  - destruct (IH _ _ _ H) as (later & -> & Hlater & ->).
    exists (b :: later). split; [done |]. split; [by constructor | done].
Qed.

Lemma GrabButtons_accumulate_inv frames : forall total result rest,
  GrabButtons_accumulate total frames = Done (result, rest) ->
  exists later, frames = later ++ 0 :: rest /\ Forall (fun b => b <> 0) later
                /\ result = fold_left GrabButtons_merge later total.
Proof.
  induction frames as [| b frames IH]; intros total result rest H; [done |].
  cbn [GrabButtons_accumulate] in H. destruct (Z.eqb_spec b 0) as [-> | Hb]; simpl in H.
  - injection H as <- <-. by exists [].
  - destruct (IH _ _ _ H) as (later & -> & Hlater & ->).
    exists (b :: later). split; [done |]. split; [by constructor | done].
Qed.

Lemma fold_lor_nonzero later : forall first,
  first <> 0 -> fold_left Z.lor later first <> 0.
Proof.
  induction later as [| b later IH]; intros first Hfirst; [done |].
  simpl. apply IH. intros H. apply Z.lor_eq_0_iff in H. tauto.
Qed.

Lemma GrabButtons_merge_nonzero T S : T <> 0 -> S <> 0 -> GrabButtons_merge T S <> 0.
Proof.
  intros HT HS. unfold GrabButtons_merge.
  destruct (Z.eqb_spec (Z.lor S T) S) as [Heq | _].
  - intros H. apply Z.lor_eq_0_iff in H. tauto.
  - by destruct (Z.lor S T =? T).
Qed.

Lemma fold_merge_nonzero later : forall first,
  first <> 0 -> Forall (fun b => b <> 0) later ->
  fold_left GrabButtons_merge later first <> 0.
Proof.
  induction later as [| b later IH]; intros first Hfirst Hlater; [done |].
  inversion Hlater; subst. simpl. apply IH; [| done].
  by apply GrabButtons_merge_nonzero.
Qed.

(** X10. A capture returns only for a gesture. [GrabButton] returns a set
    and the samples left exactly when the samples it was given are: some
    with buttons held, one without, any number without, one or more with
    buttons held, one without, and then the samples left; the set is then
    the union of the last run. The same holds of [GrabButtons], with its
    merge rule in place of the union. Neither ever returns the empty
    set. *)
Theorem capture_returns_for_gestures (frames : list Z) (total : Z) (rest : list Z) :
  (GrabButton frames = Done (total, rest)
   <-> exists held idle first later,
         frames = gesture held idle first later rest
         /\ Forall (fun b => b <> 0) held /\ Forall (fun b => b <> 0) (first :: later)
         /\ total = fold_left Z.lor later first)
  /\ (GrabButtons frames = Done (total, rest)
      <-> exists held idle first later,
            frames = gesture held idle first later rest
            /\ Forall (fun b => b <> 0) held /\ Forall (fun b => b <> 0) (first :: later)
            /\ total = fold_left GrabButtons_merge later first)
  /\ (GrabButton frames = Done (total, rest) -> total <> 0)
  /\ (GrabButtons frames = Done (total, rest) -> total <> 0).
Proof.
  assert (H1 : GrabButton frames = Done (total, rest) ->
               exists held idle first later,
                 frames = gesture held idle first later rest
                 /\ Forall (fun b => b <> 0) held
                 /\ Forall (fun b => b <> 0) (first :: later)
                 /\ total = fold_left Z.lor later first).
  { unfold GrabButton. intros H.
    destruct (await_release frames) as [frames1 |] eqn:E1; [| done].
    cbn [mbind outcome_bind] in H.
    destruct (await_press frames1) as [[first frames2] |] eqn:E2; [| done].
    cbn [mbind outcome_bind] in H.
    apply await_release_inv in E1 as (held & -> & Hheld).
    apply await_press_inv in E2 as (idle & -> & Hfirst).
    apply GrabButton_accumulate_inv in H as (later & -> & Hlater & ->).
    exists held, idle, first, later. repeat split; try done. by constructor. }
  assert (H2 : GrabButtons frames = Done (total, rest) ->
               exists held idle first later,
                 frames = gesture held idle first later rest
                 /\ Forall (fun b => b <> 0) held
                 /\ Forall (fun b => b <> 0) (first :: later)
                 /\ total = fold_left GrabButtons_merge later first).
  { unfold GrabButtons. intros H.
    destruct (await_release frames) as [frames1 |] eqn:E1; [| done].
    cbn [mbind outcome_bind] in H.
    destruct (await_press frames1) as [[first frames2] |] eqn:E2; [| done].
    cbn [mbind outcome_bind] in H.
    apply await_release_inv in E1 as (held & -> & Hheld).
    apply await_press_inv in E2 as (idle & -> & Hfirst).
    apply GrabButtons_accumulate_inv in H as (later & -> & Hlater & ->).
    exists held, idle, first, later. repeat split; try done. by constructor. }
  repeat split.
  - exact H1.
  - intros (held & idle & first & later & -> & Hheld & Hpressed & ->).
    by apply GrabButton_gesture.
  - exact H2.
  - intros (held & idle & first & later & -> & Hheld & Hpressed & ->).
    by apply GrabButtons_gesture.
  - intros H. destruct (H1 H) as (held & idle & first & later & _ & _ & Hp & ->).
    inversion Hp; subst. by apply fold_lor_nonzero.
  - intros H. destruct (H2 H) as (held & idle & first & later & _ & _ & Hp & ->).
    inversion Hp; subst. by apply fold_merge_nonzero.
Qed.

Lemma GrabButtons_merge_in_range T S n :
  0 <= n -> 0 <= T < 2 ^ n -> 0 <= S < 2 ^ n -> 0 <= GrabButtons_merge T S < 2 ^ n.
Proof.
  intros Hn HT HS. unfold GrabButtons_merge.
  destruct (Z.lor S T =? S); [by apply lor_in_range |].
  by destruct (Z.lor S T =? T).
Qed.

Lemma fold_merge_in_range later : forall first,
  Forall (fun b => 0 < b < 2 ^ 32) (first :: later) ->
  0 <= fold_left GrabButtons_merge later first < 2 ^ 32.
Proof.
  induction later as [| b later IH]; intros first H.
  - inversion H; subst. simpl. lia.
  - inversion H as [| ? ? Hfirst Hrest]; subst.
    inversion Hrest as [| ? ? Hb Hlater]; subst.
    simpl. assert (Hm := GrabButtons_merge_in_range first b 32).
    destruct (GrabButtons_merge_rule first b) as (R1 & R2 & R3).
    apply IH. constructor; [| done].
    assert (GrabButtons_merge first b <> 0)
      by (apply GrabButtons_merge_nonzero; lia).
    lia.
Qed.

(** X11. [ActionSetOrClearHotkey], for a gesture whose samples are 32-bit
    values: the set that the capture returns is stored in the target of
    the active entry, unless it is [OPENDINGUX_BUTTON_FACE_DOWN] alone, in
    which case zero is stored. The active menu and entry stay as they
    were, the samples of the gesture are used up, and the emulator is not
    called. *)
Theorem hotkey_set_or_clear (menus : MenuId -> Menu) (menu : MenuId) (i : Z)
    (e : MenuEntry) (w : World) (held : list Z) (idle : nat) (first : Z)
    (later tail : list Z) :
  entry_at (menus menu) i = Done (Some e) ->
  frames_ahead w = gesture held idle first later tail ->
  Forall (fun b => b <> 0) held ->
  Forall (fun b => 0 < b < 2 ^ 32) (first :: later) ->
  let total := fold_left GrabButtons_merge later first in
  ActionSetOrClearHotkey menus menu i w
    = Done (Some menu, i,
            mkWorld (write_target e
                       (if total =? OPENDINGUX_BUTTON_FACE_DOWN then 0 else total)
                       (memory w))
              tail (calls w)).
Proof.
  intros He Hframes Hheld Hpressed total.
  unfold ActionSetOrClearHotkey. rewrite He, Hframes.
  cbn [mbind outcome_bind deref].
  rewrite GrabButtons_gesture; [| done |].
  - cbn [mbind outcome_bind]. fold total.
    pose proof (fold_merge_in_range later first Hpressed) as Hrange. fold total in Hrange.
    unfold u32. rewrite Z.mod_small by done. reflexivity.
  - eapply Forall_impl; [exact Hpressed |]. intros b Hb. simpl in Hb. lia.
Qed.

(** ** Moving in a menu *)

Lemma listed_shape (l : list (option MenuEntry)) :
  exists tail, l = (Some <$> listed l) ++ tail
               /\ (tail = [] \/ exists rest, tail = None :: rest).
Proof.
  induction l as [| [e |] l IH].
  - exists []. split; [done | by left].
  - destruct IH as (tail & Hl & Htail). exists tail. split; [| done].
    cbn [listed fmap list_fmap app]. by rewrite <- Hl.
  - exists (None :: l). split; [done | right; by exists l].
Qed.

Lemma listed_terminated es rest : listed ((Some <$> es) ++ None :: rest) = es.
Proof. induction es as [| e es IH]; simpl; [done | by f_equal]. Qed.

Lemma listed_unterminated es : listed (Some <$> es) = es.
Proof. induction es as [| e es IH]; simpl; [done | by f_equal]. Qed.

Lemma entry_at_listed (menu : Menu) es tail i :
  Entries menu = (Some <$> es) ++ tail -> 0 <= i < Z.of_nat (length es) ->
  exists e, es !! Z.to_nat i = Some e /\ entry_at menu i = Done (Some e).
Proof.
  intros Hl Hi. unfold entry_at. rewrite Hl.
  destruct (lookup_lt_is_Some_2 es (Z.to_nat i)) as [e He]; [lia |].
  exists e. split; [done |].
  rewrite lookup_app_l by (rewrite length_fmap; lia).
  by rewrite list_lookup_fmap, He.
Qed.

Lemma entry_at_end (menu : Menu) es tail :
  Entries menu = (Some <$> es) ++ tail ->
  entry_at menu (Z.of_nat (length es))
    = match tail with
      | [] => Trap ReadPastEnd
      | p :: _ => Done p
      end.
Proof.
  intros Hl. unfold entry_at. rewrite Hl, Nat2Z.id.
  rewrite lookup_app_r by (by rewrite length_fmap).
  rewrite length_fmap, Nat.sub_diag. by destruct tail.
Qed.

Lemma seek_null_listed es tail : forall k,
  0 <= k -> k + Z.of_nat (length es) < 2 ^ 32 ->
  seek_null ((Some <$> es) ++ tail) k
    = match tail with
      | None :: _ => Done (k + Z.of_nat (length es))
      | [] => Trap ReadPastEnd
      | Some _ :: _ => seek_null tail (k + Z.of_nat (length es))
      end.
Proof.
  induction es as [| e es IH]; intros k Hk Hlen.
  - simpl. rewrite Z.add_0_r. by destruct tail as [| [?|] ?].
  - cbn [fmap list_fmap app seek_null]. simpl length in Hlen.
    unfold u32. rewrite Z.mod_small by lia. rewrite IH by lia.
    replace (k + 1 + Z.of_nat (length es)) with (k + Z.of_nat (length (e :: es)))
      by (simpl length; lia).
    reflexivity.
Qed.

(** [DefaultDownFunction] and [DefaultUpFunction] on a menu whose entries
    are [es], followed by [tail]. *)
Lemma DefaultDownFunction_listed (menus : MenuId -> Menu) menu es tail i :
  Entries (menus menu) = (Some <$> es) ++ tail ->
  Z.of_nat (length es) < 2 ^ 32 -> 0 <= i < Z.of_nat (length es) ->
  DefaultDownFunction menus menu i
    = if i + 1 <? Z.of_nat (length es) then Done (Some menu, i + 1)
      else match tail with
           | [] => Trap ReadPastEnd
           | None :: _ => Done (Some menu, 0)
           | Some _ :: _ => Done (Some menu, i + 1)
           end.
Proof.
  intros Hl Hlen Hi. unfold DefaultDownFunction. cbv zeta.
  unfold u32. rewrite Z.mod_small by lia.
  destruct (Z.ltb_spec (i + 1) (Z.of_nat (length es))) as [Hlt | Hge].
  - destruct (entry_at_listed (menus menu) es tail (i + 1)) as (e & _ & ->);
      [done | lia |]. reflexivity.
  - replace (i + 1) with (Z.of_nat (length es)) by lia.
    rewrite (entry_at_end _ es tail) by done.
    by destruct tail as [| [?|] ?].
Qed.

Lemma DefaultUpFunction_listed (menus : MenuId -> Menu) menu es tail i :
  Entries (menus menu) = (Some <$> es) ++ tail ->
  Z.of_nat (length es) < 2 ^ 32 -> 0 <= i < Z.of_nat (length es) ->
  (tail = [] \/ exists rest, tail = None :: rest) ->
  DefaultUpFunction menus menu i
    = if i =? 0
      then match tail with
           | [] => Trap ReadPastEnd
           | _ => Done (Some menu, Z.of_nat (length es) - 1)
           end
      else Done (Some menu, i - 1).
Proof.
  intros Hl Hlen Hi Htail. unfold DefaultUpFunction.
  destruct (Z.eqb_spec i 0) as [-> | Hnz].
  - rewrite Hl, seek_null_listed by lia.
    destruct Htail as [-> | (rest & ->)]; [done |].
    cbn [mbind outcome_bind]. unfold u32. rewrite Z.mod_small by lia.
    do 3 f_equal.
  - cbn [mbind outcome_bind]. unfold u32. by rewrite Z.mod_small by lia.
Qed.

(** X12. In a menu whose [Entries] are [n] entries and then a NULL, with
    the active index on one of the entries: down moves the index to its
    successor modulo [n] and up to its predecessor modulo [n], so that
    either wraps around at the end of the menu; each undoes the other; and
    neither changes the active menu. *)
Theorem navigation_wraps (menus : MenuId -> Menu) (menu : MenuId)
    (es : list MenuEntry) (rest : list (option MenuEntry)) (i : Z) :
  Entries (menus menu) = (Some <$> es) ++ None :: rest ->
  let n := Z.of_nat (length es) in
  n < 2 ^ 32 -> 0 <= i < n ->
  DefaultDownFunction menus menu i = Done (Some menu, (i + 1) mod n)
  /\ DefaultUpFunction menus menu i = Done (Some menu, (i - 1) mod n)
  /\ DefaultUpFunction menus menu ((i + 1) mod n) = Done (Some menu, i)
  /\ DefaultDownFunction menus menu ((i - 1) mod n) = Done (Some menu, i).
Proof.
  intros Hl n Hn Hi.
  assert (Hdown : forall j, 0 <= j < n ->
            DefaultDownFunction menus menu j = Done (Some menu, (j + 1) mod n)).
  { intros j Hj. rewrite (DefaultDownFunction_listed menus menu es (None :: rest))
      by done.
    fold n. destruct (Z.ltb_spec (j + 1) n).
    - by rewrite Z.mod_small by lia.
    - replace (j + 1) with n by lia. by rewrite Z.mod_same by lia. }
  assert (Hup : forall j, 0 <= j < n ->
            DefaultUpFunction menus menu j = Done (Some menu, (j - 1) mod n)).
  { intros j Hj. rewrite (DefaultUpFunction_listed menus menu es (None :: rest))
      by (done || (right; by exists rest)).
    fold n. destruct (Z.eqb_spec j 0) as [-> | Hnz].
    - replace (0 - 1) with (-1 * n + (n - 1)) by lia.
      rewrite Z.add_comm, Z.mod_add by lia. by rewrite Z.mod_small by lia.
    - by rewrite Z.mod_small by lia. }
  pose proof (Z.mod_pos_bound (i + 1) n ltac:(lia)).
  pose proof (Z.mod_pos_bound (i - 1) n ltac:(lia)).
  repeat split.
  - by apply Hdown.
  - by apply Hup.
  - rewrite Hup by done. rewrite Zminus_mod_idemp_l.
    replace (i + 1 - 1) with i by lia. by rewrite Z.mod_small by lia.
  - rewrite Hdown by done. rewrite Zplus_mod_idemp_l.
    replace (i - 1 + 1) with i by lia. by rewrite Z.mod_small by lia.
Qed.

(** X13. In a menu whose [Entries] are not ended by a NULL, as those of
    [DisplayMenu] in the source, up from the first entry and down from the
    last read [Entries] past its last element; between two entries both
    move by one as in any menu. *)
Theorem unterminated_menu_overrun (menus : MenuId -> Menu) (menu : MenuId)
    (es : list MenuEntry) :
  Entries (menus menu) = Some <$> es ->
  let n := Z.of_nat (length es) in
  0 < n < 2 ^ 32 ->
  DefaultUpFunction menus menu 0 = Trap ReadPastEnd
  /\ DefaultDownFunction menus menu (n - 1) = Trap ReadPastEnd
  /\ (forall i, 0 <= i < n - 1 ->
        DefaultDownFunction menus menu i = Done (Some menu, i + 1))
  /\ (forall i, 0 < i < n ->
        DefaultUpFunction menus menu i = Done (Some menu, i - 1)).
Proof.
  intros Hl n Hn.
  assert (Hl' : Entries (menus menu) = (Some <$> es) ++ []) by (by rewrite app_nil_r).
  repeat split.
  - by rewrite (DefaultUpFunction_listed menus menu es []) by (done || lia || by left).
  - rewrite (DefaultDownFunction_listed menus menu es []) by (done || lia).
    fold n. by destruct (Z.ltb_spec (n - 1 + 1) n); [lia |].
  - intros i Hi. rewrite (DefaultDownFunction_listed menus menu es []) by (done || lia).
    fold n. by destruct (Z.ltb_spec (i + 1) n); [| lia].
  - intros i Hi.
    rewrite (DefaultUpFunction_listed menus menu es []) by (done || lia || by left).
    by destruct (Z.eqb_spec i 0); [lia |].
Qed.

Lemma static_parents_agree (GCW_ZERO PERFORMANCE_IMPACTING_STATISTICS : bool) :
  parents_agree (static_menus GCW_ZERO PERFORMANCE_IMPACTING_STATISTICS) = true.
Proof. destruct GCW_ZERO, PERFORMANCE_IMPACTING_STATISTICS; reflexivity. Qed.

Lemma all_menus_complete (menu : MenuId) : In menu all_menus.
Proof. destruct menu; simpl; tauto. Qed.

Lemma entry_at_listed_in (menu : Menu) i e :
  entry_at menu i = Done (Some e) -> In e (omap (fun p => p) (Entries menu)).
Proof.
  unfold entry_at. intros H.
  destruct (Entries menu !! Z.to_nat i) as [p |] eqn:Hp; [| done].
  injection H as ->. apply list_elem_of_In, list_elem_of_omap.
  exists (Some e). split; [| done]. by eapply list_elem_of_lookup_2.
Qed.

(** X14. In the menus of the source, with either setting of the build
    switches, enter on a submenu entry activates a menu from which leave
    comes back to the menu the entry is in; neither changes the active
    entry index it is given. *)
Theorem enter_then_leave (GCW_ZERO PERFORMANCE_IMPACTING_STATISTICS : bool)
    (menu : MenuId) (i : Z) (e : MenuEntry) :
  let menus := static_menus GCW_ZERO PERFORMANCE_IMPACTING_STATISTICS in
  entry_at (menus menu) i = Done (Some e) ->
  Kind e = KIND_SUBMENU ->
  exists sub,
    DefaultEnterFunction menus menu i = Done (Some sub, i)
    /\ forall j, DefaultLeaveFunction menus sub j = Done (Some menu, j).
Proof.
  intros menus He Hkind.
  pose proof (static_parents_agree GCW_ZERO PERFORMANCE_IMPACTING_STATISTICS) as Hall.
  unfold parents_agree in Hall. rewrite forallb_forall in Hall.
  specialize (Hall menu (all_menus_complete menu)).
  rewrite forallb_forall in Hall.
  specialize (Hall e (entry_at_listed_in _ _ _ He)).
  rewrite Hkind in Hall.
  destruct (Target e) as [| | sub |] eqn:Ht; try done.
  apply bool_decide_eq_true in Hall.
  exists sub. split.
  - unfold DefaultEnterFunction. fold menus. rewrite He.
    cbn [mbind outcome_bind deref]. by rewrite Hkind, Ht.
  - intros j. unfold DefaultLeaveFunction, menus. by rewrite Hall.
Qed.

(** ** The navigation loop *)

Lemma static_plain_menus (GCW_ZERO PERFORMANCE_IMPACTING_STATISTICS : bool) :
  plain_menus (static_menus GCW_ZERO PERFORMANCE_IMPACTING_STATISTICS) = true.
Proof. destruct GCW_ZERO, PERFORMANCE_IMPACTING_STATISTICS; reflexivity. Qed.

Lemma plain_menus_at (menus : MenuId -> Menu) (id : MenuId) :
  plain_menus menus = true ->
  let menu := menus id in
  DisplayBackgroundFunction menu = None /\ DisplayTitleFunction menu = None
  /\ DisplayDataFunction menu = None /\ ButtonUpFunction menu = None
  /\ ButtonDownFunction menu = None /\ ButtonLeaveFunction menu = None
  /\ InitFunction menu = None /\ EndFunction menu = None
  /\ 0 < Z.of_nat (length (listed (Entries menu)))
  /\ Z.of_nat (length (Entries menu)) < 2 ^ 32
  /\ forall e, In e (omap (fun p => p) (Entries menu)) ->
       ButtonEnterFunction e <> Some F_DefaultUpFunction
       /\ ButtonEnterFunction e <> Some F_DefaultDownFunction.
Proof.
  intros Hall menu. unfold plain_menus in Hall. rewrite forallb_forall in Hall.
  specialize (Hall id (all_menus_complete id)). cbv zeta in Hall. fold menu in Hall.
  repeat (apply andb_prop in Hall as [Hall ?]).
  repeat match goal with
         | H : bool_decide _ = true |- _ => apply bool_decide_eq_true in H
         | H : negb (bool_decide _) = true |- _ =>
             apply negb_true_iff, bool_decide_eq_false in H
         | H : (_ <? _) = true |- _ => apply Z.ltb_lt in H
         end.
  match goal with H : forallb _ _ = true |- _ =>
    rewrite forallb_forall in H; rename H into Henter end.
  do 8 (split; [done |]). split; [| split; [done |]].
  - destruct (listed (Entries menu)); [done | simpl; lia].
  - intros e He. specialize (Henter e He).
    split; intros Heq; by rewrite Heq in Henter.
Qed.

Lemma length_listed (l : list (option MenuEntry)) :
  (length (listed l) <= length l)%nat.
Proof. induction l as [| [e |] l IH]; simpl; lia. Qed.

Ltac run_binds H :=
  repeat match type of H with
         | (?c ≫= _) = Done _ =>
             destruct c as [? |] eqn:?; cbn [mbind outcome_bind] in H; [| done]
         | context [let '(_, _) := ?x in _] => destruct x
         end.

Ltac run_all_binds :=
  repeat match goal with
         | H : (?c ≫= _) = Done _ |- _ =>
             destruct c as [? |] eqn:?; cbn [mbind outcome_bind] in H; [| done]
         | H : context [let '(_, _) := ?x in _] |- _ => destruct x
         end.

Lemma call_modify_index (menus : MenuId -> Menu) f menu i w menu' i' w' :
  call_modify menus f menu i w = Done (menu', i', w') ->
  f <> F_DefaultUpFunction -> f <> F_DefaultDownFunction -> i' = i.
Proof.
  intros H Hup Hdown. destruct f; try done; cbn [call_modify] in H.
  - unfold DefaultEnterFunction in H. run_all_binds.
    repeat match goal with
           | E : match ?x with _ => _ end = Done _ |- _ => destruct x
           end; congruence.
  - unfold DefaultLeaveFunction in H. run_all_binds. congruence.
  - unfold ActionExit in H. congruence.
  - unfold ActionReturn in H. congruence.
  - unfold ActionReset in H. congruence.
  - unfold ActionSetMapping in H. run_all_binds. congruence.
  - unfold ActionSetOrClearMapping in H. run_all_binds. congruence.
  - unfold ActionSetOrClearHotkey in H. run_all_binds. congruence.
Qed.

Lemma dispatch_index_valid (menus : MenuId -> Menu) Action menu i w menu' i' w' :
  plain_menus menus = true ->
  0 <= i < Z.of_nat (length (listed (Entries (menus menu)))) ->
  dispatch menus Action menu i w = Done (menu', i', w') ->
  0 <= i' < Z.of_nat (length (listed (Entries (menus menu)))).
Proof.
  intros Hplain Hi H.
  destruct (plain_menus_at menus menu Hplain)
    as (_ & _ & _ & Hup & Hdown & Hleave & _ & _ & Hpos & Hlen & Henter).
  destruct (listed_shape (Entries (menus menu))) as (tail & Hl & Htail).
  pose proof (length_listed (Entries (menus menu))) as Hle.
  destruct Action; cbn [dispatch] in H.
  - by simplify_eq.
  - run_binds H.
    match goal with
    | E : entry_at _ _ = Done ?p, D : deref ?p = Done ?e |- _ =>
        destruct p; [injection D as -> | done];
        destruct (Henter _ (entry_at_listed_in _ _ _ E)) as [Hnu Hnd]
    end.
    apply call_modify_index in H as ->; [done | |];
      destruct (ButtonEnterFunction _); simpl; congruence.
  - rewrite Hleave in H. cbn [or_default call_modify] in H.
    unfold DefaultLeaveFunction in H. run_all_binds. by simplify_eq.
  - rewrite Hup in H. cbn [or_default call_modify] in H.
    rewrite (DefaultUpFunction_listed menus menu _ tail) in H by (done || lia).
    destruct (Z.eqb_spec i 0).
    + destruct tail; [done |]. cbn [mbind outcome_bind] in H.
      simplify_eq. lia.
    + cbn [mbind outcome_bind] in H. simplify_eq. lia.
  - rewrite Hdown in H. cbn [or_default call_modify] in H.
    rewrite (DefaultDownFunction_listed menus menu _ tail) in H by (done || lia).
    destruct (Z.ltb_spec (i + 1) (Z.of_nat (length (listed (Entries (menus menu)))))).
    + cbn [mbind outcome_bind] in H. simplify_eq. lia.
    + destruct Htail as [-> | (rest & ->)]; [done |].
      cbn [mbind outcome_bind] in H. simplify_eq. lia.
  - run_all_binds. by simplify_eq.
  - run_all_binds. by simplify_eq.
Qed.

Lemma ReGBA_Menu_pass_valid (menus : MenuId -> Menu) Action menu nav nav' :
  plain_menus menus = true ->
  indices_valid menus (ActiveEntryIndex nav) ->
  ReGBA_Menu_pass menus Action menu nav = Done nav' ->
  indices_valid menus (ActiveEntryIndex nav').
Proof.
  intros Hplain Hvalid Hpass id.
  destruct (decide (id = menu)) as [-> | Hother].
  - unfold ReGBA_Menu_pass in Hpass. cbv zeta in Hpass. run_binds Hpass.
    injection Hpass as <-. cbn [ActiveEntryIndex]. unfold set_index.
    rewrite decide_True by done.
    eapply dispatch_index_valid; [done | apply Hvalid |].
    match goal with E : dispatch _ _ _ _ _ = _ |- _ => exact E end.
  - rewrite (ReGBA_Menu_pass_other_index menus Action menu nav nav') by done.
    apply Hvalid.
Qed.

Lemma ReGBA_Menu_passes_valid (menus : MenuId -> Menu) actions : forall nav nav',
  plain_menus menus = true ->
  indices_valid menus (ActiveEntryIndex nav) ->
  ReGBA_Menu_passes menus actions nav = Done nav' ->
  indices_valid menus (ActiveEntryIndex nav').
Proof.
  induction actions as [| Action actions IH]; intros nav nav' Hplain Hvalid H.
  - simpl in H. by injection H as <-.
  - cbn [ReGBA_Menu_passes] in H. destruct (ActiveMenu nav) as [menu |].
    + destruct (ReGBA_Menu_pass menus Action menu nav) as [nav1 |] eqn:Hpass; [| done].
      cbn [mbind outcome_bind] in H.
      eapply IH; [done | | exact H]. by eapply ReGBA_Menu_pass_valid.
    + by injection H as <-.
Qed.

Lemma ReGBA_Menu_loop_valid (menus : MenuId -> Menu) actions : forall nav nav',
  plain_menus menus = true ->
  indices_valid menus (ActiveEntryIndex nav) ->
  ReGBA_Menu_loop menus actions nav = Done nav' ->
  indices_valid menus (ActiveEntryIndex nav').
Proof.
  induction actions as [| Action actions IH]; intros nav nav' Hplain Hvalid H.
  - simpl in H. destruct (ActiveMenu nav); [done | by injection H as <-].
  - cbn [ReGBA_Menu_loop] in H. destruct (ActiveMenu nav) as [menu |].
    + destruct (ReGBA_Menu_pass menus Action menu nav) as [nav1 |] eqn:Hpass; [| done].
      cbn [mbind outcome_bind] in H.
      eapply IH; [done | | exact H]. by eapply ReGBA_Menu_pass_valid.
    + by injection H as <-.
Qed.

(** X15. In the menus of the source, with either setting of the build
    switches: if the active entry index of every menu is the index of one
    of its entries, it still is after any number of passes of the loop of
    [ReGBA_Menu], whatever the actions are, and when the loop is left.
    The indices as the program starts, all zero, are such. *)
Theorem active_index_stays_valid (GCW_ZERO PERFORMANCE_IMPACTING_STATISTICS : bool)
    (actions : list GUI_Action) (nav nav' : Nav) :
  let menus := static_menus GCW_ZERO PERFORMANCE_IMPACTING_STATISTICS in
  indices_valid menus (ActiveEntryIndex nav) ->
  (ReGBA_Menu_passes menus actions nav = Done nav' ->
   indices_valid menus (ActiveEntryIndex nav'))
  /\ (ReGBA_Menu_loop menus actions nav = Done nav' ->
      indices_valid menus (ActiveEntryIndex nav'))
  /\ indices_valid menus (fun _ => 0).
Proof.
  intros menus Hvalid.
  pose proof (static_plain_menus GCW_ZERO PERFORMANCE_IMPACTING_STATISTICS) as Hplain.
  split; [| split].
  - by apply ReGBA_Menu_passes_valid.
  - by apply ReGBA_Menu_loop_valid.
  - intros id. destruct (plain_menus_at menus id Hplain)
      as (_ & _ & _ & _ & _ & _ & _ & _ & Hpos & _). lia.
Qed.

Lemma call_entry_calls (menus : MenuId -> Menu) f menu p w w' :
  call_entry menus f menu p w = Done w' ->
  frames_ahead w' = frames_ahead w /\ calls w' = calls w.
Proof.
  intros H. destruct f; cbn [call_entry] in H; run_all_binds; by simplify_eq.
Qed.

(** X16. In the menus of the source, a pass of the loop of [ReGBA_Menu]
    for no action, up, down or leave changes no setting, uses up no
    button sample and calls nothing of the emulator. A pass for left or
    right leaves the active menu and every active entry index as they
    were, uses up no button sample and calls nothing of the emulator. *)
Theorem plain_keys_are_harmless (GCW_ZERO PERFORMANCE_IMPACTING_STATISTICS : bool)
    (Action : GUI_Action) (menu : MenuId) (nav nav' : Nav) :
  ReGBA_Menu_pass (static_menus GCW_ZERO PERFORMANCE_IMPACTING_STATISTICS)
    Action menu nav = Done nav' ->
  (Action = GUI_ACTION_NONE \/ Action = GUI_ACTION_UP \/ Action = GUI_ACTION_DOWN
   \/ Action = GUI_ACTION_LEAVE -> world nav' = world nav)
  /\ (Action = GUI_ACTION_LEFT \/ Action = GUI_ACTION_RIGHT ->
      ActiveMenu nav' = Some menu
      /\ (forall id, ActiveEntryIndex nav' id = ActiveEntryIndex nav id)
      /\ frames_ahead (world nav') = frames_ahead (world nav)
      /\ calls (world nav') = calls (world nav)).
Proof.
  set (menus := static_menus GCW_ZERO PERFORMANCE_IMPACTING_STATISTICS).
  intros Hpass.
  pose proof (static_plain_menus GCW_ZERO PERFORMANCE_IMPACTING_STATISTICS) as Hplain.
  fold menus in Hplain.
  destruct (plain_menus_at menus menu Hplain)
    as (Hbg & Htitle & Hdata & Hup & Hdown & Hleave & Hinit & Hend & _).
  cbv zeta in *.
  assert (Hchange : forall menu' w w', change_menu menus menu menu' w = Done w' -> w' = w).
  { intros menu' w w' H. unfold change_menu in H.
    destruct (decide _); [by injection H |].
    rewrite Hend in H. cbn [mbind outcome_bind] in H.
    destruct menu' as [id |]; [| by injection H].
    destruct (plain_menus_at menus id Hplain) as (_ & _ & _ & _ & _ & _ & Hi & _).
    cbv zeta in Hi. rewrite Hi in H. by injection H. }
  unfold ReGBA_Menu_pass in Hpass. cbv zeta in Hpass.
  rewrite Hbg, Htitle, Hdata in Hpass.
  cbn [or_default call_menu mbind outcome_bind call_entry] in Hpass.
  run_all_binds. injection Hpass as <-. cbn [world ActiveMenu ActiveEntryIndex].
  match goal with E : change_menu _ _ _ _ = _ |- _ => apply Hchange in E; subst end.
  match goal with E : dispatch _ _ _ _ _ = _ |- _ => rename E into Hd end.
  split.
  - intros [-> | [-> | [-> | ->]]]; cbn [dispatch] in Hd.
    + by simplify_eq.
    + rewrite Hup in Hd. cbn [or_default call_modify] in Hd. run_all_binds.
      by simplify_eq.
    + rewrite Hdown in Hd. cbn [or_default call_modify] in Hd. run_all_binds.
      by simplify_eq.
    + rewrite Hleave in Hd. cbn [or_default call_modify] in Hd. run_all_binds.
      by simplify_eq.
  - intros [-> | ->]; cbn [dispatch] in Hd; run_all_binds; simplify_eq.
    all: match goal with E : call_entry _ _ _ _ _ = _ |- _ =>
           apply call_entry_calls in E as [? ?] end.
    all: repeat split; try done.
    all: intros id; unfold set_index; by destruct (decide _) as [-> |].
Qed.

(** ** Looking an option up *)

Lemma find_app {A} (p : A -> bool) l1 l2 :
  find p (l1 ++ l2) = match find p l1 with Some x => Some x | None => find p l2 end.
Proof. induction l1 as [| x l1 IH]; simpl; [done |]. by destruct (p x). Qed.

Lemma Menu_FindByPersistentName_in_order (menus : MenuId -> Menu) (name : list ascii)
    (depth : nat) : forall menu es,
  options_in_order menus depth menu = Done es ->
  Forall (fun e => PersistentName e <> None) es ->
  Menu_FindByPersistentName menus depth menu name = Done (find (named name) es).
Proof.
  induction depth as [| depth IH]; intros menu es Hes Hnames; [done |].
  cbn [options_in_order Menu_FindByPersistentName] in *.
  revert es Hes Hnames.
  induction (Entries (menus menu)) as [| [cur |] rest IHrest]; intros es Hes Hnames.
  - done.
  - run_all_binds. simplify_eq.
    apply Forall_app in Hnames as [Hmet Hmet'].
    specialize (IHrest _ eq_refl Hmet'). rewrite find_app.
    destruct (Kind cur) eqn:Hkind.
    + simplify_eq. apply Forall_cons in Hmet as [Hname _].
      destruct (PersistentName cur) as [persistent |] eqn:Hp; [| done].
      cbn [deref mbind outcome_bind find]. unfold named at 1. rewrite Hp.
      by destruct (strcasecmp_eq persistent name).
    + destruct (Target cur) as [| | sub |]; try done.
      match goal with E : options_in_order _ _ ?s = Done ?a |- _ =>
        rewrite (IH _ _ E Hmet); cbn [mbind outcome_bind];
        destruct (find (named name) a); [done | exact IHrest]
      end.
    + by simplify_eq.
    + by simplify_eq.
  - by simplify_eq.
Qed.

Lemma find_named name es e :
  find (named name) es = Some e ->
  In e es /\ exists persistent,
    PersistentName e = Some persistent /\ strcasecmp_eq persistent name = true.
Proof.
  intros H. apply find_some in H as [Hin Hnamed]. split; [done |].
  unfold named in Hnamed. destruct (PersistentName e) as [persistent |]; [| done].
  by exists persistent.
Qed.

(** X17. Where the walk over the menus meets the option entries [es], in
    that order, and each of them has a persistent name,
    [Menu_FindByPersistentName] returns the first of them whose persistent
    name is the given name, letter case apart, and NULL when none of them
    has that name. *)
Theorem lookup_returns_first_named (menus : MenuId -> Menu) (depth : nat)
    (menu : MenuId) (es : list MenuEntry) (name : list ascii) :
  options_in_order menus depth menu = Done es ->
  Forall (fun e => PersistentName e <> None) es ->
  Menu_FindByPersistentName menus depth menu name = Done (find (named name) es)
  /\ (forall e, find (named name) es = Some e ->
        In e es /\ exists persistent,
          PersistentName e = Some persistent
          /\ strcasecmp_eq persistent name = true)
  /\ (find (named name) es = None -> forall e, In e es -> named name e = false).
Proof.
  intros Hes Hnames. split; [| split].
  - by apply Menu_FindByPersistentName_in_order.
  - intros e. apply find_named.
  - intros Hnone e He. by eapply find_none.
Qed.

Lemma strcasecmp_eq_same a : forall b name,
  strcasecmp_eq a name = true -> strcasecmp_eq b name = true ->
  strcasecmp_eq b a = true.
Proof.
  induction a as [| x a IH]; intros [| y b] [| z name] Ha Hb; try done.
  cbn [strcasecmp_eq] in *.
  apply andb_prop in Ha as [Hx Ha], Hb as [Hy Hb].
  apply Ascii.eqb_eq in Hx, Hy. rewrite Hx, Hy.
  unfold ceqb. rewrite Ascii.eqb_refl. by apply (IH b name).
Qed.

Lemma find_named_apart name e : forall es,
  names_apart es = true -> In e es -> named name e = true ->
  find (named name) es = Some e.
Proof.
  induction es as [| x es IH]; intros Hapart Hin Hnamed; [done |].
  cbn [names_apart] in Hapart. apply andb_prop in Hapart as [Hx Hapart].
  cbn [find]. destruct Hin as [-> | Hin]; [by rewrite Hnamed |].
  destruct (named name x) eqn:Hnx; [| by apply IH].
  exfalso. rewrite forallb_forall in Hx. specialize (Hx e Hin).
  unfold named in Hnx, Hnamed, Hx.
  destruct (PersistentName x) as [nx |]; [| done].
  destruct (PersistentName e) as [ne |]; [| done].
  by rewrite (strcasecmp_eq_same nx ne name) in Hx.
Qed.

Lemma options_in_order_static (GCW_ZERO PERFORMANCE_IMPACTING_STATISTICS : bool)
    (k : nat) :
  options_in_order
    (with_sentinels (static_menus GCW_ZERO PERFORMANCE_IMPACTING_STATISTICS))
    (3 + k) MainMenu
    = Done (settings_in_order GCW_ZERO).
Proof. destruct GCW_ZERO, PERFORMANCE_IMPACTING_STATISTICS; reflexivity. Qed.

Lemma settings_in_order_named (GCW_ZERO : bool) :
  Forall (fun e => PersistentName e <> None) (settings_in_order GCW_ZERO)
  /\ names_apart (settings_in_order GCW_ZERO) = true.
Proof.
  split; [| by destruct GCW_ZERO].
  destruct GCW_ZERO; repeat constructor; done.
Qed.

(** X18. In the menus of the source with every [Entries] ended by a NULL,
    and with either setting of the build switches: no two option entries
    have the same persistent name, letter case apart, and
    [Menu_FindByPersistentName] from the main menu returns, for a name
    that is the persistent name of an option entry but for letter case,
    that entry. *)
Theorem every_option_is_found (GCW_ZERO PERFORMANCE_IMPACTING_STATISTICS : bool)
    (depth : nat) (e : MenuEntry) (name : list ascii) :
  (3 <= depth)%nat ->
  In e (settings_in_order GCW_ZERO) ->
  named name e = true ->
  Menu_FindByPersistentName
    (with_sentinels (static_menus GCW_ZERO PERFORMANCE_IMPACTING_STATISTICS))
    depth MainMenu name
    = Done (Some e).
Proof.
  intros Hdepth He Hnamed.
  destruct (settings_in_order_named GCW_ZERO) as [Hnames Hapart].
  replace depth with (3 + (depth - 3))%nat by lia.
  rewrite (Menu_FindByPersistentName_in_order _ _ _ _ (settings_in_order GCW_ZERO))
    by (done || apply options_in_order_static).
  by rewrite (find_named_apart name e).
Qed.

(** ** The menus as the source initialises them *)



(** ** The tokenizer on any line *)

Lemma peek_poke_ne line i j x :
  0 <= i -> 0 <= j -> i <> j -> peek (poke line i x) j = peek line j.
Proof.
  intros Hi Hj Hne. unfold peek, poke.
  rewrite !nth_lookup, list_lookup_insert_ne by lia. reflexivity.
Qed.

Lemma length_poke line i x : length (poke line i x) = length line.
Proof. apply length_insert. Qed.

Lemma NUL_not_blank : is_blank NUL = false.
Proof. reflexivity. Qed.

Lemma skip_blanks_returns (fuel : nat) : forall line cur,
  0 <= cur <= 256 -> peek line 256 = NUL -> (Z.to_nat (256 - cur) < fuel)%nat ->
  exists cur', skip_blanks fuel line cur = Done cur' /\ cur <= cur' <= 256.
Proof.
  induction fuel as [| fuel IH]; intros line cur Hcur Hnul Hfuel; [lia |].
  cbn [skip_blanks]. destruct (is_blank (peek line cur)) eqn:Hb.
  - assert (cur <> 256) by (intros ->; by rewrite Hnul in Hb).
    destruct (IH line (cur + 1)) as (cur' & -> & Hcur'); [lia | done | lia |].
    exists cur'. split; [done | lia].
  - exists cur. split; [done | lia].
Qed.

Lemma scan_arg_returns (fuel : nat) : forall line cur arg,
  0 <= cur <= 256 -> peek line 256 = NUL -> (Z.to_nat (256 - cur) < fuel)%nat ->
  exists line' cur' arg',
    scan_arg fuel line cur arg = Done (line', cur', arg')
    /\ length line' = length line
    /\ cur <= cur' <= 256
    /\ (forall j, 0 <= j < cur -> peek line' j = peek line j)
    /\ (forall a, arg' = Some a -> arg = Some a \/ cur <= a < cur').
Proof.
  induction fuel as [| fuel IH]; intros line cur arg Hcur Hnul Hfuel; [lia |].
  cbn [scan_arg]. destruct (ceqb (peek line cur) NUL) eqn:Hc; cbn [negb].
  - exists line, cur, arg. repeat split; try done; try lia. intros a ->. by left.
  - assert (cur <> 256) by (intros ->; by rewrite Hnul in Hc).
    destruct (ceqb (peek line cur) "#") eqn:Hh.
    + exists (poke line cur NUL), cur, arg.
      repeat split; try lia; [apply length_poke | |].
      * intros j Hj. apply peek_poke_ne; lia.
      * intros a ->. by left.
    + destruct (IH line (cur + 1)
                  (match arg with None => Some cur | Some _ => arg end))
        as (line' & cur' & arg' & -> & Hlen & Hcur' & Hsame & Harg);
        [lia | done | lia |].
      exists line', cur', arg'. repeat split; try done; try lia.
      * intros j Hj. apply Hsame. lia.
      * intros a Ha. destruct (Harg a Ha) as [Heq | Hin]; [| right; lia].
        destruct arg; [by left | right]. injection Heq as <-. lia.
Qed.

Lemma strip_tail_returns (fuel : nat) : forall line cur n,
  0 <= n <= cur -> peek line n = NUL -> (Z.to_nat (cur - n) < fuel)%nat ->
  exists line', strip_tail fuel line cur = Done line' /\ length line' = length line.
Proof.
  induction fuel as [| fuel IH]; intros line cur n Hn Hnul Hfuel; [lia |].
  cbn [strip_tail].
  destruct (is_blank (peek line cur) || ceqb (peek line cur) LF
            || ceqb (peek line cur) CR) eqn:Hc.
  - assert (cur <> n) by (intros ->; by rewrite Hnul in Hc).
    destruct (IH (poke line cur NUL) (cur - 1) n) as (line' & -> & Hlen);
      [lia | by rewrite peek_poke_ne by lia | lia |].
    exists line'. split; [done |]. by rewrite Hlen, length_poke.
  - by exists line.
Qed.

Lemma hash_ends_name_true l :
  hash_ends_name l = true ->
  exists name rest, l = name ++ "#"%char :: rest /\ forallb name_char name = true.
Proof.
  induction l as [| c l IH]; [done |]. cbn [hash_ends_name].
  destruct (ceqb c "#") eqn:Hh; cbn [orb].
  - intros _. apply Ascii.eqb_eq in Hh as ->. by exists [], l.
  - intros H. apply andb_prop in H as [Hc Hl].
    destruct (IH Hl) as (name & rest & -> & Hname).
    exists (c :: name), rest. split; [done |]. simpl. by rewrite Hc.
Qed.

Lemma comment_start_true l :
  comment_start l = true ->
  exists blanks name rest,
    l = blanks ++ name ++ "#"%char :: rest
    /\ forallb is_blank blanks = true /\ forallb name_char name = true.
Proof.
  induction l as [| c l IH]; [done |]. cbn [comment_start].
  destruct (is_blank c) eqn:Hb.
  - intros H. destruct (IH H) as (blanks & name & rest & -> & Hblanks & Hname).
    exists (c :: blanks), name, rest. split; [done |]. split; [| done].
    simpl. by rewrite Hb.
  - intros H. destruct (hash_ends_name_true _ H) as (name & rest & Hl & Hname).
    by exists [], name, rest.
Qed.

Lemma hash_ends_name_false l stale :
  hash_ends_name l = false ->
  exists name c rest,
    l ++ NUL :: stale = name ++ c :: rest
    /\ forallb name_char name = true /\ name_stop c
    /\ (length name <= length l)%nat.
Proof.
  induction l as [| x l IH].
  - intros _. exists [], NUL, stale. by repeat split.
  - cbn [hash_ends_name]. intros H. apply orb_false_elim in H as [Hh H].
    destruct (name_char x) eqn:Hx.
    + cbn [andb] in H. destruct (IH H) as (name & c & rest & Hl & Hname & Hc & Hlen).
      exists (x :: name), c, rest. repeat split; try done.
      * simpl. by rewrite Hl.
      * simpl. by rewrite Hx.
      * simpl. lia.
    + exists [], x, (l ++ NUL :: stale). repeat split; try done; [| simpl; lia].
      unfold name_stop. unfold name_char in Hx. rewrite Hh in Hx.
      cbn [negb] in Hx. by rewrite andb_true_r in Hx.
Qed.

Lemma comment_start_false l stale :
  comment_start l = false ->
  exists blanks name c rest,
    l ++ NUL :: stale = blanks ++ name ++ c :: rest
    /\ forallb is_blank blanks = true /\ forallb name_char name = true
    /\ name_stop c /\ is_blank (hd c name) = false
    /\ (length blanks + length name <= length l)%nat.
Proof.
  induction l as [| x l IH].
  - intros _. exists [], [], NUL, stale. by repeat split.
  - cbn [comment_start]. destruct (is_blank x) eqn:Hb.
    + intros H.
      destruct (IH H) as (blanks & name & c & rest & Hl & Hblanks & Hname & Hc & Hhd & Hlen).
      exists (x :: blanks), name, c, rest. repeat split; try done.
      * simpl. by rewrite Hl.
      * simpl. by rewrite Hb.
      * simpl. lia.
    + intros H.
      destruct (hash_ends_name_false _ stale H) as (name & c & rest & Hl & Hname & Hc & Hlen).
      exists [], name, c, rest. repeat split; try done.
      destruct name as [| n0 name]; simpl in Hl |- *.
      * by injection Hl as <- _.
      * by injection Hl as <- _.
Qed.

Lemma tokenize_returns (fuel : nat) (blanks name : list ascii) (c : ascii)
    (rest : list ascii) :
  forallb is_blank blanks = true -> forallb name_char name = true ->
  name_stop c -> is_blank (hd c name) = false ->
  (length blanks + length name <= 255)%nat ->
  length (blanks ++ name ++ c :: rest) = 257%nat ->
  (258 <= fuel)%nat ->
  exists line' tokens,
    tokenize fuel (blanks ++ name ++ c :: rest) = Done (line', tokens)
    /\ length line' = 257%nat
    /\ (name = [] -> tokens = None).
Proof.
  intros Hblanks Hname Hc Hhd Hfit Hlen Hfuel. unfold tokenize.
  set (n := Z.of_nat (length blanks) + Z.of_nat (length name)).
  destruct (poke_beyond (blanks ++ name ++ [c]) rest 256 NUL) as (rest' & Hpoke & Hrest').
  { rewrite !length_app. simpl. lia. }
  rewrite <- !app_assoc in Hpoke. simpl app in Hpoke. rewrite Hpoke.
  assert (Hlen' : length (blanks ++ name ++ c :: rest') = 257%nat).
  { rewrite <- Hpoke. by rewrite length_poke. }
  assert (Hnul : peek (blanks ++ name ++ c :: rest') 256 = NUL).
  { rewrite <- Hpoke. unfold peek, poke.
    rewrite nth_lookup, list_lookup_insert_eq by (rewrite Hlen; lia). reflexivity. }
  clear Hpoke.
  (* the blanks *)
  assert (Hskip : skip_blanks fuel (blanks ++ name ++ c :: rest') 0
                  = Done (Z.of_nat (length blanks))).
  { destruct name as [| n0 name'].
    - apply (skip_blanks_over blanks fuel [] c rest' Hblanks Hhd). lia.
    - apply (skip_blanks_over blanks fuel [] n0 _ Hblanks Hhd). lia. }
  rewrite Hskip. cbn [mbind outcome_bind].
  (* the name *)
  rewrite (scan_name_over name fuel blanks c rest' None Hname Hc) by lia.
  cbn [mbind outcome_bind]. fold n.
  destruct (decide (name = [])) as [-> | Hne].
  { simpl first_seen. cbv iota. eexists _, None. by repeat split. }
  replace (first_seen None _ name) with (Some (Z.of_nat (length blanks)))
    by (by destruct name).
  cbv iota beta.
  assert (Hn : 0 <= n <= 255) by (unfold n; lia).
  set (line1 := poke (blanks ++ name ++ c :: rest') n NUL).
  assert (Hlen1 : length line1 = 257%nat) by (unfold line1; by rewrite length_poke).
  assert (Hnul1 : peek line1 256 = NUL)
    by (unfold line1; by rewrite peek_poke_ne by lia).
  assert (Hstop1 : peek line1 n = NUL).
  { unfold line1, peek, poke.
    rewrite nth_lookup, list_lookup_insert_eq by lia. reflexivity. }
  (* up to the equals sign *)
  assert (Hafter : exists after,
            (if negb (ceqb (peek (blanks ++ name ++ c :: rest') n) "=")
             then skip_blanks fuel line1 (n + 1)
                  ≫= (fun cur => if negb (ceqb (peek line1 cur) "=") then Done None
                                 else Done (Some (cur + 1)))
             else Done (Some (n + 1))) = Done after
            /\ forall cur, after = Some cur -> n < cur <= 256).
  { destruct (negb _).
    - destruct (skip_blanks_returns fuel line1 (n + 1)) as (cur & -> & Hcur);
        [lia | done | lia |].
      cbn [mbind outcome_bind].
      destruct (ceqb (peek line1 cur) "=") eqn:Heq; cbn [negb].
      + eexists. split; [done |]. intros ? [= <-].
        assert (cur <> 256) by (intros ->; by rewrite Hnul1 in Heq). lia.
      + eexists. split; [done |]. intros ? [=].
    - eexists. split; [done |]. intros ? [= <-]. lia. }
  destruct Hafter as (after & -> & Hafter). cbn [mbind outcome_bind].
  destruct after as [cur |]; [| eexists _, None; by repeat split].
  specialize (Hafter cur eq_refl).
  (* the argument *)
  destruct (skip_blanks_returns fuel line1 cur) as (cur2 & -> & Hcur2);
    [lia | done | lia |].
  cbn [mbind outcome_bind].
  destruct (scan_arg_returns fuel line1 cur2 None)
    as (line2 & cur3 & arg & -> & Hlen2 & Hcur3 & Hsame & Harg); [lia | done | lia |].
  cbn [mbind outcome_bind].
  destruct arg as [a |]; [| eexists _, None; repeat split; congruence].
  destruct (Harg a eq_refl) as [Heq | Ha]; [done |].
  destruct (strip_tail_returns fuel line2 (cur3 - 1) n) as (line3 & -> & Hlen3);
    [lia | rewrite Hsame by lia; done | lia |].
  cbn [mbind outcome_bind].
  eexists _, _. repeat split; congruence.
Qed.

(** X20. The tokenizer returns, or it spins, on any line as [fgets]
    stores it in [char line[257]], which is at most 255 bytes followed by
    a NUL. It spins, whatever the fuel, exactly when a hash ends the
    option name: when after the blanks that the line starts with come
    name characters, none or more, and then a hash. On every other line it
    returns, with the array as long as it was; on a line of blanks only,
    the empty line included, it returns no option. *)
Theorem tokenize_returns_or_spins (bytes stale : list ascii) :
  Forall (fun c => c <> NUL) bytes ->
  (length bytes <= 255)%nat ->
  length (bytes ++ NUL :: stale) = 257%nat ->
  (comment_start bytes = true ->
   forall fuel, tokenize fuel (bytes ++ NUL :: stale) = Trap OutOfFuel)
  /\ (comment_start bytes = false ->
      forall fuel, (258 <= fuel)%nat ->
        exists line' tokens,
          tokenize fuel (bytes ++ NUL :: stale) = Done (line', tokens)
          /\ length line' = 257%nat)
  /\ (forallb is_blank bytes = true ->
      forall fuel, (258 <= fuel)%nat ->
        exists line', tokenize fuel (bytes ++ NUL :: stale) = Done (line', None)).
Proof.
  intros Hbytes Hfit Hlen. split; [| split].
  - intros Hstart fuel.
    destruct (comment_start_true _ Hstart) as (blanks & name & rest & -> & Hb & Hn).
    rewrite <- !app_assoc. simpl app. apply tokenize_hash; [done | done |].
    rewrite !length_app in Hfit. simpl in Hfit. lia.
  - intros Hstart fuel Hfuel.
    destruct (comment_start_false _ stale Hstart)
      as (blanks & name & c & rest & Hl & Hb & Hn & Hc & Hhd & Hle).
    rewrite Hl in *.
    destruct (tokenize_returns fuel blanks name c rest)
      as (line' & tokens & Ht & Hlen' & _); try done; [lia |].
    by exists line', tokens.
  - intros Hblank fuel Hfuel.
    destruct (tokenize_returns fuel bytes [] NUL stale)
      as (line' & tokens & Ht & _ & Hnone); try done; [simpl; lia |].
    exists line'. simpl app in Ht. by rewrite Ht, Hnone.
Qed.

(** A name that is followed by the end of the line or by a blank, and
    then by an equals sign, a blank, a value, a blank and a hash. *)
Lemma tokenize_name_value fuel name (c : ascii) tok rest :
  plain_name name = true -> plain_token tok = true ->
  name_stop c -> ceqb c "=" = false ->
  (length name + length tok + 5 <= 256)%nat ->
  (length name + length tok + 5 < fuel)%nat ->
  exists line',
    tokenize fuel (name ++ c :: str "= " ++ tok ++ str " #" ++ rest)
      = Done (line', Some (name, tok)).
Proof.
  intros Hname Htok Hc Hceq Hfit Hfuel.
  apply andb_true_iff in Hname as [Hn0 Hname].
  apply andb_true_iff in Htok as [Ht0 Htok].
  apply negb_true_iff, bool_decide_eq_false in Hn0, Ht0.
  destruct name as [| n0 name'] eqn:En; [done |]. rewrite <- En in *.
  destruct (exists_last Ht0) as (tok' & tl & Et).
  assert (Hn0c : name_char n0 = true).
  { rewrite En in Hname. simpl in Hname. by apply andb_true_iff in Hname as [? _]. }
  assert (Htlc : token_char tl = true).
  { rewrite Et, forallb_app in Htok. apply andb_true_iff in Htok as [_ H].
    simpl in H. by apply andb_true_iff in H as [? _]. }
  assert (Ht0c : is_blank (hd NUL (tok ++ [" "%char])) = false).
  { destruct tok as [| t0 tok0]; [done |]. simpl in Htok |- *.
    apply andb_true_iff in Htok as [H _]. unfold token_char in H.
    apply andb_true_iff in H as [_ H]. apply negb_true_iff in H.
    by apply orb_false_iff in H as [H _]; apply orb_false_iff in H as [H _]. }
  unfold tokenize. change (str "= ") with ["="; " "]%char.
  change (str " #") with [" "; "#"]%char.
  (* the NUL stored at index 256 falls after the hash *)
  destruct (poke_beyond (name ++ [c; "="; " "]%char ++ tok ++ [" "; "#"]%char)
              rest 256 NUL) as (rest' & Hpoke & _).
  { rewrite !length_app. simpl. lia. }
  rewrite <- !app_assoc in Hpoke. simpl app in Hpoke |- *.
  rewrite Hpoke. clear Hpoke.
  (* leading blanks: none *)
  assert (H1 : skip_blanks fuel
                 (name ++ c :: "="%char :: " "%char
                    :: tok ++ " "%char :: "#"%char :: rest') 0
               = Done 0).
  { destruct fuel as [| fuel']; [lia |]. apply skip_blanks_stop.
    rewrite En. unfold peek. simpl.
    unfold name_char in Hn0c. apply andb_true_iff in Hn0c as [H _].
    apply andb_true_iff in H as [_ H]. apply negb_true_iff in H.
    by apply orb_false_iff in H as [H _]. }
  rewrite H1. cbn [mbind outcome_bind].
  (* the name *)
  pose proof (scan_name_over name fuel [] c
                ([ "="; " "]%char ++ tok ++ [" "; "#"]%char ++ rest') None
                Hname Hc ltac:(lia)) as H2.
  simpl app in H2 |- *. change (Z.of_nat (length (@nil ascii))) with 0 in H2.
  rewrite Z.add_0_l in H2.
  rewrite H2. cbn [mbind outcome_bind].
  replace (first_seen None 0 name) with (Some 0) by (by rewrite En).
  cbv iota beta.
  pose proof (peek_middle name c
                ("="%char :: " "%char :: tok ++ " "%char :: "#"%char :: rest')) as Hp.
  rewrite Hp, Hceq. cbn [negb].
  rewrite poke_middle.
  (* the equals sign *)
  replace (name ++ NUL :: "="%char :: " "%char :: tok ++ " "%char :: "#"%char :: rest')
    with ((name ++ [NUL]) ++ "="%char :: " "%char :: tok ++ " "%char :: "#"%char :: rest')
    by (by rewrite <- app_assoc).
  rewrite <- (snoc_length name NUL).
  destruct fuel as [| fuel']; [lia |].
  rewrite skip_blanks_stop by (by rewrite peek_middle).
  cbn [mbind outcome_bind]. rewrite peek_middle.
  change (negb (ceqb "=" "=")) with false. cbv iota.
  (* the blank after it, then the token up to the hash *)
  replace ((name ++ [NUL]) ++ "="%char :: " "%char :: tok ++ " "%char :: "#"%char :: rest')
    with (((name ++ [NUL]) ++ ["="%char]) ++ [" "%char]
            ++ (tok ++ [" "%char]) ++ "#"%char :: rest')
    by (rewrite <- !app_assoc; reflexivity).
  rewrite <- (snoc_length (name ++ [NUL]) "="%char).
  cbn [mbind outcome_bind].
  set (pre := (name ++ [NUL]) ++ ["="%char]) in *.
  assert (H3 : skip_blanks (S fuel')
                 (pre ++ [" "%char] ++ (tok ++ [" "%char]) ++ "#"%char :: rest')
                 (Z.of_nat (length pre))
               = Done (Z.of_nat (length (pre ++ [" "%char])))).
  { destruct tok as [| t0 tok0]; [done |]. simpl in Ht0c.
    pose proof (skip_blanks_over [" "%char] (S fuel') pre t0
                  ((tok0 ++ [" "%char]) ++ "#"%char :: rest')
                  eq_refl Ht0c ltac:(simpl; lia)) as H.
    rewrite <- !app_assoc in H |- *. simpl app in H |- *.
    rewrite H. by rewrite snoc_length. }
  rewrite H3. cbn [mbind outcome_bind].
  rewrite (app_assoc pre [" "%char]).
  rewrite scan_arg_over; cycle 1.
  { rewrite forallb_app. rewrite token_char_scan by done. reflexivity. }
  { rewrite length_app. simpl. lia. }
  cbn [mbind outcome_bind].
  replace (first_seen None (Z.of_nat (length (pre ++ [" "%char]))) (tok ++ [" "%char]))
    with (Some (Z.of_nat (length (pre ++ [" "%char]))))
    by (by destruct tok).
  cbv iota beta.
  (* the blank before the hash is cut off *)
  rewrite Et.
  replace ((pre ++ [" "%char]) ++ ((tok' ++ [tl]) ++ [" "%char]) ++ NUL :: rest')
    with ((((pre ++ [" "%char]) ++ tok') ++ [tl]) ++ " "%char :: NUL :: rest')
    by (rewrite <- !app_assoc; reflexivity).
  replace (Z.of_nat (length (pre ++ [" "%char]))
           + Z.of_nat (length ((tok' ++ [tl]) ++ [" "%char])) - 1)
    with (Z.of_nat (length ((pre ++ [" "%char]) ++ tok')) + 1)
    by (rewrite !length_app; simpl; lia).
  destruct fuel' as [| fuel'']; [lia |].
  rewrite strip_tail_one; cycle 1.
  { unfold token_char in Htlc. apply andb_true_iff in Htlc as [_ H].
    by apply negb_true_iff in H. }
  cbn [mbind outcome_bind].
  eexists. f_equal. f_equal. f_equal. f_equal.
  - subst pre. rewrite <- !app_assoc. simpl app.
    apply (cstring_at [] name _ 0); [reflexivity |].
    by apply (forallb_not_nul name_char); [apply name_char_not_nul |].
  - rewrite <- !app_assoc. rewrite (app_assoc tok' [tl]), <- Et.
    rewrite (app_assoc pre [" "%char]).
    apply cstring_at; [reflexivity |].
    by apply (forallb_not_nul token_char); [apply token_char_not_nul |].
Qed.

(** X21. When [fgets] has stored a line that is only an option name,
    with no equals sign and no line feed after it, as the last line of a
    file can be, and the bytes of the array after the NUL of that line,
    left by a longer line read before, are an equals sign, a blank, a
    value, a blank and a hash, then the tokenizer returns the name with
    that value: it goes on reading after the NUL that ends the line. *)
Theorem value_taken_from_stale_bytes (fuel : nat) (name tok rest : list ascii) :
  plain_name name = true -> plain_token tok = true ->
  (length name + length tok + 5 <= 256)%nat ->
  (length name + length tok + 5 < fuel)%nat ->
  exists line',
    tokenize fuel (name ++ NUL :: str "= " ++ tok ++ str " #" ++ rest)
      = Done (line', Some (name, tok)).
Proof.
  intros Hname Htok Hfit Hfuel.
  by apply tokenize_name_value.
Qed.

(** ** Saving the settings and loading them back *)

Lemma save_all_app es1 es2 m :
  save_all (es1 ++ es2) m
  = (out ← save_all es1 m; out' ← save_all es2 m; Done (out ++ out')).
Proof.
  induction es1 as [| e es1 IH]; cbn [save_all app].
  - cbn [mbind outcome_bind]. by destruct (save_all es2 m).
  - destruct (Menu_SaveOption e m) as [out |]; [| done]. cbn [mbind outcome_bind].
    rewrite IH. destruct (save_all es1 m) as [out1 |]; [| done].
    cbn [mbind outcome_bind]. destruct (save_all es2 m) as [out2 |]; [| done].
    cbn [mbind outcome_bind]. by rewrite app_assoc.
Qed.

Lemma Menu_SaveIterateRecurse_in_order (menus : MenuId -> Menu) (m : Memory)
    (depth : nat) : forall menu es,
  options_in_order menus depth menu = Done es ->
  Menu_SaveIterateRecurse menus depth menu m = save_all es m.
Proof.
  induction depth as [| depth IH]; intros menu es Hes; [done |].
  cbn [options_in_order Menu_SaveIterateRecurse] in *.
  revert es Hes.
  induction (Entries (menus menu)) as [| [cur |] rest IHrest]; intros es Hes.
  - done.
  - run_all_binds. simplify_eq. rewrite save_all_app.
    rewrite (IHrest _ eq_refl).
    destruct (Kind cur) eqn:Hkind.
    + simplify_eq. cbn [save_all].
      destruct (Menu_SaveOption cur m); [| done]. cbn [mbind outcome_bind].
      by rewrite app_nil_r.
    + destruct (Target cur) as [| | sub |]; try done.
      match goal with E : options_in_order _ _ _ = _ |- _ => by rewrite (IH _ _ E) end.
    + by simplify_eq.
    + by simplify_eq.
  - by simplify_eq.
Qed.

Lemma clean_app a b : clean (a ++ b) = clean a && clean b.
Proof. apply forallb_app. Qed.

Lemma clean_not_nul l : clean l = true -> Forall (fun c => c <> NUL) l.
Proof.
  intros H. eapply forallb_not_nul; [| exact H].
  intros c Hc ->. discriminate Hc.
Qed.

Lemma fgets_bytes_line body more : forall room,
  clean body = true -> (length body < room)%nat ->
  fgets_bytes room (body ++ LF :: more) = body ++ [LF].
Proof.
  induction body as [| c body IH]; intros room Hclean Hroom.
  - destruct room; [lia |]. reflexivity.
  - destruct room; [simpl in Hroom; lia |].
    simpl in Hclean. apply andb_prop in Hclean as [Hc Hclean].
    apply andb_prop in Hc as [_ Hc]. apply negb_true_iff in Hc.
    cbn [app fgets_bytes]. rewrite Hc. f_equal. apply IH; [done |].
    simpl in Hroom. lia.
Qed.

Lemma fgets_line body more :
  clean body = true -> (length body <= 254)%nat ->
  fgets 256 ((body ++ [LF]) ++ more) = Some (body ++ [LF], more).
Proof.
  intros Hclean Hlen. rewrite <- app_assoc. simpl app. unfold fgets.
  destruct (body ++ LF :: more) eqn:E; [by destruct body |]. rewrite <- E.
  rewrite fgets_bytes_line by (done || simpl; lia).
  f_equal. f_equal.
  replace (body ++ LF :: more) with ((body ++ [LF]) ++ more)
    by (by rewrite <- app_assoc).
  apply drop_app_length.
Qed.

Lemma saved_text_whole body :
  clean body = true -> (length body <= 254)%nat ->
  until_nul (snprintf 256 (body ++ [LF])) = body ++ [LF].
Proof.
  intros Hclean Hlen. unfold snprintf.
  rewrite take_ge by (rewrite length_app; simpl; lia).
  rewrite until_nul_plain_app by (by apply clean_not_nul). reflexivity.
Qed.

Section Names.

Hypothesis LEFT_clean : clean LEFT_FACE_BUTTON_NAME = true.
Hypothesis TOP_clean : clean TOP_FACE_BUTTON_NAME = true.
Hypothesis names_short :
  (length LEFT_FACE_BUTTON_NAME + length TOP_FACE_BUTTON_NAME <= 60)%nat.

Lemma ButtonText_clean k : 0 <= k < 16 -> clean (ButtonText k) = true.
Proof. intros Hk. button_cases k; first [reflexivity | assumption]. Qed.

Lemma ButtonText_length k : 0 <= k < 16 -> (length (ButtonText k) <= 60)%nat.
Proof.
  intros Hk. button_cases k; lazy -[length Nat.add Nat.le]; simpl; lia.
Qed.

Lemma ButtonSave_clean k : 0 <= k < 16 -> clean [ButtonSave k] = true.
Proof. intros Hk. button_cases k; reflexivity. Qed.

Lemma GetButtonsText_loop_clean Buttons (n : nat) : forall i AfterFirst Result,
  0 <= i -> i + Z.of_nat n <= 16 -> clean Result = true ->
  clean (GetButtonsText_loop Buttons n i AfterFirst Result) = true.
Proof.
  induction n as [| n IH]; intros i AfterFirst Result Hi Hn HR; [done |].
  cbn [GetButtonsText_loop]. destruct (negb _).
  - apply IH; [lia | lia |]. rewrite clean_app, ButtonText_clean by lia.
    destruct AfterFirst; [| by rewrite HR].
    by rewrite clean_app, HR.
  - apply IH; [lia | lia | done].
Qed.

Lemma GetButtonsText_clean Buttons : clean (GetButtonsText Buttons) = true.
Proof.
  unfold GetButtonsText. destruct (Buttons =? 0); [reflexivity |].
  apply GetButtonsText_loop_clean; [lia | unfold OPENDINGUX_BUTTON_COUNT; lia | done].
Qed.

Lemma SaveHotkey_loop_clean target (n : nat) : forall i,
  0 <= i -> i + Z.of_nat n <= 16 -> clean (SaveHotkey_loop target n i) = true.
Proof.
  induction n as [| n IH]; intros i Hi Hn; [done |].
  cbn [SaveHotkey_loop]. destruct (negb _).
  - change (ButtonSave i :: ?l) with ([ButtonSave i] ++ l).
    rewrite clean_app, ButtonSave_clean by lia. apply IH; lia.
  - apply IH; lia.
Qed.

(** The line written for an option entry: its bytes before the line
    feed have neither NUL nor line feed and fit, with the line feed, the
    255 bytes that [snprintf] keeps. *)
Lemma saved_line_shape (e : MenuEntry) (m : Memory) :
  well_coded e = true -> tidy e = true ->
  well_formed_value e (read_target e m) ->
  exists body,
    Menu_SaveOption e m = Done (body ++ [LF])
    /\ clean body = true /\ (length body <= 254)%nat.
Proof.
  unfold well_coded, tidy, well_formed_value, Menu_SaveOption.
  intros Hcoded Htidy Hwf.
  destruct (PersistentName e) as [name |] eqn:Hname; [| done].
  destruct (SaveFunction e) as [[| |] |] eqn:Hsave;
    destruct (LoadFunction e) as [[| |] |] eqn:Hload; try done;
    cbn [or_default] in *.
  - (* a mapping *)
    apply andb_prop in Htidy as [Hclean Hshort]. apply Nat.leb_le in Hshort.
    unfold SaveMappingFunction. rewrite Hname. cbn [deref mbind outcome_bind].
    assert (HT : clean (SaveMapping_Temp (read_target e m)) = true
                 /\ (length (SaveMapping_Temp (read_target e m)) <= 63)%nat).
    { destruct Hwf as [-> | (k & Hk & ->)].
      { change (SaveMapping_Temp 0) with (str "x #None"). split; [done | simpl; lia]. }
      destruct (SaveMapping_Temp_button k Hk) as (-> & _ & _).
      pose proof (ButtonText_length k Hk).
      rewrite !clean_app, ButtonSave_clean, ButtonText_clean by done.
      split; [done |]. rewrite !length_app. simpl. lia. }
    destruct HT as [HTc HTl].
    exists (name ++ str " = " ++ SaveMapping_Temp (read_target e m)).
    split; [| split].
    + replace (name ++ str " = " ++ SaveMapping_Temp (read_target e m) ++ [LF])
        with ((name ++ str " = " ++ SaveMapping_Temp (read_target e m)) ++ [LF])
        by (by rewrite <- !app_assoc).
      rewrite saved_text_whole; [done | |].
      * by rewrite !clean_app, Hclean, HTc.
      * rewrite !length_app. simpl. lia.
    + by rewrite !clean_app, Hclean, HTc.
    + rewrite !length_app. simpl. lia.
  - (* a hotkey *)
    apply andb_prop in Htidy as [Hclean Hshort]. apply Nat.leb_le in Hshort.
    unfold SaveHotkeyFunction. rewrite Hname. cbn [deref mbind outcome_bind].
    assert (HT : clean (SaveHotkey_Temp (read_target e m)) = true
                 /\ (length (SaveHotkey_Temp (read_target e m)) <= 191)%nat).
    { unfold SaveHotkey_Temp.
      pose proof (SaveHotkey_loop_clean (read_target e m) OPENDINGUX_BUTTON_COUNT 0
                    ltac:(lia) ltac:(unfold OPENDINGUX_BUTTON_COUNT; lia)) as Hcodes.
      pose proof (SaveHotkey_loop_length (read_target e m) OPENDINGUX_BUTTON_COUNT 0)
        as Hcl.
      pose proof (GetButtonsText_length (read_target e m)) as Htl.
      unfold OPENDINGUX_BUTTON_COUNT in Hcl.
      destruct (SaveHotkey_loop _ _ _) as [| c codes]; [split; [done | simpl; lia] |].
      rewrite !clean_app, Hcodes, GetButtonsText_clean. split; [done |].
      rewrite !length_app. simpl in *. lia. }
    destruct HT as [HTc HTl].
    exists (name ++ str " = " ++ SaveHotkey_Temp (read_target e m)).
    split; [| split].
    + replace (name ++ str " = " ++ SaveHotkey_Temp (read_target e m) ++ [LF])
        with ((name ++ str " = " ++ SaveHotkey_Temp (read_target e m)) ++ [LF])
        by (by rewrite <- !app_assoc).
      rewrite saved_text_whole; [done | |].
      * by rewrite !clean_app, Hclean, HTc.
      * rewrite !length_app. simpl. lia.
    + by rewrite !clean_app, Hclean, HTc.
    + rewrite !length_app. simpl. lia.
  - (* a choice *)
    apply andb_prop in Htidy as [Hclean Hchoices].
    apply andb_prop in Hcoded as [_ Hcount]. apply Z.eqb_eq in Hcount.
    unfold DefaultSaveFunction. rewrite Hname. cbn [deref mbind outcome_bind].
    unfold choice_at.
    destruct (lookup_lt_is_Some_2 (Choices e) (Z.to_nat (read_target e m)))
      as [c Hc]; [lia |].
    rewrite Hc. cbn [mbind outcome_bind].
    rewrite forallb_forall in Hchoices.
    specialize (Hchoices c (proj1 (list_elem_of_In _ _) (list_elem_of_lookup_2 _ _ _ Hc))).
    apply andb_prop in Hchoices as [Hcc Hfit]. apply andb_prop in Hcc as [Hcp Hcq].
    apply Nat.leb_le in Hfit.
    exists (name ++ str " = " ++ Persistent c ++ str " #" ++ Pretty c).
    split; [| split].
    + replace (name ++ str " = " ++ Persistent c ++ str " #" ++ Pretty c ++ [LF])
        with ((name ++ str " = " ++ Persistent c ++ str " #" ++ Pretty c) ++ [LF])
        by (by rewrite <- !app_assoc).
      rewrite saved_text_whole; [done | |].
      * by rewrite !clean_app, Hclean, Hcp, Hcq.
      * rewrite !length_app. simpl. lia.
    + by rewrite !clean_app, Hclean, Hcp, Hcq.
    + rewrite !length_app. simpl. lia.
Qed.

Lemma scan_arg_length (fuel : nat) : forall line cur arg line' cur' arg',
  scan_arg fuel line cur arg = Done (line', cur', arg') -> length line' = length line.
Proof.
  induction fuel as [| fuel IH]; intros line cur arg line' cur' arg' H; [done |].
  cbn [scan_arg] in H. destruct (negb _).
  - destruct (ceqb _ "#").
    + injection H as <- _ _. apply length_poke.
    + by eapply IH.
  - by injection H as <- _ _.
Qed.

Lemma strip_tail_length (fuel : nat) : forall line cur line',
  strip_tail fuel line cur = Done line' -> length line' = length line.
Proof.
  induction fuel as [| fuel IH]; intros line cur line' H; [done |].
  cbn [strip_tail] in H. destruct (_ || _).
  - apply IH in H. by rewrite H, length_poke.
  - by injection H as <-.
Qed.

Lemma tokenize_length fuel line line' tokens :
  tokenize fuel line = Done (line', tokens) -> length line' = length line.
Proof.
  unfold tokenize. intros H.
  destruct (skip_blanks fuel _ 0) as [cur |]; [| done]. cbn [mbind outcome_bind] in H.
  destruct (scan_name fuel _ cur None) as [[cur1 opt] |]; [| done].
  cbn [mbind outcome_bind] in H.
  destruct opt as [opt |]; [| injection H as <- _; by rewrite length_poke].
  match type of H with (?c ≫= _) = _ => destruct c as [after |]; [| done] end.
  cbn [mbind outcome_bind] in H.
  destruct after as [cur2 |]; [| injection H as <- _; by rewrite !length_poke].
  destruct (skip_blanks fuel _ cur2) as [cur3 |]; [| done].
  cbn [mbind outcome_bind] in H.
  destruct (scan_arg fuel _ cur3 None) as [[[line2 cur4] arg] |] eqn:Hscan; [| done].
  cbn [mbind outcome_bind] in H. apply scan_arg_length in Hscan.
  rewrite !length_poke in Hscan.
  destruct arg as [arg |]; [| injection H as <- _; done].
  destruct (strip_tail fuel line2 (cur4 - 1)) as [line3 |] eqn:Hstrip; [| done].
  cbn [mbind outcome_bind] in H. apply strip_tail_length in Hstrip.
  injection H as <- _. congruence.
Qed.

Lemma strcasecmp_eq_refl a : strcasecmp_eq a a = true.
Proof.
  induction a as [| x a IH]; [done |]. cbn [strcasecmp_eq].
  unfold ceqb. by rewrite Ascii.eqb_refl.
Qed.

Lemma write_read_same e m : write_target e (read_target e m) m = m.
Proof.
  unfold write_target, read_target. destruct (Target e) as [| v | |]; try done.
  destruct m as [b s sc u f a K H]. destruct v; try done; simpl.
  - f_equal. apply list_insert_id'. intros Hi. rewrite nth_lookup.
    by destruct (lookup_lt_is_Some_2 K i Hi) as [x ->].
  - f_equal. apply list_insert_id'. intros Hi. rewrite nth_lookup.
    by destruct (lookup_lt_is_Some_2 H i Hi) as [x ->].
Qed.

Lemma restored_same es m : restored es m m = m.
Proof.
  unfold restored. induction es as [| e es IH]; [done |].
  simpl. by rewrite write_read_same.
Qed.

Lemma load32_store32_ne m v w x : v <> w -> load32 (store32 w x m) v = load32 m v.
Proof.
  intros Hne. destruct v, w; try done; simpl.
  - rewrite !nth_lookup, list_lookup_insert_ne; [done | congruence].
  - rewrite !nth_lookup, list_lookup_insert_ne; [done | congruence].
Qed.

Lemma restored_read es m : forall m0 e v,
  NoDup (target_var <$> es) ->
  In e es -> Target e = T_Var v -> allocated m0 v ->
  read_target e (restored es m m0) = read_target e m.
Proof.
  unfold restored.
  induction es as [| x es IH]; intros m0 e v Hdup Hin Hv Hall; [done |].
  rewrite fmap_cons in Hdup. apply NoDup_cons in Hdup as [Hx Hdup].
  cbn [fold_left]. destruct (in_dec (fun a b => decide (a = b))
                               (Some v) (target_var <$> es)) as [Hlater | Hnot].
  - apply list_elem_of_In, list_elem_of_fmap in Hlater as (e' & He' & Hine').
    unfold target_var in He'. destruct (Target e') as [| v' | |] eqn:Hv'; try done.
    injection He' as <-.
    assert (Hsame : read_target e = read_target e').
    { unfold read_target. by rewrite Hv, Hv'. }
    rewrite Hsame. eapply IH; try done.
    + by apply list_elem_of_In.
    + unfold write_target. destruct (Target x); try done. by apply allocated_store32.
  - destruct Hin as [-> | Hin].
    + clear IH Hx Hdup.
      assert (Hkeep : forall m1, read_target e (fold_left
                (fun acc e0 => write_target e0 (read_target e0 m) acc) es m1)
                = read_target e m1).
      { induction es as [| y es IHes]; intros m1; [done |].
        cbn [fold_left]. rewrite IHes.
        - unfold read_target, write_target. rewrite Hv.
          destruct (Target y) as [| w | |] eqn:Hw; try done.
          apply load32_store32_ne. intros <-. apply Hnot.
          rewrite fmap_cons. left. unfold target_var. by rewrite Hw.
        - intros H. apply Hnot. rewrite fmap_cons. by right. }
      rewrite Hkeep. by eapply read_write_target.
    + exfalso. apply Hnot. apply list_elem_of_In, list_elem_of_fmap.
      exists e. split; [| by apply list_elem_of_In].
      unfold target_var. by rewrite Hv.
Qed.

Lemma load_line_saved (menus : MenuId -> Menu) fuel e m m0 line log body :
  well_coded e = true -> well_formed_value e (read_target e m) ->
  (261 <= fuel)%nat ->
  Menu_SaveOption e m = Done (body ++ [LF]) -> (length body <= 254)%nat ->
  length line = 257%nat ->
  (forall name, PersistentName e = Some name ->
     Menu_FindByPersistentName menus fuel MainMenu name = Done (Some e)) ->
  exists line',
    load_line menus fuel (strcpy line 0 (body ++ [LF])) m0 log
      = (log, Done (line', write_target e (read_target e m) m0))
    /\ length line' = 257%nat.
Proof.
  intros Hcoded Hwf Hfuel Hsave Hlen Hline Hfind.
  rewrite strcpy_line by (rewrite length_app; simpl; lia).
  destruct (well_coded_round_trip e m m0 log fuel
              (drop (S (length (body ++ [LF]))) line) Hcoded Hwf Hfuel)
    as (name & text & tok & line' & Hname & Htext & Htok & Hload).
  rewrite Hsave in Htext. injection Htext as <-.
  exists line'. split.
  - unfold load_line, load_option, mbind, traced_bind, lift.
    rewrite Htok, (Hfind name Hname). cbn [mret traced_ret deref].
    by rewrite Hload.
  - apply tokenize_length in Htok. rewrite Htok.
    rewrite length_app. cbn [length]. rewrite length_drop, length_app. simpl. lia.
Qed.

Lemma load_lines_saved (menus : MenuId -> Menu) fuel m log (es : list MenuEntry) :
  forall file passes line m0,
  Forall (fun e => well_coded e = true /\ tidy e = true
                   /\ well_formed_value e (read_target e m)
                   /\ forall name, PersistentName e = Some name ->
                        Menu_FindByPersistentName menus fuel MainMenu name
                          = Done (Some e)) es ->
  (261 <= fuel)%nat ->
  save_all es m = Done file -> length line = 257%nat -> (length es < passes)%nat ->
  load_lines menus fuel passes line file m0 log = (log, Done (restored es m m0)).
Proof.
  induction es as [| e es IH]; intros file passes line m0 Hes Hfuel Hsave Hline Hpasses.
  - injection Hsave as <-. destruct passes; [simpl in Hpasses; lia |]. reflexivity.
  - apply Forall_cons in Hes as [(Hcoded & Htidy & Hwf & Hfind) Hes].
    destruct (saved_line_shape e m Hcoded Htidy Hwf) as (body & Hbody & Hclean & Hlen).
    cbn [save_all] in Hsave. rewrite Hbody in Hsave. cbn [mbind outcome_bind] in Hsave.
    destruct (save_all es m) as [file' |] eqn:Hrest; [| done].
    cbn [mbind outcome_bind] in Hsave. injection Hsave as <-.
    destruct passes as [| passes]; [simpl in Hpasses; lia |].
    cbn [load_lines]. rewrite fgets_line by done.
    destruct (load_line_saved menus fuel e m m0 line log body)
      as (line' & Hload & Hline'); try done.
    unfold mbind, traced_bind. rewrite Hload.
    rewrite (IH file' passes line' (write_target e (read_target e m) m0));
      try done; simpl in Hpasses; lia.
Qed.

Lemma settings_in_order_coded (GCW_ZERO : bool) :
  forallb (fun e => well_coded e && tidy e) (settings_in_order GCW_ZERO) = true
  /\ NoDup (target_var <$> settings_in_order GCW_ZERO).
Proof.
  split; [by destruct GCW_ZERO |].
  destruct GCW_ZERO; apply (bool_decide_unpack _); by vm_compute.
Qed.

(** X22. The settings file, with the menus of the source having every
    [Entries] ended by a NULL, either setting of the build switches, and
    the names of the left and top face buttons free of NUL and line feed
    and of 60 bytes together at most. When every option holds a
    well-formed value, [ReGBA_SaveSettings] traces nothing, returns true
    and writes the lines of the option entries, in the order of the menus.
    [ReGBA_LoadSettings] on that file, whatever the settings are that it
    starts from, traces nothing and ends, with the fix-up applied to
    settings in which every option that was saved has the value that was
    saved; started from the settings that were saved, these are the
    settings that were saved. *)
Theorem settings_file_round_trip
    (GCW_ZERO PERFORMANCE_IMPACTING_STATISTICS : bool) (m m0 : Memory) (fuel : nat)
    (MAX_PATH : Z) (main_path cfg_name line : list ascii)
    (writable : list ascii -> bool) (files : list ascii -> option (list ascii))
    (log log' : Log) :
  let menus := with_sentinels
                 (static_menus GCW_ZERO PERFORMANCE_IMPACTING_STATISTICS) in
  let fname := main_path ++ str "/" ++ cfg_name ++ str ".cfg" in
  (forall e, In e (settings_in_order GCW_ZERO) ->
     well_formed_value e (read_target e m)) ->
  Z.of_nat (length main_path) + Z.of_nat (length cfg_name) + 5 <= MAX_PATH ->
  writable fname = true ->
  length line = 257%nat -> (261 <= fuel)%nat ->
  exists file,
    ReGBA_SaveSettings menus fuel MAX_PATH main_path writable cfg_name m log
      = (log, Done (true, Some (fname, file)))
    /\ save_all (settings_in_order GCW_ZERO) m = Done file
    /\ (files fname = Some file ->
        ReGBA_LoadSettings menus fuel MAX_PATH main_path files line cfg_name m0 log'
          = (log', Done (FixUpSettings (restored (settings_in_order GCW_ZERO) m m0)))
        /\ (forall e v, In e (settings_in_order GCW_ZERO) ->
              Target e = T_Var v -> allocated m0 v ->
              read_target e (restored (settings_in_order GCW_ZERO) m m0)
                = read_target e m)
        /\ restored (settings_in_order GCW_ZERO) m m = m).
Proof.
  intros menus fname Hwf Hpath Hwritable Hline Hfuel.
  destruct (settings_in_order_coded GCW_ZERO) as [Hcoded Hdup].
  rewrite forallb_forall in Hcoded.
  destruct (settings_in_order_named GCW_ZERO) as [Hnames Hapart].
  assert (Horder : options_in_order menus fuel MainMenu
                   = Done (settings_in_order GCW_ZERO)).
  { replace fuel with (3 + (fuel - 3))%nat by lia. apply options_in_order_static. }
  assert (Hes : Forall (fun e => well_coded e = true /\ tidy e = true
                   /\ well_formed_value e (read_target e m)
                   /\ forall name, PersistentName e = Some name ->
                        Menu_FindByPersistentName menus fuel MainMenu name
                          = Done (Some e)) (settings_in_order GCW_ZERO)).
  { apply Forall_forall. intros e He. apply list_elem_of_In in He.
    specialize (Hcoded e He). apply andb_prop in Hcoded as [Hc Ht].
    repeat split; try done; [by apply Hwf |].
    intros name Hname.
    rewrite (Menu_FindByPersistentName_in_order _ _ _ _ _ Horder Hnames).
    rewrite (find_named_apart name e); try done.
    unfold named. rewrite Hname. apply strcasecmp_eq_refl. }
  assert (Hfile : exists file, save_all (settings_in_order GCW_ZERO) m = Done file).
  { clear -Hes LEFT_clean TOP_clean names_short.
    induction Hes as [| e es (Hc & Ht & Hw & _) _ IH]; [by exists [] |].
    destruct (saved_line_shape e m Hc Ht Hw) as (body & Hbody & _).
    destruct IH as [file' Hfile']. exists ((body ++ [LF]) ++ file').
    cbn [save_all]. by rewrite Hbody, Hfile'. }
  destruct Hfile as [file Hfile]. exists file. split; [| split; [done |]].
  - unfold ReGBA_SaveSettings.
    replace (MAX_PATH <? _) with false by (symmetry; apply Z.ltb_ge; lia).
    fold fname. cbv zeta. rewrite Hwritable.
    unfold mbind, traced_bind, lift.
    rewrite (Menu_SaveIterateRecurse_in_order _ _ _ _ _ Horder), Hfile. reflexivity.
  - intros Hfiles. split; [| split].
    + unfold ReGBA_LoadSettings.
      replace (MAX_PATH <? _) with false by (symmetry; apply Z.ltb_ge; lia).
      fold fname. cbv zeta. rewrite Hfiles. unfold mbind, traced_bind.
      rewrite (load_lines_saved menus fuel m log' (settings_in_order GCW_ZERO)
                 file fuel line m0); try done.
      destruct GCW_ZERO; simpl; lia.
    + intros e v He Hv Hall. by eapply restored_read.
    + apply restored_same.
Qed.

End Names.

(** ** The lines that the tokenizer accepts *)

Lemma scan_arg_to_nul tok : forall fuel pre rest arg,
  forallb (fun c => negb (ceqb c NUL) && negb (ceqb c "#")) tok = true ->
  (length tok < fuel)%nat ->
  scan_arg fuel (pre ++ tok ++ NUL :: rest) (Z.of_nat (length pre)) arg
    = Done (pre ++ tok ++ NUL :: rest,
            Z.of_nat (length pre) + Z.of_nat (length tok),
            first_seen arg (Z.of_nat (length pre)) tok).
Proof.
  induction tok as [| x tok IH]; intros fuel pre rest arg Ht Hfuel.
  - destruct fuel as [| fuel]; [simpl in Hfuel; lia |].
    cbn [scan_arg]. simpl app. rewrite peek_middle.
    simpl. rewrite Z.add_0_r. by destruct arg.
  - destruct fuel as [| fuel]; [simpl in Hfuel; lia |].
    simpl in Ht. apply andb_true_iff in Ht as [Hx Ht].
    apply andb_true_iff in Hx as [Hx Hhash].
    cbn [scan_arg]. simpl app. rewrite peek_middle, Hx.
    apply negb_true_iff in Hhash. rewrite Hhash.
    rewrite <- (snoc_length pre x).
    replace (pre ++ x :: tok ++ NUL :: rest)
      with ((pre ++ [x]) ++ tok ++ NUL :: rest) by (by rewrite <- app_assoc).
    rewrite IH by (done || (simpl in Hfuel; lia)).
    f_equal. f_equal.
    + f_equal; rewrite ?snoc_length; simpl length; lia.
    + by destruct arg, tok.
Qed.

Lemma strip_tail_over trail : forall fuel pre last rest,
  strippable last = false -> forallb strippable trail = true ->
  (length trail < fuel)%nat ->
  strip_tail fuel ((pre ++ [last]) ++ trail ++ rest)
    (Z.of_nat (length pre) + Z.of_nat (length trail))
    = Done ((pre ++ [last]) ++ replicate (length trail) NUL ++ rest).
Proof.
  induction trail as [| t trail IH] using rev_ind; intros fuel pre last rest Hlast Ht Hfuel.
  - destruct fuel as [| fuel]; [simpl in Hfuel; lia |].
    cbn [strip_tail]. simpl. rewrite Z.add_0_r.
    rewrite <- app_assoc. simpl app. rewrite peek_middle.
    unfold strippable in Hlast. by rewrite Hlast.
  - destruct fuel as [| fuel]; [simpl in Hfuel; lia |].
    rewrite forallb_app in Ht. apply andb_true_iff in Ht as [Ht Htt].
    simpl in Htt. rewrite andb_true_r in Htt.
    cbn [strip_tail].
    replace ((pre ++ [last]) ++ (trail ++ [t]) ++ rest)
      with (((pre ++ [last]) ++ trail) ++ t :: rest)
      by (rewrite <- !app_assoc; reflexivity).
    replace (Z.of_nat (length pre) + Z.of_nat (length (trail ++ [t])))
      with (Z.of_nat (length ((pre ++ [last]) ++ trail)))
      by (rewrite !length_app; simpl; lia).
    rewrite peek_middle, poke_middle.
    unfold strippable in Htt. rewrite Htt.
    replace (Z.of_nat (length ((pre ++ [last]) ++ trail)) - 1)
      with (Z.of_nat (length pre) + Z.of_nat (length trail))
      by (rewrite !length_app; simpl; lia).
    rewrite <- app_assoc.
    rewrite IH by (done || (rewrite length_app in Hfuel; simpl in Hfuel; lia)).
    f_equal. f_equal. rewrite length_app. simpl length.
    rewrite Nat.add_1_r, replicate_S_end. by rewrite <- app_assoc.
Qed.

Lemma strippable_scan c :
  strippable c = true -> negb (ceqb c NUL) && negb (ceqb c "#") = true.
Proof.
  unfold strippable, is_blank, ceqb. intros H.
  repeat (apply orb_prop in H as [H | H]); apply Ascii.eqb_eq in H; by subst.
Qed.

Lemma replicate_NUL_shift (n : nat) (rest : list ascii) :
  replicate n NUL ++ NUL :: rest = NUL :: replicate n NUL ++ rest.
Proof. induction n as [| n IH]; simpl; [done | by rewrite IH]. Qed.

(** The part of the tokenizer after the equals sign, on an array that
    holds [P] up to and with the equals sign. *)
Lemma argument_cut fuel (P b3 value trail : list ascii) (ending : ascii)
    (rest : list ascii) (opt : Z) (name : list ascii) :
  forallb is_blank b3 = true -> value_text value = true ->
  forallb strippable trail = true ->
  ending = NUL \/ ending = "#"%char ->
  (length b3 + length value + length trail < fuel)%nat ->
  (forall tl, cstring (P ++ tl) opt = name) ->
  exists line',
    (cur ← skip_blanks fuel (P ++ b3 ++ value ++ trail ++ ending :: rest)
             (Z.of_nat (length P));
     '(line, cur, arg) ← scan_arg fuel (P ++ b3 ++ value ++ trail ++ ending :: rest)
                           cur None;
     match arg with
     | None => Done (line, None)
     | Some arg =>
         line ← strip_tail fuel line (cur - 1);
         Done (line, Some (cstring line opt, cstring line arg))
     end) = Done (line', Some (name, value)).
Proof.
  intros Hb3 Hvalue Htrail Hending Hfuel Hopt.
  unfold value_text in Hvalue.
  apply andb_true_iff in Hvalue as [Hvalue Hlast].
  apply andb_true_iff in Hvalue as [Hvalue Hhd].
  apply andb_true_iff in Hvalue as [Hne Hv].
  apply negb_true_iff, bool_decide_eq_false in Hne.
  apply negb_true_iff in Hhd, Hlast.
  destruct (exists_last Hne) as (value' & vl & Evalue).
  assert (Hvl : strippable vl = false).
  { rewrite Evalue in Hlast. by rewrite last_last in Hlast. }
  (* the blanks after the equals sign *)
  assert (H1 : skip_blanks fuel (P ++ b3 ++ value ++ trail ++ ending :: rest)
                 (Z.of_nat (length P))
               = Done (Z.of_nat (length (P ++ b3)))).
  { destruct value as [| v0 value0]; [done |]. simpl in Hhd. simpl app.
    rewrite (skip_blanks_over b3 fuel P v0 _ Hb3 Hhd) by lia.
    f_equal. rewrite length_app. lia. }
  rewrite H1. cbn [mbind outcome_bind].
  (* the argument, up to the hash or the NUL *)
  assert (H2 : scan_arg fuel (P ++ b3 ++ value ++ trail ++ ending :: rest)
                 (Z.of_nat (length (P ++ b3))) None
               = Done ((P ++ b3) ++ (value ++ trail) ++ NUL :: rest,
                       Z.of_nat (length (P ++ b3)) + Z.of_nat (length (value ++ trail)),
                       Some (Z.of_nat (length (P ++ b3))))).
  { assert (Hscan : forallb (fun c => negb (ceqb c NUL) && negb (ceqb c "#"))
                      (value ++ trail) = true).
    { rewrite forallb_app, Hv. simpl. apply forallb_forall. intros c Hc.
      rewrite forallb_forall in Htrail. by apply strippable_scan, Htrail. }
    replace (P ++ b3 ++ value ++ trail ++ ending :: rest)
      with ((P ++ b3) ++ (value ++ trail) ++ ending :: rest)
      by (rewrite <- !app_assoc; reflexivity).
    destruct Hending as [-> | ->].
    - rewrite scan_arg_to_nul by (done || rewrite length_app; lia).
      do 2 f_equal. by destruct value.
    - rewrite scan_arg_over by (done || rewrite length_app; lia).
      do 2 f_equal. by destruct value. }
  rewrite H2. cbn [mbind outcome_bind].
  (* what is cut off after it *)
  assert (H3 : strip_tail fuel ((P ++ b3) ++ (value ++ trail) ++ NUL :: rest)
                 (Z.of_nat (length (P ++ b3)) + Z.of_nat (length (value ++ trail)) - 1)
               = Done (((P ++ b3 ++ value') ++ [vl])
                         ++ replicate (length trail) NUL ++ NUL :: rest)).
  { rewrite Evalue.
    replace ((P ++ b3) ++ ((value' ++ [vl]) ++ trail) ++ NUL :: rest)
      with (((P ++ b3 ++ value') ++ [vl]) ++ trail ++ NUL :: rest)
      by (rewrite <- !app_assoc; reflexivity).
    replace (Z.of_nat (length (P ++ b3))
             + Z.of_nat (length ((value' ++ [vl]) ++ trail)) - 1)
      with (Z.of_nat (length (P ++ b3 ++ value')) + Z.of_nat (length trail))
      by (rewrite !length_app; simpl; lia).
    apply strip_tail_over; [done | done | lia]. }
  rewrite H3. cbn [mbind outcome_bind].
  assert (Hn : cstring (((P ++ b3 ++ value') ++ [vl])
                          ++ replicate (length trail) NUL ++ NUL :: rest) opt = name).
  { rewrite <- !app_assoc. apply Hopt. }
  assert (Ha : cstring (((P ++ b3 ++ value') ++ [vl])
                          ++ replicate (length trail) NUL ++ NUL :: rest)
                 (Z.of_nat (length (P ++ b3))) = value).
  { rewrite replicate_NUL_shift.
    replace ((P ++ b3 ++ value') ++ [vl]) with ((P ++ b3) ++ value)
      by (rewrite Evalue, <- !app_assoc; reflexivity).
    rewrite <- app_assoc. apply cstring_at; [done |].
    eapply forallb_not_nul; [| exact Hv].
    intros c Hc ->. discriminate Hc. }
  rewrite Hn, Ha. by eexists.
Qed.

(** X23. The lines that the tokenizer accepts. A line made of blanks,
    none or more; an option name; blanks; an equals sign; blanks; a value
    that neither starts with a blank nor ends with a blank, a line feed or
    a carriage return, and that has no hash, but may have blanks inside;
    blanks, line feeds and carriage returns; and then the end of the line
    or a hash and anything after it: is cut into the name and the value,
    whatever the array holds after the line. *)
Theorem tokenize_accepts (fuel : nat) (b1 name b2 b3 value trail : list ascii)
    (ending : ascii) (rest : list ascii) :
  forallb is_blank b1 = true -> plain_name name = true ->
  forallb is_blank b2 = true -> forallb is_blank b3 = true ->
  value_text value = true -> forallb strippable trail = true ->
  ending = NUL \/ ending = "#"%char ->
  (length b1 + length name + length b2 + length b3 + length value + length trail + 2
   <= 256)%nat ->
  (256 < fuel)%nat ->
  exists line',
    tokenize fuel (b1 ++ name ++ b2 ++ "="%char :: b3 ++ value ++ trail
                     ++ ending :: rest)
      = Done (line', Some (name, value)).
Proof.
  intros Hb1 Hname Hb2 Hb3 Hvalue Htrail Hending Hfit Hfuel.
  apply andb_true_iff in Hname as [Hn0 Hname].
  apply negb_true_iff, bool_decide_eq_false in Hn0.
  assert (Hnul : Forall (fun c => c <> NUL) name)
    by (by apply (forallb_not_nul name_char); [apply name_char_not_nul |]).
  assert (Hhd : is_blank (hd NUL name) = false).
  { destruct name as [| n0 name']; [done |]. simpl in Hname |- *.
    apply andb_true_iff in Hname as [H _]. unfold name_char in H.
    apply andb_true_iff in H as [H _]. apply andb_true_iff in H as [_ H].
    apply negb_true_iff in H. by apply orb_false_iff in H as [H _]. }
  unfold tokenize.
  destruct (poke_beyond (b1 ++ name ++ b2 ++ ["="%char] ++ b3 ++ value ++ trail
                           ++ [ending]) rest 256 NUL) as (rest' & Hpoke & _).
  { rewrite !length_app. simpl. lia. }
  rewrite <- !app_assoc in Hpoke. simpl app in Hpoke. rewrite Hpoke. clear Hpoke.
  set (tail := b3 ++ value ++ trail ++ ending :: rest').
  (* the leading blanks *)
  assert (H1 : skip_blanks fuel (b1 ++ name ++ b2 ++ "="%char :: tail) 0
               = Done (Z.of_nat (length b1))).
  { destruct name as [| n0 name']; [done |].
    apply (skip_blanks_over b1 fuel [] n0 _ Hb1 Hhd). lia. }
  rewrite H1. cbn [mbind outcome_bind].
  assert (Hopt : forall l, cstring (b1 ++ name ++ NUL :: l) (Z.of_nat (length b1)) = name)
    by (intros l; by apply cstring_at).
  destruct b2 as [| c2 b2'].
  - (* the equals sign ends the name *)
    simpl app.
    rewrite (scan_name_over name fuel b1 "="%char tail None Hname eq_refl) by lia.
    cbn [mbind outcome_bind].
    replace (first_seen None (Z.of_nat (length b1)) name)
      with (Some (Z.of_nat (length b1))) by (by destruct name).
    cbv iota beta.
    replace (b1 ++ name ++ "="%char :: tail) with ((b1 ++ name) ++ "="%char :: tail)
      by (by rewrite <- app_assoc).
    replace (Z.of_nat (length b1) + Z.of_nat (length name))
      with (Z.of_nat (length (b1 ++ name))) by (rewrite length_app; lia).
    rewrite peek_middle, poke_middle.
    change (negb (ceqb "=" "=")) with false. cbv iota. cbn [mbind outcome_bind].
    replace ((b1 ++ name) ++ NUL :: tail) with (((b1 ++ name) ++ [NUL]) ++ tail)
      by (by rewrite <- app_assoc).
    rewrite <- (snoc_length (b1 ++ name) NUL).
    apply argument_cut; try done; [simpl in Hfit; lia |].
    intros tl. rewrite <- !app_assoc. apply Hopt.
  - (* a blank ends the name *)
    simpl in Hb2. apply andb_true_iff in Hb2 as [Hc2 Hb2].
    assert (Hc2s : negb (ceqb c2 NUL) && negb (is_blank c2 || ceqb c2 "=") = false).
    { rewrite Hc2. simpl. apply andb_false_r. }
    assert (Hc2e : ceqb c2 "=" = false).
    { unfold is_blank, ceqb in *. apply orb_prop in Hc2 as [H | H];
        apply Ascii.eqb_eq in H; by subst. }
    simpl app.
    rewrite (scan_name_over name fuel b1 c2 (b2' ++ "="%char :: tail) None Hname Hc2s)
      by lia.
    cbn [mbind outcome_bind].
    replace (first_seen None (Z.of_nat (length b1)) name)
      with (Some (Z.of_nat (length b1))) by (by destruct name).
    cbv iota beta.
    replace (b1 ++ name ++ c2 :: b2' ++ "="%char :: tail)
      with ((b1 ++ name) ++ c2 :: b2' ++ "="%char :: tail)
      by (by rewrite <- app_assoc).
    replace (Z.of_nat (length b1) + Z.of_nat (length name))
      with (Z.of_nat (length (b1 ++ name))) by (rewrite length_app; lia).
    rewrite peek_middle, poke_middle, Hc2e. cbn [negb].
    replace ((b1 ++ name) ++ NUL :: b2' ++ "="%char :: tail)
      with (((b1 ++ name) ++ [NUL]) ++ b2' ++ "="%char :: tail)
      by (by rewrite <- app_assoc).
    rewrite <- (snoc_length (b1 ++ name) NUL).
    rewrite (skip_blanks_over b2' fuel _ "="%char tail Hb2 eq_refl)
      by (simpl in Hfit; lia).
    cbn [mbind outcome_bind].
    replace (((b1 ++ name) ++ [NUL]) ++ b2' ++ "="%char :: tail)
      with ((((b1 ++ name) ++ [NUL]) ++ b2') ++ "="%char :: tail)
      by (by rewrite <- app_assoc).
    replace (Z.of_nat (length ((b1 ++ name) ++ [NUL])) + Z.of_nat (length b2'))
      with (Z.of_nat (length (((b1 ++ name) ++ [NUL]) ++ b2')))
      by (rewrite (length_app _ b2'); lia).
    rewrite peek_middle. change (negb (ceqb "=" "=")) with false. cbv iota.
    cbn [mbind outcome_bind].
    replace ((((b1 ++ name) ++ [NUL]) ++ b2') ++ "="%char :: tail)
      with (((((b1 ++ name) ++ [NUL]) ++ b2') ++ ["="%char]) ++ tail)
      by (by rewrite <- app_assoc).
    rewrite <- (snoc_length (((b1 ++ name) ++ [NUL]) ++ b2') "="%char).
    apply argument_cut; try done; [simpl in Hfit; lia |].
    intros tl. rewrite <- !app_assoc. apply Hopt.
Qed.


End Port.

(* ================================================================== *)
(** * Part III: instances *)
(* ================================================================== *)

(** Frame skipping, at its fourth choice of five: five steps to the right
    meet every index once. *)
Lemma option_cycling_witness :
  visited (DefaultRightFunction DisplayMenu_Frameskip) DisplayMenu_Frameskip
    sample_memory 5 ≡ₚ seqZ 0 5.
Proof.
  destruct (option_cycling DisplayMenu_Frameskip P_UserFrameskip sample_memory)
    as (_ & _ & _ & _ & H & _).
  - reflexivity.
  - reflexivity.
  - exact I.
  - split; reflexivity.
  - split; [discriminate | reflexivity].
  - exact H.
Defined.

(** The least signed 64-bit value. *)
Lemma print_i64_decimal_witness :
  decimal_of INT64_MIN (cstring (print_i64 (replicate 21 "?"%char) INT64_MIN) 0)
  /\ (INT64_MIN = INT64_MIN ->
      cstring (print_i64 (replicate 21 "?"%char) INT64_MIN) 0
        = str "-9223372036854775808").
Proof.
  apply (print_i64_decimal (replicate 21 "?"%char) INT64_MIN).
  - reflexivity.
  - unfold INT64_MIN, INT64_MAX. lia.
Defined.

(** A pressed, then A and B, then A, B and L, then B and L, with A still
    held when the capture starts. *)
Lemma hotkey_capture_merge_witness :
  GrabButtons (gesture [button 9] 0 (button 9)
                 [ Z.lor (button 9) (button 8);
                   Z.lor (Z.lor (button 9) (button 8)) (button 0);
                   Z.lor (button 8) (button 0) ] [])
    = Done (Z.lor (Z.lor (button 9) (button 8)) (button 0), [])
  /\ GrabButtons (gesture [button 9] 0 (button 9) [button 8] [])
       = Done (button 8, []).
Proof.
  apply (proj2 (proj2 hotkey_capture_merge) 9 8 0 [button 9] 0%nat []); try lia.
  repeat constructor. discriminate.
Defined.

(** B pressed alone for "GBA A", with A still held when the capture
    starts. *)
Lemma single_capture_resolution_witness :
  exists m',
    ActionSetMapping (static_menus true false) ButtonMappingMenu 0
      (mkWorld sample_memory (gesture [button 9] 0 (button 8) [] []) [])
      = Done (Some ButtonMappingMenu, 0, mkWorld m' [] [])
    /\ (single_button (button 8) ->
        m' = write_target ButtonMappingMenu_A (button 8) sample_memory)
    /\ (~ single_button (button 8) -> m' = sample_memory).
Proof.
  apply (proj2 single_capture_resolution (static_menus true false) ButtonMappingMenu 0
           ButtonMappingMenu_A
           (mkWorld sample_memory (gesture [button 9] 0 (button 8) [] []) [])
           [button 9] 0%nat (button 8) [] []).
  - reflexivity.
  - reflexivity.
  - repeat constructor. discriminate.
  - repeat constructor.
Defined.

(** The second slot unbound: the whole table becomes the built-in one. *)
Lemma fixup_all_or_nothing_witness :
  FixUpSettings [512; 256; 128; 64; 32; 16; 8; 4; 2; 1; 0; 0; 2048] sample_memory
    = mkMemory 0 0 0 3 0 0 [512; 256; 128; 64; 32; 16; 8; 4; 2; 1; 0; 0; 2048] [0].
Proof.
  destruct (fixup_all_or_nothing
              [512; 256; 128; 64; 32; 16; 8; 4; 2; 1; 0; 0; 2048] sample_memory)
    as [_ H].
  - reflexivity.
  - unfold sample_memory. simpl. lia.
  - apply H. exists 1%nat. split; [| reflexivity].
    unfold checked_slots. repeat constructor.
Defined.

(** "frameskip = 2 #2 (~20 FPS)". *)
Lemma settings_round_trip_witness :
  exists name text tok line' m1,
    PersistentName DisplayMenu_Frameskip = Some name
    /\ Menu_SaveOption (str "Y") (str "X") DisplayMenu_Frameskip sample_memory
         = Done text
    /\ tokenize 261 (text ++ [NUL]) = Done (line', Some (name, tok))
    /\ call_load DisplayMenu_Frameskip tok (mkMemory 0 0 0 0 0 0 [] []) []
         = ([], Done m1)
    /\ m1 = write_target DisplayMenu_Frameskip
              (read_target DisplayMenu_Frameskip sample_memory)
              (mkMemory 0 0 0 0 0 0 [] [])
    /\ (forall v, Target DisplayMenu_Frameskip = T_Var v ->
                  allocated (mkMemory 0 0 0 0 0 0 [] []) v ->
                  read_target DisplayMenu_Frameskip m1
                    = read_target DisplayMenu_Frameskip sample_memory).
Proof.
  apply (settings_round_trip (str "Y") (str "X") true false DisplayMenu_Frameskip
           sample_memory (mkMemory 0 0 0 0 0 0 [] []) [] 261 []).
  - simpl. tauto.
  - change (0 <= 3 < 5). lia.
  - lia.
Defined.

(** "GBA A" holding two buttons. *)
Lemma mapping_not_single_saved_as_x_witness :
  SaveMappingFunction (str "Y") (str "X") ButtonMappingMenu_A sample_memory
    = Done (str "gba_a" ++ str " = x #None" ++ [LF])
  /\ (exists line',
        tokenize 261 ((str "gba_a" ++ str " = x #None" ++ [LF]) ++ [NUL])
          = Done (line', Some (str "gba_a", str "x")))
  /\ LoadMappingFunction ButtonMappingMenu_A (str "x") sample_memory
       = write_target ButtonMappingMenu_A 0 sample_memory.
Proof.
  apply (mapping_not_single_saved_as_x (str "Y") (str "X") ButtonMappingMenu_A
           (str "gba_a") sample_memory sample_memory 261 []).
  - reflexivity.
  - reflexivity.
  - simpl. lia.
  - change (0 <= 3 < 2 ^ 32). lia.
  - change (~ one_button_of_16 3). intros (k & Hk & H).
    pose proof (H 0 ltac:(lia)) as H0. pose proof (H 1 ltac:(lia)) as H1.
    simpl in H0, H1. symmetry in H0, H1.
    apply Z.eqb_eq in H0, H1. lia.
  - lia.
Defined.

(** The menus with every [Entries] ended by a NULL: "foo" is looked up in
    all of them and not found. *)
Lemma unknown_key_faults_witness :
  load_line (with_sentinels (static_menus true false)) 12
    (str "foo = bar" ++ [LF; NUL]) sample_memory []
    = ([str "W: Option 'foo' not found; ignored"], Trap NullDereference).
Proof.
  apply (proj1 unknown_key_faults (with_sentinels (static_menus true false)) 12%nat
           [] sample_memory []).
  - lia.
  - reflexivity.
Defined.

(** A table with an unbound slot and a built-in map without one. *)
Lemma FixUpSettings_repairs_witness :
  KeypadRemapping
    (FixUpSettings [512; 256; 128; 64; 32; 16; 8; 4; 2; 1; 0; 0; 2048] sample_memory)
    !! 1%nat <> Some 0.
Proof.
  apply (proj2 (FixUpSettings_repairs
                  [512; 256; 128; 64; 32; 16; 8; 4; 2; 1; 0; 0; 2048] sample_memory)).
  - simpl. lia.
  - intros i Hi. unfold checked_slots in Hi.
    repeat (apply elem_of_cons in Hi as [-> | Hi]; [discriminate |]).
    by apply elem_of_nil in Hi.
  - unfold checked_slots. repeat constructor.
Defined.

(** A path limit of 8 bytes and the names "/cfg" and "global_config". *)
Lemma settings_file_errors_witness :
  ReGBA_LoadSettings [] (static_menus true false) 300 8 (str "/cfg") (fun _ => None)
    (replicate 257 NUL) (str "global_config") sample_memory []
    = ([str "E: Somehow you hit the filename size limit :o" ++ [LF]],
       Done sample_memory).
Proof.
  apply (proj1 (proj1 (settings_file_errors (str "Y") (str "X") []
                         (static_menus true false) 300 8
                         (str "/cfg") (str "global_config") (replicate 257 NUL)
                         sample_memory []) ltac:(simpl; lia))).
Defined.

(** The button A. *)
Lemma GetButtonText_valid_witness :
  GetButtonText (str "Y") (str "X") (button 9) = (str "A", true).
Proof.
  apply (proj1 (proj2 (proj2 (GetButtonText_valid (str "Y") (str "X") (button 9)))) 9).
  lia.
Defined.

(** The button R alone. *)
Lemma GetButtonsText_joined_witness :
  GetButtonsText (str "Y") (str "X") (button 1)
    = fst (GetButtonText (str "Y") (str "X") (button 1)).
Proof.
  apply (proj2 (GetButtonsText_joined (str "Y") (str "X") (button 1)) 1). lia.
Defined.

(** The face buttons named "Y" and "X", and every button held. *)
Lemma Temp_arrays_suffice_witness :
  (length (SaveHotkey_Temp (str "Y") (str "X") 65535) + 1 <= 192)%nat.
Proof.
  apply (proj2 (Temp_arrays_suffice (str "Y") (str "X"))). simpl. lia.
Defined.

(** The greatest unsigned 64-bit value. *)
Lemma print_u64_fits_witness :
  exists ds,
    print_u64 (replicate 21 "?"%char) 0 UINT64_MAX
      = ds ++ NUL :: drop (S (length ds)) (replicate 21 "?"%char)
    /\ (length ds <= 20)%nat
    /\ decimal_of UINT64_MAX ds.
Proof.
  apply (print_u64_fits (replicate 21 "?"%char) UINT64_MAX).
  - reflexivity.
  - unfold UINT64_MAX. lia.
Defined.

(** "RA?R" for the fast-forward hotkey: R and A. *)
Lemma LoadHotkeyFunction_codes_witness :
  let Hotkey := read_target HotkeyMenu_FastForward
                  (LoadHotkeyFunction HotkeyMenu_FastForward (str "RA?R") sample_memory) in
  0 <= Hotkey < 2 ^ 16
  /\ (hd NUL (str "RA?R") = "x"%char -> Hotkey = 0)
  /\ (hd NUL (str "RA?R") <> "x"%char ->
      forall j, 0 <= j ->
        Z.testbit Hotkey j = true <-> j < 16 /\ ButtonSave j ∈ str "RA?R").
Proof.
  apply (LoadHotkeyFunction_codes HotkeyMenu_FastForward (P_Hotkeys 0) (str "RA?R")
           sample_memory).
  - reflexivity.
  - simpl. lia.
Defined.

(** "SHOW" for the FPS counter. *)
Lemma DefaultLoadFunction_first_match_witness :
  DefaultLoadFunction DisplayMenu_FPSCounter (str "SHOW") sample_memory []
    = ([], Done (write_target DisplayMenu_FPSCounter 1 sample_memory)).
Proof.
  apply (proj1 (DefaultLoadFunction_first_match DisplayMenu_FPSCounter
                  (str "fps_counter") (str "SHOW") sample_memory []
                  eq_refl ltac:(simpl; lia))
           1 (choice "Show" "show")).
  - simpl. lia.
  - reflexivity.
  - reflexivity.
  - intros j c' Hj. assert (j = 0) as -> by lia. simpl.
    intros [= <-]. reflexivity.
Defined.

(** A held, released, then B and A pressed one after the other. *)
Lemma capture_returns_for_gestures_witness :
  Z.lor (button 8) (button 9) <> 0.
Proof.
  apply (proj1 (proj2 (proj2 (capture_returns_for_gestures
           [button 9; 0; button 8; Z.lor (button 8) (button 9); 0]
           (Z.lor (button 8) (button 9)) [])))).
  reflexivity.
Defined.

(** B alone for the fast-forward hotkey, with the south face button being
    B: the hotkey is cleared. *)
Lemma hotkey_set_or_clear_witness :
  ActionSetOrClearHotkey (button 8) (static_menus true false) HotkeyMenu 0
    (mkWorld sample_memory (gesture [button 9] 0 (button 8) [] []) [])
    = Done (Some HotkeyMenu, 0,
            mkWorld (write_target HotkeyMenu_FastForward 0 sample_memory) [] []).
Proof.
  apply (hotkey_set_or_clear (button 8) (static_menus true false) HotkeyMenu 0
           HotkeyMenu_FastForward
           (mkWorld sample_memory (gesture [button 9] 0 (button 8) [] []) [])
           [button 9] 0%nat (button 8) [] []).
  - reflexivity.
  - reflexivity.
  - repeat constructor. discriminate.
  - repeat constructor.
Defined.

(** The main menu with its active index on "Exit": down wraps to the
    first entry. *)
Lemma navigation_wraps_witness :
  DefaultDownFunction (static_menus true false) MainMenu 6
    = Done (Some MainMenu, (6 + 1) mod 7).
Proof.
  apply (navigation_wraps (static_menus true false) MainMenu
           [ MainMenu_Display; MainMenu_ButtonMapping; MainMenu_Hotkey;
             MainMenu_Debug; MainMenu_Reset; MainMenu_Return; MainMenu_Exit ]
           [] 6).
  - reflexivity.
  - simpl. lia.
  - simpl. lia.
Defined.

(** The display settings menu as the source initialises it. *)
Lemma unterminated_menu_overrun_witness :
  DefaultUpFunction (static_menus true false) DisplayMenu 0 = Trap ReadPastEnd
  /\ DefaultDownFunction (static_menus true false) DisplayMenu (5 - 1)
       = Trap ReadPastEnd.
Proof.
  destruct (unterminated_menu_overrun (static_menus true false) DisplayMenu
              [ DisplayMenu_BootSource; DisplayMenu_FPSCounter; DisplayMenu_ScaleMode;
                DisplayMenu_Frameskip; DisplayMenu_FastForwardTarget ])
    as (Hup & Hdown & _).
  - reflexivity.
  - simpl. lia.
  - split; [exact Hup | exact Hdown].
Defined.

(** "Input settings..." in the main menu. *)
Lemma enter_then_leave_witness :
  exists sub,
    DefaultEnterFunction (static_menus true false) MainMenu 1 = Done (Some sub, 1)
    /\ forall j, DefaultLeaveFunction (static_menus true false) sub j
                 = Done (Some MainMenu, j).
Proof.
  apply (enter_then_leave true false MainMenu 1 MainMenu_ButtonMapping).
  - reflexivity.
  - reflexivity.
Defined.

(** Up from the first entry of the main menu, and then down. *)
Lemma active_index_stays_valid_witness :
  exists nav',
    ReGBA_Menu_passes (button 8) (static_menus true false)
      [GUI_ACTION_UP; GUI_ACTION_DOWN]
      (mkNav (Some MainMenu) (fun _ => 0) (mkWorld sample_memory [] [])) = Done nav'
    /\ indices_valid (static_menus true false) (ActiveEntryIndex nav').
Proof.
  eexists. split; [reflexivity |].
  apply (proj1 (active_index_stays_valid (button 8) true false
                  [GUI_ACTION_UP; GUI_ACTION_DOWN]
                  (mkNav (Some MainMenu) (fun _ => 0) (mkWorld sample_memory [] []))
                  _
                  ltac:(intros id; destruct id; simpl; lia))).
  reflexivity.
Defined.

(** Down in the main menu. *)
Lemma plain_keys_are_harmless_witness :
  world (mkNav (Some MainMenu) (set_index (fun _ => 0) MainMenu 1)
           (mkWorld sample_memory [] []))
    = world (mkNav (Some MainMenu) (fun _ => 0) (mkWorld sample_memory [] [])).
Proof.
  apply (proj1 (plain_keys_are_harmless (button 8) true false GUI_ACTION_DOWN MainMenu
                  (mkNav (Some MainMenu) (fun _ => 0) (mkWorld sample_memory [] []))
                  (mkNav (Some MainMenu) (set_index (fun _ => 0) MainMenu 1)
                     (mkWorld sample_memory [] []))
                  eq_refl)).
  tauto.
Defined.

(** "FPS_Counter" in the menus with their [Entries] ended by a NULL. *)
Lemma lookup_returns_first_named_witness :
  Menu_FindByPersistentName (with_sentinels (static_menus true false)) 3 MainMenu
    (str "FPS_Counter")
    = Done (find (named (str "FPS_Counter")) (settings_in_order true)).
Proof.
  apply (proj1 (lookup_returns_first_named (with_sentinels (static_menus true false))
                  3 MainMenu (settings_in_order true) (str "FPS_Counter")
                  eq_refl ltac:(repeat constructor; done))).
Defined.

(** "HOTKEY_fast_forward", the name of the last option entry. *)
Lemma every_option_is_found_witness :
  Menu_FindByPersistentName (with_sentinels (static_menus true false)) 3 MainMenu
    (str "HOTKEY_fast_forward")
    = Done (Some HotkeyMenu_FastForward).
Proof.
  apply (every_option_is_found true false 3 HotkeyMenu_FastForward
           (str "HOTKEY_fast_forward")).
  - lia.
  - simpl. tauto.
  - reflexivity.
Defined.


(** The line "fps_counter = show" with its line feed, in an array of
    NULs. *)
Lemma tokenize_returns_or_spins_witness :
  exists line' tokens,
    tokenize 258 ((str "fps_counter = show" ++ [LF]) ++ NUL :: replicate 237 NUL)
      = Done (line', tokens)
    /\ length line' = 257%nat.
Proof.
  apply (proj1 (proj2 (tokenize_returns_or_spins (str "fps_counter = show" ++ [LF])
                         (replicate 237 NUL)
                         ltac:(repeat (constructor; [discriminate |]); constructor)
                         ltac:(simpl; lia) eq_refl))
           eq_refl 258%nat).
  lia.
Defined.

(** The line "gba_b" in an array that held "gba_a = B #B" before. *)
Lemma value_taken_from_stale_bytes_witness :
  exists line',
    tokenize 258 (str "gba_b" ++ NUL :: str "= " ++ str "B" ++ str " #"
                    ++ str "B" ++ [LF; NUL])
      = Done (line', Some (str "gba_b", str "B")).
Proof.
  apply (value_taken_from_stale_bytes 258 (str "gba_b") (str "B")
           (str "B" ++ [LF; NUL])).
  - reflexivity.
  - reflexivity.
  - simpl. lia.
  - simpl. lia.
Defined.

(** The face buttons named "Y" and "X", and settings in which every key
    of the pad is bound to its own button. *)
Lemma settings_file_round_trip_witness :
  exists file,
    ReGBA_SaveSettings (str "Y") (str "X") (with_sentinels (static_menus true false))
      261 4096 (str "/cfg") (fun _ => true) (str "global_config")
      (mkMemory 1 0 2 3 4 2 [512; 256; 128; 64; 32; 16; 8; 4; 2; 1; 0; 0; 2048] [3]) []
      = ([], Done (true, Some (str "/cfg" ++ str "/" ++ str "global_config"
                                 ++ str ".cfg", file))).
Proof.
  destruct (settings_file_round_trip (str "Y") (str "X") [] eq_refl eq_refl
              ltac:(simpl; lia) true false
              (mkMemory 1 0 2 3 4 2
                 [512; 256; 128; 64; 32; 16; 8; 4; 2; 1; 0; 0; 2048] [3])
              (mkMemory 0 0 0 0 0 0 (replicate 13 0) [0]) 261 4096
              (str "/cfg") (str "global_config") (replicate 257 NUL)
              (fun _ => true) (fun _ => None) [] [])
    as (file & Hsave & _).
  - intros e He. simpl in He.
    repeat (destruct He as [<- | He];
            [first [ unfold well_formed_value; cbn; lia
                   | left; reflexivity
                   | right; exists 0; split; [lia | reflexivity]
                   | right; exists 1; split; [lia | reflexivity]
                   | right; exists 6; split; [lia | reflexivity]
                   | right; exists 7; split; [lia | reflexivity]
                   | right; exists 8; split; [lia | reflexivity]
                   | right; exists 9; split; [lia | reflexivity] ] |]).
    destruct He.
  - simpl. lia.
  - reflexivity.
  - reflexivity.
  - lia.
  - exists file. exact Hsave.
Defined.

(** The line "  fps_counter<TAB>=  show both <CR><LF># text". *)
Lemma tokenize_accepts_witness :
  exists line',
    tokenize 257 (str "  " ++ str "fps_counter" ++ [TAB] ++ "="%char :: str "  "
                    ++ str "show both" ++ [" "%char; CR; LF] ++ "#"%char
                    :: str " text" ++ [LF; NUL])
      = Done (line', Some (str "fps_counter", str "show both")).
Proof.
  apply (tokenize_accepts 257 (str "  ") (str "fps_counter") [TAB] (str "  ")
           (str "show both") [" "%char; CR; LF] "#"%char (str " text" ++ [LF; NUL])).
  - reflexivity.
  - reflexivity.
  - reflexivity.
  - reflexivity.
  - reflexivity.
  - reflexivity.
  - right. reflexivity.
  - simpl. lia.
  - lia.
Defined.
